(** * Ado-Analyst-Pro: the data grid engine of [src/App.tsx]

    A shallow embedding of the Data Explorer's engine: the query pipeline
    ([processedRows]), the viewport window ([visibleRows]), the column layout
    ([handleColumnDrop]), the cell and bulk mutations ([handleCellEdit],
    [applyCleaningSuggestion]), the sort and filter controls and the start-up
    load of the persisted collections.

    Conventions of the embedding.
    - A JavaScript number is an IEEE 754 binary64 value: Rocq's primitive
      [float].  The window of the viewport is given twice: on numbers, as
      the source computes it ([Viewport]), and on exact rational pixel
      quantities ([windowStart], [windowEnd]), on which its bounds and its
      coverage are stated.
    - A JavaScript string is a [string] (a sequence of bytes); case mapping
      covers the ASCII letters.
    - A row is an object: an association list in property order.
    - React state is a record, an event handler is a function on it; a
      handler that can throw returns a [completion]. *)

From Stdlib Require Import ZArith QArith Qround List String Ascii Bool Lia.
From Stdlib Require Import Floats Permutation Sorted.
Import ListNotations.

Set Warnings "-register-all".

Local Open Scope string_scope.
Local Open Scope Z_scope.

(** ** The host language: numbers, strings, conversions *)

Module JS.

Definition number := float.

Definition NaN : number := PrimFloat.nan.
Definition posInfinity : number := PrimFloat.infinity.
Definition negInfinity : number := PrimFloat.neg_infinity.

(** [isNaN x]: the only number different from itself. *)
Definition isNaN (x : number) : bool := negb (PrimFloat.eqb x x).

Definition isFinite (x : number) : bool :=
  match Prim2SF x with
  | S754_zero _ | S754_finite _ _ _ => true
  | _ => false
  end.

(** The number nearest to [m * 2^e] (ties to even). *)
Definition round_binary (m e : Z) : number :=
  SF2Prim (binary_normalize prec emax m e false).

Definition of_Z (z : Z) : number := round_binary z 0.

(** The number nearest to the positive rational [n * 10^e10], [0 < n].  For a
    negative [e10] the quotient is taken with 64 extra bits and a sticky bit,
    which decides the rounding as the exact quotient does. *)
Definition round_decimal (n e10 : Z) : number :=
  if 0 <=? e10 then round_binary (n * 10 ^ e10) 0
  else
    let d := 10 ^ (- e10) in
    let k := Z.max 0 (64 + Z.log2 d - Z.log2 n) in
    let q := (n * 2 ^ k) / d in
    let r := (n * 2 ^ k) mod d in
    round_binary (2 * q + (if r =? 0 then 0 else 1)) (- k - 1).

(** *** Characters *)

Definition code (c : ascii) : Z := Z.of_N (N_of_ascii c).
Definition chr (z : Z) : ascii := ascii_of_N (Z.to_N z).

Definition is_digit (c : ascii) : bool := (48 <=? code c) && (code c <=? 57).
Definition digit_val (c : ascii) : Z := code c - 48.

Definition hex_val (c : ascii) : option Z :=
  let n := code c in
  if (48 <=? n) && (n <=? 57) then Some (n - 48)
  else if (97 <=? n) && (n <=? 102) then Some (n - 87)
  else if (65 <=? n) && (n <=? 70) then Some (n - 55)
  else None.

(** StrWhiteSpaceChar, on ASCII: TAB, LF, VT, FF, CR, SP. *)
Definition is_space (c : ascii) : bool :=
  let n := code c in ((9 <=? n) && (n <=? 13)) || (n =? 32).

Fixpoint trim_start (l : list ascii) : list ascii :=
  match l with
  | c :: l' => if is_space c then trim_start l' else l
  | [] => []
  end.

Definition trim_list (l : list ascii) : list ascii :=
  rev (trim_start (rev (trim_start l))).

(** [String.prototype.trim]. *)
Definition trim (s : string) : string :=
  string_of_list_ascii (trim_list (list_ascii_of_string s)).

Definition lower_char (c : ascii) : ascii :=
  let n := code c in
  if (65 <=? n) && (n <=? 90) then chr (n + 32) else c.

(** [String.prototype.toLowerCase], on ASCII text: the letters A to Z are
    mapped, every other byte is kept. *)
Fixpoint toLowerCase (s : string) : string :=
  match s with
  | EmptyString => EmptyString
  | String c s' => String (lower_char c) (toLowerCase s')
  end.

Fixpoint starts_with (p s : string) : bool :=
  match p, s with
  | EmptyString, _ => true
  | String a p', String b s' => Ascii.eqb a b && starts_with p' s'
  | String _ _, EmptyString => false
  end.

(** [String.prototype.includes]: [q] occurs in [s]. *)
Fixpoint includes (s q : string) : bool :=
  starts_with q s ||
  match s with
  | EmptyString => false
  | String _ s' => includes s' q
  end.

(** *** StringToNumber *)

(** The longest prefix of digits, as (value, number of digits, rest). *)
Fixpoint take_digits (l : list ascii) (acc cnt : Z) : Z * Z * list ascii :=
  match l with
  | c :: l' =>
      if is_digit c then take_digits l' (10 * acc + digit_val c) (cnt + 1)
      else (acc, cnt, l)
  | [] => (acc, cnt, [])
  end.

(** All of [l] as digits in base [b], at least one. *)
Fixpoint radix_digits (b : Z) (l : list ascii) (acc : Z) : option Z :=
  match l with
  | [] => Some acc
  | c :: l' =>
      match hex_val c with
      | Some d => if d <? b then radix_digits b l' (b * acc + d) else None
      | None => None
      end
  end.

Definition radix_literal (b : Z) (l : list ascii) : number :=
  match l with
  | [] => NaN
  | _ => match radix_digits b l 0 with
         | Some z => of_Z z
         | None => NaN
         end
  end.

(** ExponentPart, optional: the exponent, or [None] when the text is not an
    exponent part followed by the end of the literal. *)
Definition exponent_part (l : list ascii) : option Z :=
  match l with
  | [] => Some 0
  | c :: l1 =>
      if (code c =? 101) || (code c =? 69) then
        let '(neg, l2) :=
          match l1 with
          | s :: l2 =>
              if code s =? 45 then (true, l2)
              else if code s =? 43 then (false, l2)
              else (false, l1)
          | [] => (false, l1)
          end in
        match take_digits l2 0 0 with
        | (e, cnt, []) =>
            if 0 <? cnt then Some (if neg then - e else e) else None
        | _ => None
        end
      else None
  end.

Definition signed (neg : bool) (x : number) : number :=
  if neg then PrimFloat.opp x else x.

(** The value of the decimal [m * 10^e10], [0 <= m]; exponents out of the
    binary64 range are cut off at the values they round to. *)
Definition decimal_value (m e10 : Z) : number :=
  if m =? 0 then PrimFloat.zero
  else
    let digits := Z.log2 m / 3 in
    if 400 <? e10 then posInfinity
    else if e10 + digits + 1 <? - 400 then PrimFloat.zero
    else round_decimal m e10.

(** StrUnsignedDecimalLiteral. *)
Definition unsigned_decimal (l : list ascii) : number :=
  if list_eq_dec ascii_dec l (list_ascii_of_string "Infinity")
  then posInfinity
  else
    let '(ip, icnt, l1) := take_digits l 0 0 in
    let '(m, fcnt, l2) :=
      match l1 with
      | c :: l1' =>
          if code c =? 46 then take_digits l1' ip 0 else (ip, 0, l1)
      | [] => (ip, 0, l1)
      end in
    if (icnt =? 0) && (fcnt =? 0) then NaN
    else
      match exponent_part l2 with
      | Some e => decimal_value m (e - fcnt)
      | None => NaN
      end.

(** [Number(s)] for a string [s]. *)
Definition StringToNumber (s : string) : number :=
  match trim_list (list_ascii_of_string s) with
  | [] => PrimFloat.zero
  | (c :: l') as l =>
      if code c =? 45 then signed true (unsigned_decimal l')
      else if code c =? 43 then unsigned_decimal l'
      else
        match l' with
        | x :: l'' =>
            if code c =? 48 then
              if (code x =? 120) || (code x =? 88) then radix_literal 16 l''
              else if (code x =? 111) || (code x =? 79) then radix_literal 8 l''
              else if (code x =? 98) || (code x =? 66) then radix_literal 2 l''
              else unsigned_decimal l
            else unsigned_decimal l
        | [] => unsigned_decimal l
        end
  end.

(** *** Number::toString *)

(** The decimal digits of [z], [0 <= z], most significant first. *)
Fixpoint digits_fuel (fuel : nat) (z : Z) (acc : list ascii) : list ascii :=
  match fuel with
  | O => acc
  | S fuel' =>
      let acc' := chr (48 + z mod 10) :: acc in
      if z <? 10 then acc' else digits_fuel fuel' (z / 10) acc'
  end.

Definition digits_of (z : Z) : list ascii :=
  digits_fuel (S (Z.to_nat (Z.log2 z))) z [].

Definition Z_to_string (z : Z) : string :=
  if z <? 0 then String (chr 45) (string_of_list_ascii (digits_of (- z)))
  else string_of_list_ascii (digits_of z).

(** [10^n <= num / den], for positive [num] and [den]. *)
Definition pow10_le (n num den : Z) : bool :=
  if 0 <=? n then 10 ^ n * den <=? num else den <=? num * 10 ^ (- n).

(** The [n] with [10^(n-1) <= num / den < 10^n]. *)
Definition decimal_exponent (num den : Z) : Z :=
  let est := ((Z.log2 num - Z.log2 den) * 30103) / 100000 in
  if pow10_le (est + 2) num den then est + 3
  else if pow10_le (est + 1) num den then est + 2
  else if pow10_le est num den then est + 1
  else if pow10_le (est - 1) num den then est
  else est - 1.

(** [floor ((num / den) / 10^e)]. *)
Definition scaled_floor (num den e : Z) : Z :=
  if 0 <=? e then num / (den * 10 ^ e) else (num * 10 ^ (- e)) / den.

(** [| s * 10^e - num / den |] as a fraction over the common denominator
    [den * 10^(max 0 (-e))] (only compared among equal [e]). *)
Definition distance (num den s e : Z) : Z :=
  if 0 <=? e then Z.abs (s * 10 ^ e * den - num)
  else Z.abs (s * den - num * 10 ^ (- e)).

(** The digits [s] and the exponent [n] of Number::toString for the finite
    positive [x = num / den]: the least [k] such that some [s] of [k] digits
    has [s * 10^(n - k)] round to [x]; among two such [s] the nearer one, the
    even one on a tie. *)
Fixpoint shortest (fuel : nat) (k : Z) (x : number) (num den n : Z)
  : Z * Z * Z :=
  let e := n - k in
  let lo := scaled_floor num den e in
  let hi := lo + 1 in
  let ok_lo := (10 ^ (k - 1) <=? lo) && PrimFloat.eqb (round_decimal lo e) x in
  let ok_hi := PrimFloat.eqb (round_decimal hi e) x in
  let pick_hi := if hi =? 10 ^ k then (10 ^ (k - 1), k, n + 1) else (hi, k, n) in
  match ok_lo, ok_hi with
  | true, true =>
      match distance num den lo e ?= distance num den hi e with
      | Lt => (lo, k, n)
      | Gt => pick_hi
      | Eq => if Z.even lo then (lo, k, n) else pick_hi
      end
  | true, false => (lo, k, n)
  | false, true => pick_hi
  | false, false =>
      match fuel with
      | O => (lo, k, n)
      | S fuel' => shortest fuel' (k + 1) x num den n
      end
  end.

Definition zeros (n : Z) : list ascii := repeat (chr 48) (Z.to_nat n).

(** The text of the digits [ds] (there are [k]) with decimal exponent [n]. *)
Definition format_digits (ds : list ascii) (k n : Z) : list ascii :=
  if (k <=? n) && (n <=? 21) then ds ++ zeros (n - k)
  else if (0 <? n) && (n <=? 21) then
    firstn (Z.to_nat n) ds ++ chr 46 :: skipn (Z.to_nat n) ds
  else if (-6 <? n) && (n <=? 0) then
    chr 48 :: chr 46 :: zeros (- n) ++ ds
  else
    let e := n - 1 in
    let exp := chr 101 :: chr (if e <? 0 then 45 else 43) :: digits_of (Z.abs e) in
    match ds with
    | d :: ((_ :: _) as rest) => d :: chr 46 :: rest ++ exp
    | _ => ds ++ exp
    end.

(** [Number.prototype.toString], radix 10. *)
Definition NumberToString (x : number) : string :=
  match Prim2SF x with
  | S754_nan => "NaN"
  | S754_zero _ => "0"
  | S754_infinity s => if s then "-Infinity" else "Infinity"
  | S754_finite s m e =>
      let num := Zpos m * 2 ^ Z.max e 0 in
      let den := 2 ^ Z.max (- e) 0 in
      let '(d, k, n) :=
        shortest 17 1 (PrimFloat.abs x) num den (decimal_exponent num den) in
      let txt := string_of_list_ascii (format_digits (digits_of d) k n) in
      if s then String (chr 45) txt else txt
  end.

(** *** Values *)

(** The values a cell, a filter bound or an edit can hold. *)
Inductive value : Type :=
  | VUndefined
  | VNull
  | VNum (x : number)
  | VStr (s : string).

(** [String(v)]. *)
Definition ToString (v : value) : string :=
  match v with
  | VUndefined => "undefined"
  | VNull => "null"
  | VNum x => NumberToString x
  | VStr s => s
  end.

(** [Number(v)]. *)
Definition ToNumber (v : value) : number :=
  match v with
  | VUndefined => NaN
  | VNull => PrimFloat.zero
  | VNum x => x
  | VStr s => StringToNumber s
  end.

(** [typeof v === 'number'] and [typeof v === 'string']. *)
Definition is_number (v : value) : bool :=
  match v with VNum _ => true | _ => false end.

Definition is_string (v : value) : bool :=
  match v with VStr _ => true | _ => false end.

(** [a === b]. *)
Definition strict_eq (a b : value) : bool :=
  match a, b with
  | VUndefined, VUndefined => true
  | VNull, VNull => true
  | VNum x, VNum y => PrimFloat.eqb x y
  | VStr s, VStr t => String.eqb s t
  | _, _ => false
  end.

(** *** Objects with primitive properties *)

(** An object, as its own enumerable string-keyed properties in property
    order. *)
Definition object := list (string * value).

(** [o[k]]: the value of the own property [k]; [undefined] for an absent
    property, as the source reads it unless [k] names a property of
    [Object.prototype]. *)
Fixpoint get (o : object) (k : string) : value :=
  match o with
  | [] => VUndefined
  | (k', v) :: o' => if String.eqb k' k then v else get o' k
  end.

Fixpoint has (o : object) (k : string) : bool :=
  match o with
  | [] => false
  | (k', _) :: o' => String.eqb k' k || has o' k
  end.

(** An array index: the canonical decimal text of an integer below
    [2^32 - 1].  Such keys come first in property order, ascending. *)
Definition array_index (k : string) : option Z :=
  let l := list_ascii_of_string k in
  match take_digits l 0 0 with
  | (z, cnt, []) =>
      if (0 <? cnt) && String.eqb (Z_to_string z) k && (z <? 2 ^ 32 - 1)
      then Some z else None
  | _ => None
  end.

(** A new property [k] enters [o] at its place in property order. *)
Fixpoint add_prop (o : object) (k : string) (v : value) : object :=
  match o with
  | [] => [(k, v)]
  | (k', v') :: o' =>
      match array_index k, array_index k' with
      | Some i, Some j =>
          if i <? j then (k, v) :: o else (k', v') :: add_prop o' k v
      | Some _, None => (k, v) :: o
      | None, _ => (k', v') :: add_prop o' k v
      end
  end.

Fixpoint replace_prop (o : object) (k : string) (v : value) : object :=
  match o with
  | [] => []
  | (k', v') :: o' =>
      if String.eqb k' k then (k', v) :: o' else (k', v') :: replace_prop o' k v
  end.

(** [{ ...o, [k]: v }]. *)
Definition set_prop (o : object) (k : string) (v : value) : object :=
  if has o k then replace_prop o k v else add_prop o k v.

(** [Object.values(o)]. *)
Definition Object_values (o : object) : list value := map snd o.

(** *** JSON.stringify *)

Definition hex_digit (z : Z) : ascii :=
  if z <? 10 then chr (48 + z) else chr (87 + z).

Definition quote_char (c : ascii) : list ascii :=
  let n := code c in
  if n =? 8 then [chr 92; chr 98]
  else if n =? 9 then [chr 92; chr 116]
  else if n =? 10 then [chr 92; chr 110]
  else if n =? 12 then [chr 92; chr 102]
  else if n =? 13 then [chr 92; chr 114]
  else if n =? 34 then [chr 92; chr 34]
  else if n =? 92 then [chr 92; chr 92]
  else if n <? 32 then
    [chr 92; chr 117; chr 48; chr 48; hex_digit (n / 16); hex_digit (n mod 16)]
  else [c].

(** QuoteJSONString. *)
Definition quote (s : string) : string :=
  string_of_list_ascii
    (chr 34 :: flat_map quote_char (list_ascii_of_string s) ++ [chr 34]).

(** The JSON text of a property value; [None] for a value that JSON leaves
    out of an object. *)
Definition stringify_value (v : value) : option string :=
  match v with
  | VUndefined => None
  | VNull => Some "null"
  | VNum x => Some (if isFinite x then NumberToString x else "null")
  | VStr s => Some (quote s)
  end.

Fixpoint stringify_props (o : object) : list string :=
  match o with
  | [] => []
  | (k, v) :: o' =>
      match stringify_value v with
      | Some t => (quote k ++ ":" ++ t) :: stringify_props o'
      | None => stringify_props o'
      end
  end.

(** [JSON.stringify(o)] for an object [o]. *)
Definition JSON_stringify (o : object) : string :=
  "{" ++ String.concat "," (stringify_props o) ++ "}".

(** *** Completions *)

Inductive exn : Type := SyntaxError | TypeError.

(** What evaluating an expression or running a handler ends in. *)
Inductive completion (A : Type) : Type :=
  | Normal (a : A)
  | Throw (e : exn).

Arguments Normal {A} a.
Arguments Throw {A} e.

Definition bind {A B : Type} (c : completion A) (k : A -> completion B)
  : completion B :=
  match c with
  | Normal a => k a
  | Throw e => Throw e
  end.

(** *** JSON.parse *)

Inductive json : Type :=
  | JNull
  | JBool (b : bool)
  | JNumber (x : number)
  | JString (s : string)
  | JArray (elements : list json)
  | JObject (members : list (string * json)).

(** JSON white space: TAB, LF, CR, SP. *)
Definition is_json_space (c : ascii) : bool :=
  let n := code c in (n =? 9) || (n =? 10) || (n =? 13) || (n =? 32).

Fixpoint skip_space (l : list ascii) : list ascii :=
  match l with
  | c :: l' => if is_json_space c then skip_space l' else l
  | [] => []
  end.

Fixpoint strip_prefix (p l : list ascii) : option (list ascii) :=
  match p, l with
  | [], _ => Some l
  | a :: p', b :: l' => if Ascii.eqb a b then strip_prefix p' l' else None
  | _ :: _, [] => None
  end.

(** The UTF-8 bytes of the code unit [u] of a [\uXXXX] escape. *)
Definition encode_unit (u : Z) : list ascii :=
  if u <? 128 then [chr u]
  else if u <? 2048 then [chr (192 + u / 64); chr (128 + u mod 64)]
  else [chr (224 + u / 4096); chr (128 + (u / 64) mod 64); chr (128 + u mod 64)].

(** The characters of a JSON string after its opening quote, up to and
    without the closing one. *)
Fixpoint parse_chars (fuel : nat) (l acc : list ascii)
  : option (string * list ascii) :=
  match fuel with
  | O => None
  | S fuel' =>
      match l with
      | [] => None
      | c :: l1 =>
          if code c =? 34 then Some (string_of_list_ascii (rev acc), l1)
          else if code c <? 32 then None
          else if code c =? 92 then
            match l1 with
            | e :: l2 =>
                let n := code e in
                let simple x := parse_chars fuel' l2 (chr x :: acc) in
                if n =? 34 then simple 34
                else if n =? 92 then simple 92
                else if n =? 47 then simple 47
                else if n =? 98 then simple 8
                else if n =? 102 then simple 12
                else if n =? 110 then simple 10
                else if n =? 114 then simple 13
                else if n =? 116 then simple 9
                else if n =? 117 then
                  match l2 with
                  | a :: b :: c' :: d :: l3 =>
                      match hex_val a, hex_val b, hex_val c', hex_val d with
                      | Some x3, Some x2, Some x1, Some x0 =>
                          let u := ((x3 * 16 + x2) * 16 + x1) * 16 + x0 in
                          parse_chars fuel' l3 (rev (encode_unit u) ++ acc)
                      | _, _, _, _ => None
                      end
                  | _ => None
                  end
                else None
            | [] => None
            end
          else parse_chars fuel' l1 (c :: acc)
      end
  end.

(** A JSON number at the head of [l]: an optional minus, an integer part
    without a leading zero, an optional fraction, an optional exponent. *)
Definition parse_number (l : list ascii) : option (number * list ascii) :=
  let '(neg, l0) :=
    match l with
    | c :: l' => if code c =? 45 then (true, l') else (false, l)
    | [] => (false, l)
    end in
  let '(ip, icnt, l1) := take_digits l0 0 0 in
  let leading_zero :=
    match l0 with
    | c :: _ => (code c =? 48) && (1 <? icnt)
    | [] => false
    end in
  if (icnt =? 0) || leading_zero then None
  else
    let frac :=
      match l1 with
      | c :: l1' =>
          if code c =? 46 then
            let '(m, fcnt, l2) := take_digits l1' ip 0 in
            if fcnt =? 0 then None else Some (m, fcnt, l2)
          else Some (ip, 0, l1)
      | [] => Some (ip, 0, l1)
      end in
    match frac with
    | None => None
    | Some (m, fcnt, l2) =>
        let with_exp e rest :=
          Some (signed neg (decimal_value m (e - fcnt)), rest) in
        match l2 with
        | c :: l3 =>
            if (code c =? 101) || (code c =? 69) then
              let '(eneg, l4) :=
                match l3 with
                | sg :: l4 =>
                    if code sg =? 45 then (true, l4)
                    else if code sg =? 43 then (false, l4)
                    else (false, l3)
                | [] => (false, l3)
                end in
              let '(e, ecnt, l5) := take_digits l4 0 0 in
              if ecnt =? 0 then None
              else with_exp (if eneg then - e else e) l5
            else with_exp 0 l2
        | [] => with_exp 0 l2
        end
    end.

(** A later member of the same name replaces the value of the earlier one. *)
Fixpoint set_member (o : list (string * json)) (k : string) (v : json)
  : list (string * json) :=
  match o with
  | [] => [(k, v)]
  | (k', v') :: o' =>
      if String.eqb k' k then (k', v) :: o' else (k', v') :: set_member o' k v
  end.

(** A JSON value at the head of [l] (after white space), and what follows
    it.  Every call uses one unit of [fuel]; between a call and the second
    call after it a character is read, so twice the length of the text is
    fuel enough. *)
Fixpoint parse_value (fuel : nat) (l : list ascii)
  : option (json * list ascii) :=
  match fuel with
  | O => None
  | S fuel' =>
      match skip_space l with
      | [] => None
      | (c :: l1) as l0 =>
          let n := code c in
          if n =? 34 then
            match parse_chars (S (List.length l1)) l1 [] with
            | Some (s, rest) => Some (JString s, rest)
            | None => None
            end
          else if n =? 91 then
            match skip_space l1 with
            | d :: l2 =>
                if code d =? 93 then Some (JArray [], l2)
                else parse_elements fuel' l1 []
            | [] => None
            end
          else if n =? 123 then
            match skip_space l1 with
            | d :: l2 =>
                if code d =? 125 then Some (JObject [], l2)
                else parse_members fuel' l1 []
            | [] => None
            end
          else if n =? 110 then
            option_map (pair JNull) (strip_prefix (list_ascii_of_string "null") l0)
          else if n =? 116 then
            option_map (pair (JBool true))
                       (strip_prefix (list_ascii_of_string "true") l0)
          else if n =? 102 then
            option_map (pair (JBool false))
                       (strip_prefix (list_ascii_of_string "false") l0)
          else
            match parse_number l0 with
            | Some (x, rest) => Some (JNumber x, rest)
            | None => None
            end
      end
  end

with parse_elements (fuel : nat) (l : list ascii) (acc : list json)
  : option (json * list ascii) :=
  match fuel with
  | O => None
  | S fuel' =>
      match parse_value fuel' l with
      | Some (v, rest) =>
          match skip_space rest with
          | c :: rest' =>
              if code c =? 44 then parse_elements fuel' rest' (v :: acc)
              else if code c =? 93 then Some (JArray (rev (v :: acc)), rest')
              else None
          | [] => None
          end
      | None => None
      end
  end

with parse_members (fuel : nat) (l : list ascii) (acc : list (string * json))
  : option (json * list ascii) :=
  match fuel with
  | O => None
  | S fuel' =>
      match skip_space l with
      | q :: l1 =>
          if code q =? 34 then
            match parse_chars (S (List.length l1)) l1 [] with
            | Some (k, rest) =>
                match skip_space rest with
                | c :: rest1 =>
                    if code c =? 58 then
                      match parse_value fuel' rest1 with
                      | Some (v, rest2) =>
                          let acc' := set_member acc k v in
                          match skip_space rest2 with
                          | d :: rest3 =>
                              if code d =? 44 then parse_members fuel' rest3 acc'
                              else if code d =? 125 then Some (JObject acc', rest3)
                              else None
                          | [] => None
                          end
                      | None => None
                      end
                    else None
                | [] => None
                end
            | None => None
            end
          else None
      | [] => None
      end
  end.

(** [JSON.parse(text)]: the value of a text that is one JSON value between
    optional white space, a [SyntaxError] otherwise. *)
Definition JSON_parse (text : string) : completion json :=
  let l := list_ascii_of_string text in
  match parse_value (2 * S (List.length l)) l with
  | Some (v, rest) =>
      match skip_space rest with
      | [] => Normal v
      | _ :: _ => Throw SyntaxError
      end
  | None => Throw SyntaxError
  end.

(** *** Math and Array *)

(** [Math.floor] and [Math.ceil] of an exact quotient. *)
Definition Math_floor (x : Q) : Z := Qfloor x.
Definition Math_ceil (x : Q) : Z := Qceiling x.
Definition Math_max (a b : Z) : Z := Z.max a b.
Definition Math_min (a b : Z) : Z := Z.min a b.

Section Arrays.
Context {A : Type}.

(** A relative index of [slice] and [splice] against the length [len]. *)
Definition relative (len k : Z) : Z :=
  if k <? 0 then Z.max (len + k) 0 else Z.min k len.

(** [l.slice(start, end)]. *)
Definition Array_slice (l : list A) (start stop : Z) : list A :=
  let len := Z.of_nat (List.length l) in
  let k := relative len start in
  let final := relative len stop in
  firstn (Z.to_nat (Z.max (final - k) 0)) (skipn (Z.to_nat k) l).

(** [l.splice(start, deleteCount, ...items)]: the array afterwards. *)
Definition Array_splice (l : list A) (start deleteCount : Z) (items : list A)
  : list A :=
  let len := Z.of_nat (List.length l) in
  let k := relative len start in
  let dc := Z.min (Z.max deleteCount 0) (len - k) in
  firstn (Z.to_nat k) l ++ items ++ skipn (Z.to_nat (k + dc)) l.

(** [l.map((x, i) => f(x, i))], counting from [i]. *)
Fixpoint mapi_from {B : Type} (f : A -> Z -> B) (i : Z) (l : list A)
  : list B :=
  match l with
  | [] => []
  | x :: l' => f x i :: mapi_from f (i + 1) l'
  end.

(** [l[i]]. *)
Definition Array_get (l : list A) (i : Z) : option A :=
  if i <? 0 then None else nth_error l (Z.to_nat i).

(** [l[i] = x] for an index within the array. *)
Fixpoint Array_set (l : list A) (i : nat) (x : A) : list A :=
  match l, i with
  | [], _ => []
  | _ :: l', O => x :: l'
  | y :: l', S i' => y :: Array_set l' i' x
  end.

Variable eqb : A -> A -> bool.

Fixpoint indexOf_from (l : list A) (x : A) (i : Z) : Z :=
  match l with
  | [] => -1
  | y :: l' => if eqb y x then i else indexOf_from l' x (i + 1)
  end.

(** [l.indexOf(x)]: the first position of [x], [-1] when there is none. *)
Definition Array_indexOf (l : list A) (x : A) : Z := indexOf_from l x 0.

(** [l.sort(compare)]: a stable sort.  [compare a b] is a number; [b] goes
    before [a] when it is positive, and a NaN counts as zero. *)
Variable compare : A -> A -> number.

Fixpoint sort_insert (x : A) (l : list A) : list A :=
  match l with
  | [] => [x]
  | y :: l' =>
      if PrimFloat.ltb PrimFloat.zero (compare x y)
      then y :: sort_insert x l'
      else x :: l
  end.

Fixpoint Array_sort (l : list A) : list A :=
  match l with
  | [] => []
  | x :: l' => sort_insert x (Array_sort l')
  end.
End Arrays.

End JS.

(** ** The types of [src/types.ts] *)

Module ColumnStats.
Record t : Type := mk {
  min : JS.number;
  max : JS.number;
  avg : JS.number;
  sum : JS.number;
  count : JS.number
}.
End ColumnStats.

Inductive ColumnType : Type := numeric | categorical | date | unknown.

Module ColumnMetadata.
Record t : Type := mk {
  type : ColumnType;
  stats : ColumnStats.t;
  uniqueValues : option JS.number
}.
End ColumnMetadata.

Module Dataset.
(** [rows] is the Row Store; [metadata] is optional. *)
Record t : Type := mk {
  id : string;
  name : string;
  columns : list string;
  rows : list JS.object;
  summary : string;
  metadata : option (list (string * ColumnMetadata.t))
}.
End Dataset.

Inductive SortDirection : Type := asc | desc.

Module SortConfig.
(** [direction]: ['asc' | 'desc' | null]. *)
Record t : Type := mk {
  key : string;
  direction : option SortDirection
}.
End SortConfig.

Module ActiveFilter.
(** [operator] is the tag as the filter stage reads it, a string;
    [valueEnd] is [undefined] when the filter has none. *)
Record t : Type := mk {
  id : string;
  column : string;
  operator : string;
  value : JS.value;
  valueEnd : JS.value
}.
End ActiveFilter.

Inductive Severity : Type := low | medium | high.

Inductive ActionType : Type :=
  | remove_nulls | normalize | convert_types | deduplicate.

Module CleaningSuggestion.
Record t : Type := mk {
  id : string;
  column : string;
  issue : string;
  suggestion : string;
  severity : Severity;
  actionType : option ActionType
}.
End CleaningSuggestion.

Inductive Theme : Type := light | dark.

Module View.
Inductive t : Type := chat | data | dashboard.
End View.

Inductive ToastType : Type := success | info | error.

Record Notification : Type := {
  message : string;
  type : ToastType
}.

Record EditingCell : Type := {
  rowIndex : Z;
  column : string
}.

(** A row of the window: the row and its tag. *)
Record VisibleRow : Type := {
  data : JS.object;
  originalIndex : Z
}.

(** The state of the [App] component that the grid engine reads and
    writes. *)
Record AppState : Type := {
  datasets : list Dataset.t;
  activeDatasetId : option string;
  view : View.t;
  notification : option Notification;
  cleaningSuggestions : list CleaningSuggestion.t;
  activeFilters : list ActiveFilter.t;
  searchQuery : string;
  sortConfig : SortConfig.t;
  columnOrder : list string;
  editingCell : option EditingCell;
  draggedColumn : option string;
  scrollTop : Q;
  tableContainerHeight : Q
}.

(** The state setters: one field replaced, the others kept. *)

Definition setDatasets (v : list Dataset.t) (st : AppState) : AppState :=
  {| datasets := v;
     activeDatasetId := activeDatasetId st;
     view := view st;
     notification := notification st;
     cleaningSuggestions := cleaningSuggestions st;
     activeFilters := activeFilters st;
     searchQuery := searchQuery st;
     sortConfig := sortConfig st;
     columnOrder := columnOrder st;
     editingCell := editingCell st;
     draggedColumn := draggedColumn st;
     scrollTop := scrollTop st;
     tableContainerHeight := tableContainerHeight st |}.

Definition setView (v : View.t) (st : AppState) : AppState :=
  {| datasets := datasets st;
     activeDatasetId := activeDatasetId st;
     view := v;
     notification := notification st;
     cleaningSuggestions := cleaningSuggestions st;
     activeFilters := activeFilters st;
     searchQuery := searchQuery st;
     sortConfig := sortConfig st;
     columnOrder := columnOrder st;
     editingCell := editingCell st;
     draggedColumn := draggedColumn st;
     scrollTop := scrollTop st;
     tableContainerHeight := tableContainerHeight st |}.

Definition setNotification (v : option Notification) (st : AppState) : AppState :=
  {| datasets := datasets st;
     activeDatasetId := activeDatasetId st;
     view := view st;
     notification := v;
     cleaningSuggestions := cleaningSuggestions st;
     activeFilters := activeFilters st;
     searchQuery := searchQuery st;
     sortConfig := sortConfig st;
     columnOrder := columnOrder st;
     editingCell := editingCell st;
     draggedColumn := draggedColumn st;
     scrollTop := scrollTop st;
     tableContainerHeight := tableContainerHeight st |}.

Definition setCleaningSuggestions (v : list CleaningSuggestion.t) (st : AppState) : AppState :=
  {| datasets := datasets st;
     activeDatasetId := activeDatasetId st;
     view := view st;
     notification := notification st;
     cleaningSuggestions := v;
     activeFilters := activeFilters st;
     searchQuery := searchQuery st;
     sortConfig := sortConfig st;
     columnOrder := columnOrder st;
     editingCell := editingCell st;
     draggedColumn := draggedColumn st;
     scrollTop := scrollTop st;
     tableContainerHeight := tableContainerHeight st |}.

Definition setActiveFilters (v : list ActiveFilter.t) (st : AppState) : AppState :=
  {| datasets := datasets st;
     activeDatasetId := activeDatasetId st;
     view := view st;
     notification := notification st;
     cleaningSuggestions := cleaningSuggestions st;
     activeFilters := v;
     searchQuery := searchQuery st;
     sortConfig := sortConfig st;
     columnOrder := columnOrder st;
     editingCell := editingCell st;
     draggedColumn := draggedColumn st;
     scrollTop := scrollTop st;
     tableContainerHeight := tableContainerHeight st |}.

Definition setSearchQuery (v : string) (st : AppState) : AppState :=
  {| datasets := datasets st;
     activeDatasetId := activeDatasetId st;
     view := view st;
     notification := notification st;
     cleaningSuggestions := cleaningSuggestions st;
     activeFilters := activeFilters st;
     searchQuery := v;
     sortConfig := sortConfig st;
     columnOrder := columnOrder st;
     editingCell := editingCell st;
     draggedColumn := draggedColumn st;
     scrollTop := scrollTop st;
     tableContainerHeight := tableContainerHeight st |}.

Definition setSortConfig (v : SortConfig.t) (st : AppState) : AppState :=
  {| datasets := datasets st;
     activeDatasetId := activeDatasetId st;
     view := view st;
     notification := notification st;
     cleaningSuggestions := cleaningSuggestions st;
     activeFilters := activeFilters st;
     searchQuery := searchQuery st;
     sortConfig := v;
     columnOrder := columnOrder st;
     editingCell := editingCell st;
     draggedColumn := draggedColumn st;
     scrollTop := scrollTop st;
     tableContainerHeight := tableContainerHeight st |}.

Definition setColumnOrder (v : list string) (st : AppState) : AppState :=
  {| datasets := datasets st;
     activeDatasetId := activeDatasetId st;
     view := view st;
     notification := notification st;
     cleaningSuggestions := cleaningSuggestions st;
     activeFilters := activeFilters st;
     searchQuery := searchQuery st;
     sortConfig := sortConfig st;
     columnOrder := v;
     editingCell := editingCell st;
     draggedColumn := draggedColumn st;
     scrollTop := scrollTop st;
     tableContainerHeight := tableContainerHeight st |}.

Definition setEditingCell (v : option EditingCell) (st : AppState) : AppState :=
  {| datasets := datasets st;
     activeDatasetId := activeDatasetId st;
     view := view st;
     notification := notification st;
     cleaningSuggestions := cleaningSuggestions st;
     activeFilters := activeFilters st;
     searchQuery := searchQuery st;
     sortConfig := sortConfig st;
     columnOrder := columnOrder st;
     editingCell := v;
     draggedColumn := draggedColumn st;
     scrollTop := scrollTop st;
     tableContainerHeight := tableContainerHeight st |}.

Definition setDraggedColumn (v : option string) (st : AppState) : AppState :=
  {| datasets := datasets st;
     activeDatasetId := activeDatasetId st;
     view := view st;
     notification := notification st;
     cleaningSuggestions := cleaningSuggestions st;
     activeFilters := activeFilters st;
     searchQuery := searchQuery st;
     sortConfig := sortConfig st;
     columnOrder := columnOrder st;
     editingCell := editingCell st;
     draggedColumn := v;
     scrollTop := scrollTop st;
     tableContainerHeight := tableContainerHeight st |}.


Definition setTableContainerHeight (v : Q) (st : AppState) : AppState :=
  {| datasets := datasets st;
     activeDatasetId := activeDatasetId st;
     view := view st;
     notification := notification st;
     cleaningSuggestions := cleaningSuggestions st;
     activeFilters := activeFilters st;
     searchQuery := searchQuery st;
     sortConfig := sortConfig st;
     columnOrder := columnOrder st;
     editingCell := editingCell st;
     draggedColumn := draggedColumn st;
     scrollTop := scrollTop st;
     tableContainerHeight := v |}.

(** ** The grid engine of [src/App.tsx] *)

Definition ROW_HEIGHT : Z := 65.
Definition BUFFER_COUNT : Z := 5.

Section App.

(** [String.prototype.localeCompare]: the collation of the host's locale,
    a number below, at or above zero. *)
Variable localeCompare : string -> string -> JS.number.

(** [datasets.find(d => d.id === activeDatasetId)]. *)
Definition activeDataset (st : AppState) : option Dataset.t :=
  match activeDatasetId st with
  | Some i => find (fun d => String.eqb (Dataset.id d) i) (datasets st)
  | None => None
  end.

(** *** [processedRows]: filter, search, sort *)

(** The body of [activeFilters.every(f => ...)]: the switch on the
    operator tag. *)
Definition filterPredicate (row : JS.object) (f : ActiveFilter.t) : bool :=
  let val := JS.get row (ActiveFilter.column f) in
  let op := ActiveFilter.operator f in
  let bound := ActiveFilter.value f in
  if String.eqb op "equals" then
    String.eqb (JS.ToString val) (JS.ToString bound)
  else if String.eqb op "contains" then
    JS.includes (JS.toLowerCase (JS.ToString val))
                (JS.toLowerCase (JS.ToString bound))
  else if String.eqb op "gt" then
    PrimFloat.ltb (JS.ToNumber bound) (JS.ToNumber val)
  else if String.eqb op "lt" then
    PrimFloat.ltb (JS.ToNumber val) (JS.ToNumber bound)
  else if String.eqb op "between" then
    PrimFloat.leb (JS.ToNumber bound) (JS.ToNumber val)
    && PrimFloat.leb (JS.ToNumber val) (JS.ToNumber (ActiveFilter.valueEnd f))
  else true.

Definition filterStage (filters : list ActiveFilter.t) (rows : list JS.object)
  : list JS.object :=
  if (0 <? List.length filters)%nat
  then filter (fun row => forallb (filterPredicate row) filters) rows
  else rows.

Definition searchStage (query : string) (rows : list JS.object)
  : list JS.object :=
  if String.eqb query "" then rows
  else
    let q := JS.toLowerCase query in
    filter (fun row =>
              existsb (fun val => JS.includes (JS.toLowerCase (JS.ToString val)) q)
                      (JS.Object_values row))
           rows.

(** The comparator handed to [rows.sort]. *)
Definition sortComparator (cfg : SortConfig.t) (a b : JS.object) : JS.number :=
  let valA := JS.get a (SortConfig.key cfg) in
  let valB := JS.get b (SortConfig.key cfg) in
  let ascending :=
    match SortConfig.direction cfg with Some asc => true | _ => false end in
  match valA, valB with
  | JS.VNum x, JS.VNum y =>
      if ascending then PrimFloat.sub x y else PrimFloat.sub y x
  | _, _ =>
      if ascending
      then localeCompare (JS.ToString valA) (JS.ToString valB)
      else localeCompare (JS.ToString valB) (JS.ToString valA)
  end.

Definition sortStage (cfg : SortConfig.t) (rows : list JS.object)
  : list JS.object :=
  match String.eqb (SortConfig.key cfg) "", SortConfig.direction cfg with
  | false, Some _ => JS.Array_sort (sortComparator cfg) rows
  | _, _ => rows
  end.

(** The pipeline on a row sequence. *)
Definition computeView (rows : list JS.object) (filters : list ActiveFilter.t)
    (query : string) (cfg : SortConfig.t) : list JS.object :=
  sortStage cfg (searchStage query (filterStage filters rows)).

Definition processedRows (st : AppState) : list JS.object :=
  match activeDataset st with
  | None => []
  | Some d =>
      computeView (Dataset.rows d) (activeFilters st) (searchQuery st)
                  (sortConfig st)
  end.

(** *** [visibleRows]: the window *)

Definition totalCount (st : AppState) : Z :=
  Z.of_nat (List.length (processedRows st)).

Definition totalContentHeight (st : AppState) : Z :=
  totalCount st * ROW_HEIGHT.

(** The window on exact quantities: the formulas of the memo with the sum
    and the quotients taken exactly ([Viewport] below has them as the
    source computes them, on numbers). *)
Definition windowStart (scroll : Q) : Z :=
  JS.Math_max 0 (JS.Math_floor (scroll / inject_Z ROW_HEIGHT) - BUFFER_COUNT).

Definition windowEnd (total : Z) (scroll height : Q) : Z :=
  JS.Math_min total
    (JS.Math_ceil ((scroll + height) / inject_Z ROW_HEIGHT) + BUFFER_COUNT).

Definition startIndex (st : AppState) : Z := windowStart (scrollTop st).

Definition endIndex (st : AppState) : Z :=
  windowEnd (totalCount st) (scrollTop st) (tableContainerHeight st).

Definition visibleRows (st : AppState) : list VisibleRow :=
  JS.mapi_from
    (fun row i => {| data := row; originalIndex := startIndex st + i |})
    0
    (JS.Array_slice (processedRows st) (startIndex st) (endIndex st)).

Definition offsetTop (st : AppState) : Z := startIndex st * ROW_HEIGHT.


Definition observeHeight (height : Q) (st : AppState) : AppState :=
  setTableContainerHeight height st.

(** *** The filter and sort controls *)

(** [showToast(message, type)]. *)
Definition showToast (msg : string) (ty : ToastType) (st : AppState)
  : AppState :=
  setNotification (Some {| message := msg; type := ty |}) st.

(** [onDrillDown]; [fresh] is the identifier drawn for the new filter. *)
Definition onDrillDown (fresh col : string) (val : JS.value) (st : AppState)
  : AppState :=
  let newFilter :=
    ActiveFilter.mk fresh col "equals" val JS.VUndefined in
  showToast ("Drilled into " ++ col) success
    (setView View.data
       (setActiveFilters (activeFilters st ++ [newFilter]) st)).

Definition removeFilter (i : string) (st : AppState) : AppState :=
  setActiveFilters
    (filter (fun f => negb (String.eqb (ActiveFilter.id f) i))
            (activeFilters st))
    st.

Definition clearAllFilters (st : AppState) : AppState :=
  showToast "Workspace cleared" info
    (setSearchQuery "" (setActiveFilters [] st)).

(** The updater of [handleSort]: the next configuration from the
    previous one. *)
Definition nextSortConfig (key : string) (prev : SortConfig.t)
  : SortConfig.t :=
  if String.eqb (SortConfig.key prev) key then
    match SortConfig.direction prev with
    | Some asc => SortConfig.mk key (Some desc)
    | Some desc => SortConfig.mk key None
    | None => SortConfig.mk key (Some asc)
    end
  else SortConfig.mk key (Some asc).

Definition handleSort (key : string) (st : AppState) : AppState :=
  setSortConfig (nextSortConfig key (sortConfig st)) st.

(** *** The column layout *)

(** [handleColumnDrop]; [sourceCol] is what the drag carries under
    ['column'], the empty string when it carries nothing. *)
Definition handleColumnDrop (sourceCol targetCol : string) (st : AppState)
  : AppState :=
  if String.eqb sourceCol "" || String.eqb sourceCol targetCol then st
  else
    let newOrder := columnOrder st in
    let sIdx := JS.Array_indexOf String.eqb newOrder sourceCol in
    let tIdx := JS.Array_indexOf String.eqb newOrder targetCol in
    let newOrder := JS.Array_splice newOrder sIdx 1 [] in
    let newOrder := JS.Array_splice newOrder tIdx 0 [sourceCol] in
    setDraggedColumn None (setColumnOrder newOrder st).

(** *** Mutations of the Row Store *)

Fixpoint mapM {A B : Type} (f : A -> JS.completion B) (l : list A)
  : JS.completion (list B) :=
  match l with
  | [] => JS.Normal []
  | x :: l' =>
      JS.bind (f x) (fun y =>
      JS.bind (mapM f l') (fun ys => JS.Normal (y :: ys)))
  end.

(** [{ ...d, rows }]. *)
Definition withRows (d : Dataset.t) (rows : list JS.object) : Dataset.t :=
  Dataset.mk (Dataset.id d) (Dataset.name d) (Dataset.columns d) rows
             (Dataset.summary d) (Dataset.metadata d).

(** The rows after the edit; reading a column of a row that is not there
    throws. *)
Definition editRows (rows : list JS.object) (rowIndex : Z) (column : string)
    (value : JS.value) : JS.completion (list JS.object) :=
  match JS.Array_get rows rowIndex with
  | None => JS.Throw JS.TypeError
  | Some row =>
      let originalValue := JS.get row column in
      let typedValue :=
        if JS.is_number originalValue then JS.VNum (JS.ToNumber value)
        else value in
      JS.Normal
        (JS.Array_set rows (Z.to_nat rowIndex)
                      (JS.set_prop row column typedValue))
  end.

Definition handleCellEdit (rowIndex : Z) (column : string) (value : JS.value)
    (st : AppState) : JS.completion AppState :=
  match activeDatasetId st with
  | None => JS.Normal st
  | Some i =>
      if String.eqb i "" then JS.Normal st
      else
        JS.bind
          (mapM (fun d =>
                   if negb (String.eqb (Dataset.id d) i) then JS.Normal d
                   else JS.bind (editRows (Dataset.rows d) rowIndex column value)
                                (fun rows => JS.Normal (withRows d rows)))
                (datasets st))
          (fun ds => JS.Normal (setEditingCell None (setDatasets ds st)))
  end.

(** The filter of the [deduplicate] action, with the set [seen] of the
    texts met so far. *)
Fixpoint dedupFilter (seen : list string) (rows : list JS.object)
  : list JS.object :=
  match rows with
  | [] => []
  | r :: rows' =>
      let val := JS.JSON_stringify r in
      if existsb (String.eqb val) seen then dedupFilter seen rows'
      else r :: dedupFilter (val :: seen) rows'
  end.

Definition dedup (rows : list JS.object) : list JS.object :=
  dedupFilter [] rows.

Definition removeNulls (col : string) (rows : list JS.object)
  : list JS.object :=
  filter (fun r =>
            negb (JS.strict_eq (JS.get r col) JS.VNull)
            && negb (JS.strict_eq (JS.get r col) JS.VUndefined)
            && negb (JS.strict_eq (JS.get r col) (JS.VStr "")))
         rows.

Definition normalizeRows (col : string) (rows : list JS.object)
  : list JS.object :=
  map (fun r =>
         JS.set_prop r col
           match JS.get r col with
           | JS.VStr s => JS.VStr (JS.trim s)
           | v => v
           end)
      rows.

Definition convertTypes (col : string) (rows : list JS.object)
  : list JS.object :=
  map (fun r =>
         let val := JS.get r col in
         let newVal :=
           if negb (JS.isNaN (JS.ToNumber val))
              && negb (JS.strict_eq val (JS.VStr ""))
           then JS.VNum (JS.ToNumber val) else val in
         JS.set_prop r col newVal)
      rows.

(** The switch on [suggestion.actionType]. *)
Definition cleanRows (s : CleaningSuggestion.t) (rows : list JS.object)
  : list JS.object :=
  match CleaningSuggestion.actionType s with
  | Some remove_nulls => removeNulls (CleaningSuggestion.column s) rows
  | Some deduplicate => dedup rows
  | Some normalize => normalizeRows (CleaningSuggestion.column s) rows
  | Some convert_types => convertTypes (CleaningSuggestion.column s) rows
  | None => rows
  end.

Definition applyCleaningSuggestion (s : CleaningSuggestion.t) (st : AppState)
  : AppState :=
  match activeDatasetId st with
  | None => st
  | Some i =>
      if String.eqb i "" then st
      else
        let ds :=
          map (fun d =>
                 if negb (String.eqb (Dataset.id d) i) then d
                 else withRows d (cleanRows s (Dataset.rows d)))
              (datasets st) in
        showToast ("Successfully applied: " ++ CleaningSuggestion.suggestion s)
          success
          (setCleaningSuggestions
             (filter (fun x => negb (String.eqb (CleaningSuggestion.id x)
                                                (CleaningSuggestion.id s)))
                     (cleaningSuggestions st))
             (setDatasets ds st))
  end.

End App.

(** ** Start-up: the persisted state *)

(** [localStorage]: [getItem] gives [null] for a key that is not stored. *)
Definition Storage := string -> option string.

(** [localStorage.getItem(key) || fallback]. *)
Definition getItemOr (storage : Storage) (key fallback : string) : string :=
  match storage key with
  | Some s => if String.eqb s "" then fallback else s
  | None => fallback
  end.

(** The initializer of [theme]. *)
Definition initTheme (storage : Storage) : Theme :=
  match storage "theme" with
  | Some saved =>
      if String.eqb saved "dark" then dark
      else if String.eqb saved "light" then light
      else light
  | None => light
  end.

(** The initializers of [datasets] and [sessions]. *)
Definition initDatasets (storage : Storage) : JS.completion JS.json :=
  JS.JSON_parse (getItemOr storage "datasets" "[]").

Definition initSessions (storage : Storage) : JS.completion JS.json :=
  JS.JSON_parse (getItemOr storage "sessions" "[]").

(** What the first render of [App] loads: the theme, the datasets, the
    sessions, in this order. *)
Definition loadPersisted (storage : Storage)
  : JS.completion (Theme * JS.json * JS.json) :=
  let theme := initTheme storage in
  JS.bind (initDatasets storage) (fun ds =>
  JS.bind (initSessions storage) (fun ss =>
  JS.Normal (theme, ds, ss))).

(** ** The statements of the specification *)

Module Spec.

(** [q] occurs in [s]. *)
Definition Substring (q s : string) : Prop :=
  exists pre post, s = pre ++ q ++ post.

(** The cell of a row in a column: the value of the row's property of that
    name, [undefined] when the row has none. *)
Inductive Cell : JS.object -> string -> JS.value -> Prop :=
  | cell_absent (k : string) : Cell [] k JS.VUndefined
  | cell_first (k : string) (v : JS.value) (o : JS.object) :
      Cell ((k, v) :: o) k v
  | cell_later (k k' : string) (v v' : JS.value) (o : JS.object) :
      k' <> k -> Cell o k v -> Cell ((k', v') :: o) k v.

(** A numeric value: a number other than NaN, or a text that is not blank
    and reads as such a number. *)
Definition numeric (v : JS.value) : Prop :=
  match v with
  | JS.VNum x => JS.isNaN x = false
  | JS.VStr s => JS.trim s <> "" /\ JS.isNaN (JS.StringToNumber s) = false
  | JS.VUndefined | JS.VNull => False
  end.

(** No condition on an operand. *)
Definition any (_ : JS.value) : Prop := True.

(** The operator semantics of the filter stage, case by case; [operand] is
    what the numeric operators ask of the cell and of the bounds before
    they compare them. *)
Inductive Keeps (operand : JS.value -> Prop) (row : JS.object)
    (f : ActiveFilter.t) : Prop :=
  | keeps_equals (v : JS.value) :
      ActiveFilter.operator f = "equals" ->
      Cell row (ActiveFilter.column f) v ->
      JS.ToString v = JS.ToString (ActiveFilter.value f) ->
      Keeps operand row f
  | keeps_contains (v : JS.value) :
      ActiveFilter.operator f = "contains" ->
      Cell row (ActiveFilter.column f) v ->
      Substring (JS.toLowerCase (JS.ToString (ActiveFilter.value f)))
                (JS.toLowerCase (JS.ToString v)) ->
      Keeps operand row f
  | keeps_gt (v : JS.value) :
      ActiveFilter.operator f = "gt" ->
      Cell row (ActiveFilter.column f) v ->
      operand v -> operand (ActiveFilter.value f) ->
      PrimFloat.ltb (JS.ToNumber (ActiveFilter.value f)) (JS.ToNumber v) = true ->
      Keeps operand row f
  | keeps_lt (v : JS.value) :
      ActiveFilter.operator f = "lt" ->
      Cell row (ActiveFilter.column f) v ->
      operand v -> operand (ActiveFilter.value f) ->
      PrimFloat.ltb (JS.ToNumber v) (JS.ToNumber (ActiveFilter.value f)) = true ->
      Keeps operand row f
  | keeps_between (v : JS.value) :
      ActiveFilter.operator f = "between" ->
      Cell row (ActiveFilter.column f) v ->
      operand v -> operand (ActiveFilter.value f) ->
      operand (ActiveFilter.valueEnd f) ->
      PrimFloat.leb (JS.ToNumber (ActiveFilter.value f)) (JS.ToNumber v) = true ->
      PrimFloat.leb (JS.ToNumber v) (JS.ToNumber (ActiveFilter.valueEnd f)) = true ->
      Keeps operand row f
  | keeps_unknown :
      ~ In (ActiveFilter.operator f)
           ["equals"; "contains"; "gt"; "lt"; "between"] ->
      Keeps operand row f.

(** The transition table of the sort direction:
    none, ascending, descending, none. *)
Definition cycle (d : option SortDirection) : option SortDirection :=
  match d with
  | None => Some asc
  | Some asc => Some desc
  | Some desc => None
  end.

End Spec.

(** The deduplication of the specification. *)
Module DedupSpec.

(** Two values are the same value (a NaN is the same as a NaN). *)
Definition value_same (a b : JS.value) : bool :=
  match a, b with
  | JS.VUndefined, JS.VUndefined => true
  | JS.VNull, JS.VNull => true
  | JS.VNum x, JS.VNum y => PrimFloat.eqb x y || (JS.isNaN x && JS.isNaN y)
  | JS.VStr s, JS.VStr t => String.eqb s t
  | _, _ => false
  end.

(** Full structural equality of two rows: the same columns with the same
    values. *)
Definition row_same (a b : JS.object) : bool :=
  forallb (fun k => Bool.eqb (JS.has a k) (JS.has b k)
                    && value_same (JS.get a k) (JS.get b k))
          (map fst a ++ map fst b).

(** The rows of [l] that are the same as no row before them; [earlier] are
    the rows before [l]. *)
Fixpoint keep_first {A : Type} (same : A -> A -> bool) (earlier l : list A)
  : list A :=
  match l with
  | [] => []
  | x :: l' =>
      if existsb (same x) earlier then keep_first same (earlier ++ [x]) l'
      else x :: keep_first same (earlier ++ [x]) l'
  end.

(** First occurrence wins, under structural equality. *)
Definition dedup_structural (rows : list JS.object) : list JS.object :=
  keep_first row_same [] rows.

Definition text_same (a b : JS.object) : bool :=
  String.eqb (JS.JSON_stringify a) (JS.JSON_stringify b).

(** First occurrence wins, under equality of the JSON texts. *)
Definition dedup_by_text (rows : list JS.object) : list JS.object :=
  keep_first text_same [] rows.

End DedupSpec.

(** [seen.has(JSON.stringify(r))]. *)
Definition text_seen (seen : list string) (r : JS.object) : bool :=
  existsb (String.eqb (JS.JSON_stringify r)) seen.

(** The Row Store: the rows of the active dataset. *)
Definition rowStore (st : AppState) : list JS.object :=
  match activeDataset st with
  | Some d => Dataset.rows d
  | None => []
  end.

(** The window of the specification, [computeWindow]. *)
Module WindowSpec.

(** [k] is the floor, the ceiling, of [x]. *)
Definition is_floor (x : Q) (k : Z) : Prop :=
  (inject_Z k <= x)%Q /\ (x < inject_Z (k + 1))%Q.

Definition is_ceil (x : Q) (k : Z) : Prop :=
  (inject_Z (k - 1) < x)%Q /\ (x <= inject_Z k)%Q.

Record t : Type := mk {
  startIndex : Z;
  endIndex : Z;
  offsetTop : Z;
  totalContentHeight : Z
}.

(** [w] is the window of [totalRowCount] rows at [scrollOffset] in a
    container of [containerHeight]. *)
Definition computeWindow (totalRowCount : Z) (scrollOffset containerHeight : Q)
    (rowHeight bufferCount : Z) (w : t) : Prop :=
  exists f c : Z,
    is_floor (scrollOffset / inject_Z rowHeight) f
    /\ is_ceil ((scrollOffset + containerHeight) / inject_Z rowHeight) c
    /\ startIndex w = Z.max 0 (f - bufferCount)
    /\ endIndex w = Z.min totalRowCount (c + bufferCount)
    /\ offsetTop w = startIndex w * rowHeight
    /\ totalContentHeight w = totalRowCount * rowHeight.

End WindowSpec.

(** ** The viewport window on numbers

    The scroll offset and the container height are numbers, and the source
    adds and divides them as such: the sum and the quotients are rounded to
    the nearest number before the floor and the ceiling are taken. *)

Module Binary64.

(** The number of binary digits of a mantissa. *)
Definition digits (p : positive) : Z := Zpos (digits2_pos p).

(** The number that is the integer [n], for [n] below [2^53] in magnitude:
    its mantissa is [n] shifted to 53 digits. *)
Definition integer (n : Z) : spec_float :=
  match n with
  | Z0 => S754_zero false
  | Zpos p =>
      S754_finite false (Pos.shiftl p (Z.to_N (53 - digits p))) (digits p - 53)
  | Zneg p =>
      S754_finite true (Pos.shiftl p (Z.to_N (53 - digits p))) (digits p - 53)
  end.

(** The exact value of a finite number. *)
Definition value (x : JS.number) : option Q :=
  match Prim2SF x with
  | S754_zero _ => Some 0%Q
  | S754_finite s m e =>
      Some (if e <? 0
            then Qmake (cond_Zopp s (Zpos m)) (Pos.shiftl 1 (Z.to_N (- e)))
            else inject_Z (cond_Zopp s (Zpos m) * 2 ^ e))
  | S754_infinity _ | S754_nan => None
  end.

(** A quantity below [2^46] in magnitude. *)
Definition small (q : Q) : Prop :=
  (inject_Z (- 2 ^ 46) < q)%Q /\ (q < inject_Z (2 ^ 46))%Q.

Definition is_neg_zero (x : JS.number) : bool :=
  match Prim2SF x with S754_zero true => true | _ => false end.

Definition is_pos_zero (x : JS.number) : bool :=
  match Prim2SF x with S754_zero false => true | _ => false end.

(** [Math.floor(x)]: a number with a fraction has a negative exponent. *)
Definition Math_floor (x : JS.number) : JS.number :=
  match Prim2SF x with
  | S754_finite s m e =>
      if e <? 0 then JS.of_Z (cond_Zopp s (Zpos m) / 2 ^ (- e)) else x
  | _ => x
  end.

(** [Math.ceil(x)]; the ceiling of a number between -1 and 0 is the
    negative zero. *)
Definition Math_ceil (x : JS.number) : JS.number :=
  match Prim2SF x with
  | S754_finite s m e =>
      if e <? 0 then
        let n := - (- cond_Zopp s (Zpos m) / 2 ^ (- e)) in
        if n =? 0 then PrimFloat.neg_zero else JS.of_Z n
      else x
  | _ => x
  end.

(** [Math.max(a, b)] and [Math.min(a, b)]: NaN if an argument is; the
    positive zero is above the negative one. *)
Definition Math_max (a b : JS.number) : JS.number :=
  if JS.isNaN a || JS.isNaN b then JS.NaN
  else if PrimFloat.ltb a b then b
  else if is_pos_zero b && is_neg_zero a then b
  else a.

Definition Math_min (a b : JS.number) : JS.number :=
  if JS.isNaN a || JS.isNaN b then JS.NaN
  else if PrimFloat.ltb b a then b
  else if is_neg_zero b && is_pos_zero a then b
  else a.

End Binary64.

(** The body of the [visibleRows] memo, on the numbers it computes with;
    [totalCount] is [processedRows.length]. *)
Module Viewport.

Definition startIndex (scrollTop : JS.number) : JS.number :=
  Binary64.Math_max PrimFloat.zero
    (Binary64.Math_floor (scrollTop / JS.of_Z ROW_HEIGHT)
     - JS.of_Z BUFFER_COUNT)%float.

Definition endIndex (totalCount scrollTop tableContainerHeight : JS.number)
  : JS.number :=
  Binary64.Math_min totalCount
    (Binary64.Math_ceil ((scrollTop + tableContainerHeight)
                         / JS.of_Z ROW_HEIGHT)
     + JS.of_Z BUFFER_COUNT)%float.

Definition offsetTop (scrollTop : JS.number) : JS.number :=
  (startIndex scrollTop * JS.of_Z ROW_HEIGHT)%float.

Definition totalContentHeight (totalCount : JS.number) : JS.number :=
  (totalCount * JS.of_Z ROW_HEIGHT)%float.

End Viewport.

(** ** States to evaluate the engine on *)

Module Fixture.

(** No collation is consulted when no sort is active; this one orders
    nothing. *)
Definition noCollation (_ _ : string) : JS.number := PrimFloat.zero.

Definition noSort : SortConfig.t := SortConfig.mk "" None.

(** The Data Explorer on one dataset, [d1], of columns [cols] and rows
    [rows]. *)
Definition explorer (cols : list string) (rows : list JS.object)
    (filters : list ActiveFilter.t) (query : string) (cfg : SortConfig.t)
    (scroll height : Q) : AppState :=
  {| datasets := [Dataset.mk "d1" "d1.csv" cols rows "Dataset" None];
     activeDatasetId := Some "d1";
     view := View.data;
     notification := None;
     cleaningSuggestions := [];
     activeFilters := filters;
     searchQuery := query;
     sortConfig := cfg;
     columnOrder := cols;
     editingCell := None;
     draggedColumn := None;
     scrollTop := scroll;
     tableContainerHeight := height |}.

(** [n] rows [{a: 0}], [{a: 1}], ... *)
Definition numbered (n : nat) : list JS.object :=
  map (fun i => [("a", JS.VNum (JS.of_Z (Z.of_nat i)))]) (seq 0 n).

(** A thousand rows, scrolled to 1300 in a container of 650. *)
Definition thousand : AppState :=
  explorer ["a"] (numbered 1000) [] "" noSort (1300 # 1) (650 # 1).


(** The rows sorted by [a], ascending. *)
Definition sortedByA : AppState :=
  explorer ["a"] (numbered 3) [] "" (SortConfig.mk "a" (Some asc))
           (0 # 1) (650 # 1).

(** Two rows as a delimited file with the cells [Infinity] and [-Infinity]
    gives them. *)
Definition infinities : list JS.object :=
  [[("a", JS.VNum JS.posInfinity)]; [("a", JS.VNum JS.negInfinity)]].

(** Two rows under the filter [a > 1]: the one row shown is the second of
    the Row Store. *)
Definition filtered : AppState :=
  explorer ["a"]
           [[("a", JS.VNum 1%float)]; [("a", JS.VNum 2%float)]]
           [ActiveFilter.mk "f1" "a" "gt" (JS.VNum 1%float) JS.VUndefined]
           "" noSort (0 # 1) (650 # 1).

(** One row twice, its columns listed in two orders. *)
Definition reordered : list JS.object :=
  [[("a", JS.VNum 1%float); ("b", JS.VNum 2%float)];
   [("b", JS.VNum 2%float); ("a", JS.VNum 1%float)]].

(** The same two rows with no filter, search or sort. *)
Definition unfiltered : AppState :=
  explorer ["a"]
           [[("a", JS.VNum 1%float)]; [("a", JS.VNum 2%float)]]
           [] "" noSort (0 # 1) (650 # 1).

(** Three columns in their canonical order. *)
Definition threeColumns : AppState :=
  explorer ["a"; "b"; "c"] [] [] "" noSort (0 # 1) (650 # 1).

(** Nothing stored. *)
Definition emptyStorage : Storage := fun _ => None.

(** A dataset list cut short while it was written. *)
Definition corruptStorage : Storage :=
  fun key => if String.eqb key "datasets" then Some "[{" else None.

(** A stored theme that is none of the two themes. *)
Definition oddThemeStorage : Storage :=
  fun key => if String.eqb key "theme" then Some "blue" else None.

End Fixture.

(** The window the component computes. *)
Definition window_of (localeCompare : string -> string -> JS.number)
    (st : AppState) : WindowSpec.t :=
  WindowSpec.mk (startIndex st) (endIndex localeCompare st) (offsetTop st)
                (totalContentHeight localeCompare st).

(** ** Tactics *)

(** The case of one operator tag. *)
Ltac op_case f tag :=
  destruct (String.eqb_spec (ActiveFilter.operator f) tag).


(** ** Inherited properties

    A row and the table of statistics are plain objects: the read of a key
    that the object does not own goes on to [Object.prototype].  [JS.get]
    reads own properties and gives [undefined] for every other key, which is
    what the source reads unless the key is one of the names below; for
    these it reads a function, and for [__proto__] the prototype itself.
    The statements that describe the cells of a column take the column to be
    none of these names. *)

Definition Object_prototype : list string :=
  ["constructor"; "__defineGetter__"; "__defineSetter__"; "hasOwnProperty";
   "__lookupGetter__"; "__lookupSetter__"; "isPrototypeOf";
   "propertyIsEnumerable"; "toString"; "valueOf"; "__proto__";
   "toLocaleString"].

Definition inherited (k : string) : bool :=
  existsb (String.eqb k) Object_prototype.

(** ** Further statements about the engine *)

(** [l] is [m] with some of its elements left out, the others in their
    order. *)
Inductive Subseq {A : Type} : list A -> list A -> Prop :=
  | subseq_nil : Subseq [] []
  | subseq_skip (x : A) (l m : list A) : Subseq l m -> Subseq l (x :: m)
  | subseq_keep (x : A) (l m : list A) : Subseq l m -> Subseq (x :: l) (x :: m).

(** The search text occurs in some cell of the row, whatever the case. *)
Definition SearchHit (query : string) (row : JS.object) : Prop :=
  exists val : JS.value,
    In val (JS.Object_values row)
    /\ Spec.Substring (JS.toLowerCase query)
                      (JS.toLowerCase (JS.ToString val)).

(** ** The resize gesture of [src/App.tsx]

    Pointer positions and widths are rationals, as the scroll offset is.
    The update that a move queues reads [resizeRef] when it runs; it is
    taken to run before the next event is handled. *)

Module Resize.

(** [resizeRef.current]: the column being resized, the pointer position and
    the width at the start. *)
Record Session : Type := {
  col : string;
  startX : Q;
  startWidth : Q
}.

(** The state the gesture reads and writes: [columnWidths] and the ref. *)
Record State : Type := {
  columnWidths : list (string * Q);
  resizeRef : option Session
}.

(** [widths[c]]. *)
Fixpoint lookup (widths : list (string * Q)) (c : string) : option Q :=
  match widths with
  | [] => None
  | (k, w) :: widths' => if String.eqb k c then Some w else lookup widths' c
  end.

(** [widths[c] || 150], for a column [c] that has an entry or is no name
    of [Object.prototype] (for such a name without an entry the source
    reads a function, and the gesture stores NaN). *)
Definition widthOf (widths : list (string * Q)) (c : string) : Q :=
  match lookup widths c with
  | Some w => if Qeq_bool w 0 then 150 else w
  | None => 150
  end.

(** [{ ...widths, [c]: w }]. *)
Fixpoint setWidth (widths : list (string * Q)) (c : string) (w : Q)
  : list (string * Q) :=
  match widths with
  | [] => [(c, w)]
  | (k, w') :: widths' =>
      if String.eqb k c then (k, w) :: widths'
      else (k, w') :: setWidth widths' c w
  end.

(** [Math.max(a, b)] on pixel quantities. *)
Definition Math_max (a b : Q) : Q := if Qle_bool a b then b else a.

Definition handleResizeStart (pageX : Q) (c : string) (st : State) : State :=
  {| columnWidths := columnWidths st;
     resizeRef :=
       Some {| col := c;
               startX := pageX;
               startWidth := widthOf (columnWidths st) c |} |}.

Definition handleResizeMove (pageX : Q) (st : State) : State :=
  match resizeRef st with
  | None => st
  | Some r =>
      let diff := (pageX - startX r)%Q in
      let newWidth := Math_max 80 (startWidth r + diff)%Q in
      {| columnWidths := setWidth (columnWidths st) (col r) newWidth;
         resizeRef := resizeRef st |}
  end.

Definition handleResizeEnd (st : State) : State :=
  {| columnWidths := columnWidths st; resizeRef := None |}.

(** The mouse events of the gesture. *)
Inductive Event : Type :=
  | mousedown (pageX : Q) (c : string)
  | mousemove (pageX : Q)
  | mouseup.

Definition handle (st : State) (ev : Event) : State :=
  match ev with
  | mousedown x c => handleResizeStart x c st
  | mousemove x => handleResizeMove x st
  | mouseup => handleResizeEnd st
  end.

Definition run (evs : list Event) (st : State) : State :=
  fold_left handle evs st.

(** The layout before any gesture. *)
Definition initial : State := {| columnWidths := []; resizeRef := None |}.

End Resize.

(** ** Further handlers of [src/App.tsx] *)

(** [handleColumnDragStart]: the dragged column is marked; the drag carries
    its name, which the drop reads back. *)
Definition handleColumnDragStart (col : string) (st : AppState) : AppState :=
  setDraggedColumn (Some col) st.

(** The cell of column [col] in the row at position [i] of [rows], if there
    is such a row. *)
Definition cellAt (rows : list JS.object) (i : Z) (col : string)
  : option JS.value :=
  option_map (fun row => JS.get row col) (JS.Array_get rows i).

(** What a committed edit stores: a number where a number was, the raw
    input otherwise. *)
Definition typedValue (originalValue value : JS.value) : JS.value :=
  if JS.is_number originalValue then JS.VNum (JS.ToNumber value) else value.

(** What the type conversion makes of a cell. *)
Definition convertedValue (val : JS.value) : JS.value :=
  if negb (JS.isNaN (JS.ToNumber val)) && negb (JS.strict_eq val (JS.VStr ""))
  then JS.VNum (JS.ToNumber val) else val.

(** What the normalization makes of a cell. *)
Definition normalizedValue (val : JS.value) : JS.value :=
  match val with
  | JS.VStr s => JS.VStr (JS.trim s)
  | v => v
  end.

(** ** The order a comparator gives *)

(** [a] goes after [b]: the comparator is positive on them. *)
Definition goesAfter {A : Type} (compare : A -> A -> JS.number) (a b : A)
  : bool :=
  PrimFloat.ltb PrimFloat.zero (compare a b).

(** Neither of [a] and [b] goes after the other. *)
Definition tied {A : Type} (compare : A -> A -> JS.number) (a b : A) : bool :=
  negb (goesAfter compare a b) && negb (goesAfter compare b a).

(** The comparator is consistent on the elements of [l]: no two of them go
    after each other, and if [x] goes after [z] then [x] goes after [y] or
    [y] goes after [z]. *)
Definition consistentOn {A : Type} (compare : A -> A -> JS.number)
    (l : list A) : bool :=
  forallb (fun x =>
    forallb (fun y =>
      (negb (goesAfter compare x y) || negb (goesAfter compare y x))
      && forallb (fun z =>
           goesAfter compare x y || goesAfter compare y z
           || negb (goesAfter compare x z)) l) l) l.

(** Byte order as a collation: the sign of the first difference. *)
Fixpoint byteCompare (s t : string) : JS.number :=
  match s, t with
  | EmptyString, EmptyString => PrimFloat.zero
  | EmptyString, String _ _ => (-1)%float
  | String _ _, EmptyString => 1%float
  | String a s', String b t' =>
      if JS.code a <? JS.code b then (-1)%float
      else if JS.code b <? JS.code a then 1%float
      else byteCompare s' t'
  end.

(** ** The theme and its persistence *)

(** [localStorage.setItem(key, text)]. *)
Definition setItem (storage : Storage) (key text : string) : Storage :=
  fun k => if String.eqb k key then Some text else storage k.

(** The string a theme is. *)
Definition themeText (t : Theme) : string :=
  match t with light => "light" | dark => "dark" end.

Definition toggleTheme (t : Theme) : Theme :=
  match t with light => dark | dark => light end.

(** The effect on [theme]: the theme is written under the key [theme]. *)
Definition persistTheme (t : Theme) (storage : Storage) : Storage :=
  setItem storage "theme" (themeText t).

(** ** The column statistics of [src/App.tsx] *)

Module Stats.

(** [Record<string, ColumnStats>], in property order. *)
Definition table := list (string * ColumnStats.t).

Fixpoint lookup (o : table) (k : string) : option ColumnStats.t :=
  match o with
  | [] => None
  | (k', v) :: o' => if String.eqb k' k then Some v else lookup o' k
  end.

Fixpoint add (o : table) (k : string) (v : ColumnStats.t) : table :=
  match o with
  | [] => [(k, v)]
  | (k', v') :: o' =>
      match JS.array_index k, JS.array_index k' with
      | Some i, Some j =>
          if i <? j then (k, v) :: o else (k', v') :: add o' k v
      | Some _, None => (k, v) :: o
      | None, _ => (k', v') :: add o' k v
      end
  end.

Fixpoint replace (o : table) (k : string) (v : ColumnStats.t) : table :=
  match o with
  | [] => []
  | (k', v') :: o' =>
      if String.eqb k' k then (k', v) :: o' else (k', v') :: replace o' k v
  end.

(** The object [results]: its own properties and, once the key [__proto__]
    was assigned, the statistics that became its prototype. *)
Record results : Type := {
  own : table;
  proto : option ColumnStats.t
}.

(** [{}]. *)
Definition empty : results := {| own := []; proto := None |}.

(** [results[k] = v].  The key [__proto__] reaches the setter that
    [Object.prototype] has for it: [v] becomes the prototype of [results]
    and no property is added. *)
Definition assign (r : results) (k : string) (v : ColumnStats.t) : results :=
  if String.eqb k "__proto__" then {| own := own r; proto := Some v |}
  else
    {| own := match lookup (own r) k with
              | Some _ => replace (own r) k v
              | None => add (own r) k v
              end;
       proto := proto r |}.

(** The property [k] of a statistics object. *)
Definition field (s : ColumnStats.t) (k : string) : option JS.number :=
  if String.eqb k "min" then Some (ColumnStats.min s)
  else if String.eqb k "max" then Some (ColumnStats.max s)
  else if String.eqb k "avg" then Some (ColumnStats.avg s)
  else if String.eqb k "sum" then Some (ColumnStats.sum s)
  else if String.eqb k "count" then Some (ColumnStats.count s)
  else None.

(** A number as a condition: false for the zeros and NaN. *)
Definition truthy (x : JS.number) : bool :=
  negb (JS.isNaN x || PrimFloat.eqb x PrimFloat.zero).

(** [results[k]] as a condition: an own property is an object; [__proto__]
    reads the prototype, an object; a key that the prototype owns reads its
    number; a name of [Object.prototype] reads a function; any other key
    reads [undefined]. *)
Definition holds (r : results) (k : string) : bool :=
  match lookup (own r) k with
  | Some _ => true
  | None =>
      match proto r with
      | Some s =>
          match field s k with
          | Some x => truthy x
          | None => inherited k
          end
      | None => inherited k
      end
  end.

(** [rows.map(r => r[col]).filter(v => typeof v === 'number')]. *)
Fixpoint numbersOf (col : string) (rows : list JS.object) : list JS.number :=
  match rows with
  | [] => []
  | r :: rows' =>
      match JS.get r col with
      | JS.VNum x => x :: numbersOf col rows'
      | _ => numbersOf col rows'
      end
  end.

Definition is_neg_zero (x : JS.number) : bool :=
  match Prim2SF x with S754_zero true => true | _ => false end.

Definition is_pos_zero (x : JS.number) : bool :=
  match Prim2SF x with S754_zero false => true | _ => false end.

(** [Math.min(...values)]: NaN if a value is NaN, else the least value,
    the negative zero being below the positive one. *)
Fixpoint min_from (lowest : JS.number) (values : list JS.number) : JS.number :=
  match values with
  | [] => lowest
  | x :: values' =>
      if JS.isNaN x then JS.NaN
      else if (is_neg_zero x && is_pos_zero lowest) || PrimFloat.ltb x lowest
      then min_from x values'
      else min_from lowest values'
  end.

Definition Math_min (values : list JS.number) : JS.number :=
  min_from JS.posInfinity values.

Fixpoint max_from (highest : JS.number) (values : list JS.number) : JS.number :=
  match values with
  | [] => highest
  | x :: values' =>
      if JS.isNaN x then JS.NaN
      else if (is_pos_zero x && is_neg_zero highest) || PrimFloat.ltb highest x
      then max_from x values'
      else max_from highest values'
  end.

Definition Math_max (values : list JS.number) : JS.number :=
  max_from JS.negInfinity values.

(** [values.reduce((a, b) => a + b, 0)]. *)
Definition total (values : list JS.number) : JS.number :=
  fold_left PrimFloat.add values PrimFloat.zero.

(** The statistics of the numbers of one column. *)
Definition ofValues (values : list JS.number) : ColumnStats.t :=
  let sum := total values in
  let n := JS.of_Z (Z.of_nat (List.length values)) in
  ColumnStats.mk (Math_min values) (Math_max values) (PrimFloat.div sum n)
                 sum n.

(** The body of [columns.forEach]. *)
Definition visit (rows : list JS.object) (r : results) (col : string)
  : results :=
  match numbersOf col rows with
  | [] => r
  | values => assign r col (ofValues values)
  end.

(** [stats]. *)
Definition stats (st : AppState) : results :=
  match activeDataset st with
  | None => empty
  | Some d => fold_left (visit (Dataset.rows d)) (Dataset.columns d) empty
  end.

(** [colType] of the filter builder: the numeric operators are offered for
    a numeric column only. *)
Definition colType (st : AppState) (selectedCol : string) : ColumnType :=
  if holds (stats st) selectedCol then numeric else categorical.

End Stats.

(** ** Sessions, dashboard tiles and the chat of [src/App.tsx] *)

Module KPIMetric.
(** [value]: a string or a number. *)
Record t : Type := mk {
  label : string;
  value : JS.value;
  trend : option JS.number;
  description : option string
}.
End KPIMetric.

Inductive ChartType : Type :=
  | bar | line | scatter | pie | area | radar | boxplot.

Module ChartPoint.
Record t : Type := mk {
  x : JS.value;
  y : JS.number;
  min : option JS.number;
  max : option JS.number;
  q1 : option JS.number;
  q3 : option JS.number;
  median : option JS.number;
  originalRow : option JS.object
}.
End ChartPoint.

Module ChartConfig.
Record t : Type := mk {
  type : ChartType;
  title : string;
  data : list ChartPoint.t;
  xAxisLabel : string;
  yAxisLabel : string;
  color : option string;
  id : option string
}.
End ChartConfig.

Inductive TileType : Type := chart | kpi.

Module DashboardTile.
Record t : Type := mk {
  id : string;
  type : TileType;
  config : option ChartConfig.t;
  kpi : option KPIMetric.t;
  w : JS.number
}.
End DashboardTile.

Inductive Role : Type := user | assistant.

Module ChatMessage.
Record t : Type := mk {
  id : string;
  role : Role;
  content : string;
  chartData : option ChartConfig.t;
  timestamp : JS.number;
  insights : option (list string);
  metrics : option (list KPIMetric.t);
  isError : option bool
}.
End ChatMessage.

Module AnalysisSession.
Record t : Type := mk {
  id : string;
  datasetId : string;
  messages : list ChatMessage.t;
  dashboardTiles : list DashboardTile.t;
  lastUpdated : JS.number
}.
End AnalysisSession.

Inductive AnalysisStatus : Type := IDLE | LOADING | ERROR | SUCCESS.

(** What [analyzeData] resolves to, as [handleSendMessage] reads it. *)
Module AnalysisResult.
Record t : Type := mk {
  textResponse : string;
  suggestedChart : option ChartConfig.t;
  insights : option (list string);
  metrics : option (list KPIMetric.t)
}.
End AnalysisResult.

Module Workspace.

(** The state of [App] beside the grid's: the sessions and the chat. *)
Record t : Type := mk {
  grid : AppState;
  sessions : list AnalysisSession.t;
  activeSessionId : option string;
  input : string;
  status : AnalysisStatus
}.

Definition withGrid (g : AppState) (ws : t) : t :=
  mk g (sessions ws) (activeSessionId ws) (input ws) (status ws).

Definition setSessions (v : list AnalysisSession.t) (ws : t) : t :=
  mk (grid ws) v (activeSessionId ws) (input ws) (status ws).

Definition setInput (v : string) (ws : t) : t :=
  mk (grid ws) (sessions ws) (activeSessionId ws) v (status ws).

Definition setStatus (v : AnalysisStatus) (ws : t) : t :=
  mk (grid ws) (sessions ws) (activeSessionId ws) (input ws) v.

(** [s.id === activeSessionId]. *)
Definition isActive (ws : t) (s : AnalysisSession.t) : bool :=
  match activeSessionId ws with
  | Some a => String.eqb (AnalysisSession.id s) a
  | None => false
  end.

(** [{ ...s, dashboardTiles }] and [{ ...s, messages, dashboardTiles }]. *)
Definition withTiles (s : AnalysisSession.t) (tiles : list DashboardTile.t)
  : AnalysisSession.t :=
  AnalysisSession.mk (AnalysisSession.id s) (AnalysisSession.datasetId s)
                     (AnalysisSession.messages s) tiles
                     (AnalysisSession.lastUpdated s).

Definition withMessages (s : AnalysisSession.t) (msgs : list ChatMessage.t)
  : AnalysisSession.t :=
  AnalysisSession.mk (AnalysisSession.id s) (AnalysisSession.datasetId s)
                     msgs (AnalysisSession.dashboardTiles s)
                     (AnalysisSession.lastUpdated s).

(** [!activeSessionId]. *)
Definition noActiveSession (ws : t) : bool :=
  match activeSessionId ws with
  | Some a => String.eqb a ""
  | None => true
  end.

(** [pinToDashboard]; [fresh] is the identifier drawn for the tile. *)
Definition pinToDashboard (fresh : string) (config : ChartConfig.t) (ws : t)
  : t :=
  if noActiveSession ws then ws
  else
    let newTile :=
      DashboardTile.mk fresh chart (Some config) None 2%float in
    withGrid (showToast "Visual pinned to Dashboard!" success (grid ws))
      (setSessions
         (map (fun s =>
                 if isActive ws s
                 then withTiles s (AnalysisSession.dashboardTiles s ++ [newTile])
                 else s)
              (sessions ws))
         ws).

Definition removeTile (tileId : string) (ws : t) : t :=
  setSessions
    (map (fun s =>
            if isActive ws s
            then withTiles s
                   (filter (fun t => negb (String.eqb (DashboardTile.id t) tileId))
                           (AnalysisSession.dashboardTiles s))
            else s)
         (sessions ws))
    ws.

(** The tiles pushed for the metrics of a reply; [fresh k] is the
    identifier drawn for the [k]-th of them. *)
Fixpoint kpiTiles (fresh : nat -> string) (k : nat) (ms : list KPIMetric.t)
  : list DashboardTile.t :=
  match ms with
  | [] => []
  | m :: ms' =>
      DashboardTile.mk (fresh k) kpi None (Some m) 1%float
      :: kpiTiles fresh (S k) ms'
  end.

(** The session after a reply: the updater of [handleSendMessage] on the
    session the message was sent from. *)
Definition receive (fresh : nat -> string) (result : AnalysisResult.t)
    (newAssistantMsg : ChatMessage.t) (s : AnalysisSession.t)
  : AnalysisSession.t :=
  let newTiles :=
    match AnalysisResult.metrics result with
    | Some ms =>
        if (List.length (AnalysisSession.dashboardTiles s) <? 4)%nat
        then (AnalysisSession.dashboardTiles s ++ kpiTiles fresh 0 ms)%list
        else AnalysisSession.dashboardTiles s
    | None => AnalysisSession.dashboardTiles s
    end in
  AnalysisSession.mk (AnalysisSession.id s) (AnalysisSession.datasetId s)
                     (AnalysisSession.messages s ++ [newAssistantMsg])%list
                     newTiles (AnalysisSession.lastUpdated s).

(** What [analyzeData] is called with. *)
Record Request : Type := {
  summary : string;
  question : string;
  sample : list JS.object
}.

(** The first part of [handleSendMessage], up to the call of the service:
    nothing when the guard returns, else the state and the request.  [now]
    and [now'] are the two readings of the clock. *)
Definition handleSendMessage (now now' : JS.number) (ws : t)
  : option (t * Request) :=
  match activeDataset (grid ws) with
  | None => None
  | Some d =>
      if String.eqb (JS.trim (input ws)) "" || noActiveSession ws then None
      else
        let userMsg :=
          ChatMessage.mk (JS.NumberToString now) user (input ws) None now'
                         None None None in
        Some (setStatus LOADING
                (setInput ""
                   (setSessions
                      (map (fun s =>
                              if isActive ws s
                              then withMessages s
                                     (AnalysisSession.messages s ++ [userMsg])
                              else s)
                           (sessions ws))
                      ws)),
              {| summary := Dataset.summary d;
                 question := input ws;
                 sample := JS.Array_slice (Dataset.rows d) 0 15 |})
  end.

(** The service resolved: [origin] is the state the message was sent from,
    whose active session the handler still refers to. *)
Definition resolved (origin : t) (fresh : nat -> string) (now now' : JS.number)
    (result : AnalysisResult.t) (ws : t) : t :=
  let newAssistantMsg :=
    ChatMessage.mk (JS.NumberToString now) assistant
                   (AnalysisResult.textResponse result)
                   (AnalysisResult.suggestedChart result) now'
                   (AnalysisResult.insights result)
                   (AnalysisResult.metrics result) None in
  setStatus SUCCESS
    (setSessions
       (map (fun s =>
               if isActive origin s then receive fresh result newAssistantMsg s
               else s)
            (sessions ws))
       ws).

(** The service failed with the message [msg]. *)
Definition rejected (msg : string) (ws : t) : t :=
  withGrid (showToast msg error (grid ws)) (setStatus ERROR ws).

End Workspace.

Module Fixture2.

Definition chartOfA : ChartConfig.t :=
  ChartConfig.mk bar "a" [] "row" "a" None None.

Definition tile (i : string) : DashboardTile.t :=
  DashboardTile.mk i chart (Some chartOfA) None 2%float.

Definition metric (l : string) : KPIMetric.t :=
  KPIMetric.mk l (JS.VNum 1%float) None None.

(** Two sessions; the active one has three tiles. *)
Definition workspace : Workspace.t :=
  Workspace.mk Fixture.unfiltered
    [AnalysisSession.mk "s1" "d1" [] [tile "t1"; tile "t2"; tile "t3"] 0%float;
     AnalysisSession.mk "s2" "d1" [] [tile "t1"] 0%float]
    (Some "s1") "total of a" IDLE.

Definition reply : AnalysisResult.t :=
  AnalysisResult.mk "done" None None
                    (Some [metric "m1"; metric "m2"; metric "m3"]).

Definition ids (k : nat) : string :=
  match k with O => "k0" | S O => "k1" | _ => "k2" end.

End Fixture2.

(** * Theorems *)

(** ** Facts about the host *)

Section NumberFacts.

Lemma SFeqb_refl (s : spec_float) : s <> S754_nan -> SFeqb s s = true.
Proof.
  destruct s as [b | b | | b m e]; intros H; try congruence.
  - reflexivity.
  - destruct b; reflexivity.
  - unfold SFeqb, SFcompare.
    rewrite Z.compare_refl.
    change (Pos.compare_cont Eq m m) with (Pos.compare m m).
    rewrite Pos.compare_refl. destruct b; reflexivity.
Qed.

Lemma isNaN_false_iff (x : JS.number) :
  JS.isNaN x = false <-> Prim2SF x <> S754_nan.
Proof.
  unfold JS.isNaN. rewrite eqb_spec. split.
  - intros H E. rewrite E in H. discriminate.
  - intros H. rewrite SFeqb_refl by assumption. reflexivity.
Qed.

Lemma SFcompare_not_nan (a b : spec_float) (c : comparison) :
  SFcompare a b = Some c -> a <> S754_nan /\ b <> S754_nan.
Proof.
  destruct a, b; simpl; intros H; split; congruence.
Qed.

(** A comparison that holds has no NaN operand. *)
Lemma ltb_not_NaN (x y : JS.number) :
  PrimFloat.ltb x y = true -> JS.isNaN x = false /\ JS.isNaN y = false.
Proof.
  rewrite ltb_spec. unfold SFltb.
  destruct (SFcompare (Prim2SF x) (Prim2SF y)) as [c |] eqn:E; try discriminate.
  intros _. apply SFcompare_not_nan in E.
  rewrite !isNaN_false_iff. exact E.
Qed.

Lemma leb_not_NaN (x y : JS.number) :
  PrimFloat.leb x y = true -> JS.isNaN x = false /\ JS.isNaN y = false.
Proof.
  rewrite leb_spec. unfold SFleb.
  destruct (SFcompare (Prim2SF x) (Prim2SF y)) as [c |] eqn:E; try discriminate.
  intros _. apply SFcompare_not_nan in E.
  rewrite !isNaN_false_iff. exact E.
Qed.

End NumberFacts.

Section StringFacts.

Lemma starts_with_prefix (p s : string) :
  JS.starts_with p s = true <-> exists post, s = p ++ post.
Proof.
  revert s. induction p as [| a p IH]; intros s; simpl.
  - split; [intros _; exists s; reflexivity | reflexivity].
  - destruct s as [| b s].
    + split; [discriminate | intros [post H]; discriminate].
    + rewrite andb_true_iff, Ascii.eqb_eq, IH. split.
      * intros [-> [post ->]]. exists post. reflexivity.
      * intros [post H]. injection H as -> ->. split; [reflexivity | eauto].
Qed.

(** [includes] decides the occurrence of a substring. *)
Lemma includes_substring (s q : string) :
  JS.includes s q = true <-> exists pre post, s = pre ++ q ++ post.
Proof.
  induction s as [| c s IH]; simpl.
  - rewrite orb_false_r, starts_with_prefix. split.
    + intros [post H]. exists "", post. exact H.
    + intros [pre [post H]]. destruct pre as [| a pre]; [| discriminate].
      exists post. exact H.
  - rewrite orb_true_iff, starts_with_prefix, IH. split.
    + intros [[post H] | [pre [post H]]].
      * exists "", post. exact H.
      * exists (String c pre), post. simpl. rewrite H. reflexivity.
    + intros [pre [post H]]. destruct pre as [| a pre].
      * left. exists post. exact H.
      * right. simpl in H. injection H as -> H. exists pre, post. exact H.
Qed.

End StringFacts.

(** ** Worked examples of the conversions *)

Section Conversions.

Example number_of_integer_text : JS.StringToNumber "1" = 1%float.
Proof. vm_compute. reflexivity. Qed.

Example number_of_padded_exponent_text :
  JS.StringToNumber " -3.25e2 " = (-325)%float.
Proof. vm_compute. reflexivity. Qed.

Example number_of_hex_text : JS.StringToNumber "0x1F" = 31%float.
Proof. vm_compute. reflexivity. Qed.

Example number_of_empty_text : JS.StringToNumber "" = 0%float.
Proof. vm_compute. reflexivity. Qed.

Example number_of_word_is_NaN : JS.isNaN (JS.StringToNumber "abc") = true.
Proof. vm_compute. reflexivity. Qed.

Example number_of_large_text : JS.StringToNumber "1e400" = JS.posInfinity.
Proof. vm_compute. reflexivity. Qed.

Example number_of_undefined_is_NaN : JS.isNaN (JS.ToNumber JS.VUndefined) = true.
Proof. vm_compute. reflexivity. Qed.

Example text_of_integer : JS.NumberToString 65%float = "65".
Proof. vm_compute. reflexivity. Qed.

Example text_of_fraction : JS.NumberToString 0.5%float = "0.5".
Proof. vm_compute. reflexivity. Qed.

Example text_of_tenth : JS.NumberToString (JS.StringToNumber "0.1") = "0.1".
Proof. vm_compute. reflexivity. Qed.

Example text_of_tenth_plus_fifth :
  JS.NumberToString (JS.StringToNumber "0.1" + JS.StringToNumber "0.2")%float
  = "0.30000000000000004".
Proof. vm_compute. reflexivity. Qed.

Example text_of_large : JS.NumberToString (JS.StringToNumber "1e21") = "1e+21".
Proof. vm_compute. reflexivity. Qed.

Example text_of_long_integer :
  JS.NumberToString (JS.StringToNumber "123456789012345678901")
  = "123456789012345680000".
Proof. vm_compute. reflexivity. Qed.

Example text_of_small : JS.NumberToString (JS.StringToNumber "0.0000001") = "1e-7".
Proof. vm_compute. reflexivity. Qed.

Example text_of_NaN : JS.NumberToString JS.NaN = "NaN".
Proof. vm_compute. reflexivity. Qed.

Example parse_empty_array : JS.JSON_parse " [ ] " = JS.Normal (JS.JArray []).
Proof. vm_compute. reflexivity. Qed.

Example parse_nested :
  JS.JSON_parse "[1, [true, null], {}]"
  = JS.Normal (JS.JArray [JS.JNumber 1%float;
                          JS.JArray [JS.JBool true; JS.JNull];
                          JS.JObject []]).
Proof. vm_compute. reflexivity. Qed.

Example parse_trailing_comma : JS.JSON_parse "[1,]" = JS.Throw JS.SyntaxError.
Proof. vm_compute. reflexivity. Qed.

Example parse_undefined : JS.JSON_parse "undefined" = JS.Throw JS.SyntaxError.
Proof. vm_compute. reflexivity. Qed.

(** The text [[{] is no JSON value however far the parser may go. *)
Lemma cut_short_is_no_json (fuel : nat) :
  JS.parse_value fuel (list_ascii_of_string "[{") = None.
Proof.
  destruct fuel as [| [| [| fuel]]]; reflexivity.
Qed.

Example NaN_and_null_share_a_text :
  JS.JSON_stringify [("a", JS.VNum JS.NaN)] = JS.JSON_stringify [("a", JS.VNull)].
Proof. vm_compute. reflexivity. Qed.

Example undefined_property_has_no_text :
  JS.JSON_stringify [("a", JS.VStr "x"); ("b", JS.VUndefined)]
  = JS.JSON_stringify [("a", JS.VStr "x")].
Proof. vm_compute. reflexivity. Qed.

Example index_keys_come_first :
  JS.set_prop [("0", JS.VNull); ("2", JS.VNull); ("a", JS.VNull)] "1" JS.VNull
  = [("0", JS.VNull); ("1", JS.VNull); ("2", JS.VNull); ("a", JS.VNull)].
Proof. vm_compute. reflexivity. Qed.

End Conversions.

(** ** The filter stage *)

Section FilterStage.

Lemma filterStage_filter (filters : list ActiveFilter.t) (rows : list JS.object) :
  filterStage filters rows
  = filter (fun row => forallb (filterPredicate row) filters) rows.
Proof.
  unfold filterStage. destruct filters as [| f fs]; simpl.
  - symmetry. apply forallb_filter_id. apply forallb_forall. reflexivity.
  - reflexivity.
Qed.

(** The cell relation is the read of the property. *)
Lemma Cell_get (row : JS.object) (k : string) (v : JS.value) :
  Spec.Cell row k v <-> v = JS.get row k.
Proof.
  split.
  - induction 1 as [k | k v o | k k' v v' o Hne _ IH]; cbn [JS.get].
    + reflexivity.
    + now rewrite String.eqb_refl.
    + destruct (String.eqb_spec k' k); [contradiction | exact IH].
  - intros ->. induction row as [| [k' v'] row IH]; cbn [JS.get].
    + constructor.
    + destruct (String.eqb_spec k' k) as [-> | Hne]; now constructor.
Qed.

(** The predicate of the filter stage decides the operator semantics. *)
Lemma filterPredicate_Keeps (row : JS.object) (f : ActiveFilter.t) :
  filterPredicate row f = true <-> Spec.Keeps Spec.any row f.
Proof.
  unfold filterPredicate.
  pose proof (proj2 (Cell_get row (ActiveFilter.column f) _) eq_refl) as Hc.
  split.
  - op_case f "equals".
    { intros H. apply String.eqb_eq in H. now apply Spec.keeps_equals with (1 := e) (2 := Hc). }
    op_case f "contains".
    { intros H. apply includes_substring in H.
      now apply Spec.keeps_contains with (1 := e) (2 := Hc). }
    op_case f "gt".
    { intros H. now apply Spec.keeps_gt with (1 := e) (2 := Hc). }
    op_case f "lt".
    { intros H. now apply Spec.keeps_lt with (1 := e) (2 := Hc). }
    op_case f "between".
    { intros H. apply andb_true_iff in H. destruct H as [H1 H2].
      now apply Spec.keeps_between with (1 := e) (2 := Hc). }
    intros _. apply Spec.keeps_unknown. simpl. intuition congruence.
  - intros [v E Hv H | v E Hv H | v E Hv _ _ H | v E Hv _ _ H
            | v E Hv _ _ _ H1 H2 | H];
      try (apply Cell_get in Hv; subst v); try rewrite E; simpl.
    + now apply String.eqb_eq.
    + now apply includes_substring.
    + exact H.
    + exact H.
    + now rewrite H1, H2.
    + simpl in H.
      op_case f "equals"; [intuition congruence |].
      op_case f "contains"; [intuition congruence |].
      op_case f "gt"; [intuition congruence |].
      op_case f "lt"; [intuition congruence |].
      op_case f "between"; [intuition congruence |].
      reflexivity.
Qed.

(** A comparison with a NaN operand excludes the row. *)
Lemma NaN_operand_excluded (row : JS.object) (f : ActiveFilter.t) :
  In (ActiveFilter.operator f) ["gt"; "lt"; "between"] ->
  JS.isNaN (JS.ToNumber (JS.get row (ActiveFilter.column f))) = true
  \/ JS.isNaN (JS.ToNumber (ActiveFilter.value f)) = true ->
  filterPredicate row f = false.
Proof.
  intros Hop Hnan. apply not_true_is_false. unfold filterPredicate.
  simpl in Hop. destruct Hop as [<- | [<- | [<- | []]]]; simpl; intros H.
  - destruct (ltb_not_NaN _ _ H). destruct Hnan; congruence.
  - destruct (ltb_not_NaN _ _ H). destruct Hnan; congruence.
  - apply andb_true_iff in H. destruct H as [H1 H2].
    destruct (leb_not_NaN _ _ H1). destruct Hnan; congruence.
Qed.

(** A blank text reads as zero. *)
Lemma blank_is_zero (s : string) :
  JS.trim s = "" -> JS.StringToNumber s = PrimFloat.zero.
Proof.
  unfold JS.trim, JS.StringToNumber.
  destruct (JS.trim_list (list_ascii_of_string s)); [reflexivity | discriminate].
Qed.

(** What is not numeric reads as NaN, or as zero when it is [null] or a
    blank text. *)
Lemma not_numeric_reading (v : JS.value) :
  ~ Spec.numeric v ->
  JS.isNaN (JS.ToNumber v) = true
  \/ (JS.ToNumber v = PrimFloat.zero
      /\ (v = JS.VNull \/ exists s, v = JS.VStr s /\ JS.trim s = "")).
Proof.
  destruct v as [| | x | s]; cbn [Spec.numeric JS.ToNumber]; intros H.
  - left. reflexivity.
  - right. split; [reflexivity | now left].
  - left. destruct (JS.isNaN x); [reflexivity | now elim H].
  - destruct (String.eqb_spec (JS.trim s) "") as [E | E].
    + right. split; [now apply blank_is_zero | right; eauto].
    + left. destruct (JS.isNaN (JS.StringToNumber s)); [reflexivity |].
      elim H. now split.
Qed.

End FilterStage.

(** C4, as amended.  For every row and every active filter on a column
    that is no name of [Object.prototype], the filter stage keeps the row
    exactly when the operator's condition holds of the cell: equal string
    forms for [equals]; the lower-cased bound occurring in the lower-cased
    cell for [contains]; the numeric forms strictly greater or less for
    [gt] and [lt]; the numeric cell within the inclusive range for
    [between]; and always for a tag that is none of the five.  A cell or a
    bound whose numeric form is NaN excludes the row under [gt], [lt] and
    [between]; what is not numeric has the numeric form NaN, or zero when
    it is [null] or a blank text, and is then compared as zero. *)
Theorem filter_stage_operator_semantics :
  forall (f : ActiveFilter.t) (rows : list JS.object) (row : JS.object),
    inherited (ActiveFilter.column f) = false ->
    (In row (filterStage [f] rows) <-> In row rows /\ Spec.Keeps Spec.any row f)
    /\ (forall v,
          Spec.Cell row (ActiveFilter.column f) v ->
          In (ActiveFilter.operator f) ["gt"; "lt"; "between"] ->
          JS.isNaN (JS.ToNumber v) = true
          \/ JS.isNaN (JS.ToNumber (ActiveFilter.value f)) = true
          \/ (ActiveFilter.operator f = "between"
              /\ JS.isNaN (JS.ToNumber (ActiveFilter.valueEnd f)) = true) ->
          ~ In row (filterStage [f] rows))
    /\ (forall v,
          ~ Spec.numeric v ->
          JS.isNaN (JS.ToNumber v) = true
          \/ (JS.ToNumber v = PrimFloat.zero
              /\ (v = JS.VNull \/ exists s, v = JS.VStr s /\ JS.trim s = "")))
    /\ (forall v, Spec.numeric v -> JS.isNaN (JS.ToNumber v) = false).
Proof.
  intros f rows row _. split; [| split; [| split]].
  - rewrite filterStage_filter, filter_In. simpl.
    rewrite andb_true_r, filterPredicate_Keeps. reflexivity.
  - intros v Hv Hop Hnan Hin. apply Cell_get in Hv. subst v.
    rewrite filterStage_filter, filter_In in Hin. simpl in Hin.
    rewrite andb_true_r in Hin. destruct Hin as [_ Hin].
    destruct Hnan as [Hnan | [Hnan | [E Hnan]]].
    + rewrite NaN_operand_excluded in Hin; [discriminate | assumption | now left].
    + rewrite NaN_operand_excluded in Hin; [discriminate | assumption | now right].
    + unfold filterPredicate in Hin. rewrite E in Hin. simpl in Hin.
      apply andb_true_iff in Hin. destruct Hin as [_ H2].
      destruct (leb_not_NaN _ _ H2). congruence.
  - exact not_numeric_reading.
  - intros [| | x | s]; cbn [Spec.numeric JS.ToNumber]; tauto.
Qed.

(** The filter [a < 5] on a row whose cell is the text 3 and on a row whose
    cell is a word. *)
Lemma filter_stage_operator_semantics_witness :
  let f := ActiveFilter.mk "f" "a" "lt" (JS.VNum 5%float) JS.VUndefined in
  inherited (ActiveFilter.column f) = false
  /\ In [("a", JS.VStr "3")] (filterStage [f] [[("a", JS.VStr "3")]])
  /\ ~ In [("a", JS.VStr "x")] (filterStage [f] [[("a", JS.VStr "x")]]).
Proof.
  cbn zeta.
  set (f := ActiveFilter.mk "f" "a" "lt" (JS.VNum 5%float) JS.VUndefined).
  assert (inherited (ActiveFilter.column f) = false) as Hi by reflexivity.
  split; [exact Hi |]. split.
  - apply (proj1 (filter_stage_operator_semantics f [[("a", JS.VStr "3")]]
                    [("a", JS.VStr "3")] Hi)).
    split; [now left |].
    apply Spec.keeps_lt with (v := JS.VStr "3");
      [reflexivity | constructor | exact I | exact I | vm_compute; reflexivity].
  - apply (proj1 (proj2 (filter_stage_operator_semantics f [[("a", JS.VStr "x")]]
                           [("a", JS.VStr "x")] Hi)) (JS.VStr "x")).
    + constructor.
    + simpl. tauto.
    + left. vm_compute. reflexivity.
Defined.

(** C4, as stated, fails: neither the empty text nor [null] is numeric, but
    neither has the numeric form NaN; both read as zero, and the rows whose
    cell they are stay under the filter [a < 5]. *)
Lemma filter_stage_counterexample :
  let f := ActiveFilter.mk "f" "a" "lt" (JS.VNum 5%float) JS.VUndefined in
  let rows := [[("a", JS.VStr EmptyString)]; [("a", JS.VNull)]] in
  filterStage [f] rows = rows
  /\ JS.isNaN (JS.ToNumber (JS.VStr EmptyString)) = false
  /\ JS.isNaN (JS.ToNumber JS.VNull) = false
  /\ ~ Spec.Keeps Spec.numeric [("a", JS.VStr EmptyString)] f
  /\ ~ Spec.Keeps Spec.numeric [("a", JS.VNull)] f
  /\ ~ (forall row, In row (filterStage [f] rows)
                     <-> In row rows /\ Spec.Keeps Spec.numeric row f).
Proof.
  cbn zeta.
  set (f := ActiveFilter.mk "f" "a" "lt" (JS.VNum 5%float) JS.VUndefined).
  assert (forall v, ~ Spec.numeric v -> ~ Spec.Keeps Spec.numeric [("a", v)] f)
    as Hno.
  { intros v Hv [w E _ _ | w E _ _ | w E _ _ _ _ | w E Hc Hw _ _
                 | w E _ _ _ _ _ _ | H]; try discriminate E.
    - apply Cell_get in Hc. subst w. exact (Hv Hw).
    - apply H. simpl. tauto. }
  split; [vm_compute; reflexivity |].
  split; [vm_compute; reflexivity |].
  split; [vm_compute; reflexivity |].
  split; [apply Hno; cbn; intros [H _]; now apply H |].
  split; [apply Hno; cbn; tauto |].
  intros H. destruct (proj1 (H [("a", JS.VNull)])) as [_ Hk].
  - vm_compute. tauto.
  - revert Hk. apply Hno. cbn. tauto.
Qed.

(** C6.  Filtering by A then by B is filtering by B then by A, and both are
    filtering once by the two filters together. *)
Theorem filter_conjunction :
  forall (A B : ActiveFilter.t) (rows : list JS.object),
    filterStage [B] (filterStage [A] rows) = filterStage [A] (filterStage [B] rows)
    /\ filterStage [B] (filterStage [A] rows) = filterStage [A; B] rows.
Proof.
  intros A B rows. rewrite !filterStage_filter. simpl.
  induction rows as [| r rows [IH1 IH2]]; simpl; [split; reflexivity |].
  destruct (filterPredicate r A) eqn:EA, (filterPredicate r B) eqn:EB; simpl;
    rewrite ?EA, ?EB; simpl; split; congruence.
Qed.

(** ** The viewport window *)

Section Window.

Variable localeCompare : string -> string -> JS.number.


Lemma floor_is_floor (x : Q) : WindowSpec.is_floor x (JS.Math_floor x).
Proof. split; [apply Qfloor_le | apply Qlt_floor]. Qed.

Lemma ceil_is_ceil (x : Q) : WindowSpec.is_ceil x (JS.Math_ceil x).
Proof. split; [apply Qceiling_lt | apply Qle_ceiling]. Qed.

(** The floor and the ceiling are the only integers in their place. *)
Lemma is_floor_unique (x : Q) (k : Z) :
  WindowSpec.is_floor x k -> k = JS.Math_floor x.
Proof.
  intros [H1 H2]. unfold JS.Math_floor.
  pose proof (Qfloor_le x) as F1. pose proof (Qlt_floor x) as F2.
  assert (inject_Z k < inject_Z (Qfloor x + 1))%Q as A
    by (eapply Qle_lt_trans; eassumption).
  assert (inject_Z (Qfloor x) < inject_Z (k + 1))%Q as B
    by (eapply Qle_lt_trans; eassumption).
  rewrite <- Zlt_Qlt in A, B. lia.
Qed.

Lemma is_ceil_unique (x : Q) (k : Z) :
  WindowSpec.is_ceil x k -> k = JS.Math_ceil x.
Proof.
  intros [H1 H2]. unfold JS.Math_ceil.
  pose proof (Qceiling_lt x) as F1. pose proof (Qle_ceiling x) as F2.
  assert (inject_Z (k - 1) < inject_Z (Qceiling x))%Q as A
    by (eapply Qlt_le_trans; eassumption).
  assert (inject_Z (Qceiling x - 1) < inject_Z k)%Q as B
    by (eapply Qlt_le_trans; eassumption).
  rewrite <- Zlt_Qlt in A, B. lia.
Qed.





End Window.

(** On exact quantities the window is the one of [computeWindow] at row
    height 65 and buffer 5, and no other. *)
Lemma window_of_exact_quantities :
  forall (localeCompare : string -> string -> JS.number) (st : AppState)
         (w : WindowSpec.t),
    (WindowSpec.computeWindow (totalCount localeCompare st) (scrollTop st)
                              (tableContainerHeight st) 65 5 w
     <-> w = window_of localeCompare st)
    /\ startIndex Fixture.thousand = 15
    /\ endIndex localeCompare Fixture.thousand = 35
    /\ offsetTop Fixture.thousand = 975.
Proof.
  intros lc st w. split; [| repeat split; vm_compute; reflexivity].
  split.
  - intros (f & c & Hf & Hc & Hs & He & Ho & Ht).
    apply is_floor_unique in Hf. apply is_ceil_unique in Hc. subst f c.
    destruct w as [ws we wo wt]. simpl in *. subst ws we.
    unfold window_of. f_equal; assumption.
  - intros ->.
    exists (JS.Math_floor (scrollTop st / inject_Z ROW_HEIGHT)),
           (JS.Math_ceil ((scrollTop st + tableContainerHeight st)
                          / inject_Z ROW_HEIGHT)).
    split; [apply floor_is_floor |]. split; [apply ceil_is_ceil |].
    repeat split.
Qed.

(** ** Integers as numbers

    The integers below [2^53] in magnitude are numbers, and the sums,
    differences, products and comparisons of such integers are exact. *)

Section Integers.

Import Binary64.

Lemma digits_pos (p : positive) : 0 < digits p.
Proof. unfold digits. lia. Qed.

Lemma digits_bounds (p : positive) :
  2 ^ (digits p - 1) <= Zpos p < 2 ^ digits p.
Proof.
  unfold digits. induction p as [p IH | p IH |]; cbn [digits2_pos].
  - rewrite Pos2Z.inj_succ. change (Zpos p~1) with (2 * Zpos p + 1).
    replace (Z.succ (Zpos (digits2_pos p)) - 1)
      with (Z.succ (Zpos (digits2_pos p) - 1)) by lia.
    rewrite !Z.pow_succ_r by lia.
    set (A := 2 ^ (Zpos (digits2_pos p) - 1)) in *.
    set (B := 2 ^ Zpos (digits2_pos p)) in *. clearbody A B. lia.
  - rewrite Pos2Z.inj_succ. change (Zpos p~0) with (2 * Zpos p).
    replace (Z.succ (Zpos (digits2_pos p)) - 1)
      with (Z.succ (Zpos (digits2_pos p) - 1)) by lia.
    rewrite !Z.pow_succ_r by lia.
    set (A := 2 ^ (Zpos (digits2_pos p) - 1)) in *.
    set (B := 2 ^ Zpos (digits2_pos p)) in *. clearbody A B. lia.
  - cbn. lia.
Qed.

Lemma shiftl_value (p : positive) (n : N) :
  Zpos (Pos.shiftl p n) = Zpos p * 2 ^ Z.of_N n.
Proof.
  destruct n as [| n]; cbn [Pos.shiftl Z.of_N]; [rewrite Z.pow_0_r; lia |].
  induction n as [| n IH] using Pos.peano_ind.
  - cbn. lia.
  - rewrite Pos.iter_succ.
    change (Zpos (Pos.iter xO p n)~0) with (2 * Zpos (Pos.iter xO p n)).
    rewrite IH, Pos2Z.inj_succ, Z.pow_succ_r by lia. lia.
Qed.

Lemma digits_shiftl (p : positive) (n : N) :
  digits (Pos.shiftl p n) = digits p + Z.of_N n.
Proof.
  unfold digits.
  destruct n as [| n]; cbn [Pos.shiftl Z.of_N]; [lia |].
  induction n as [| n IH] using Pos.peano_ind.
  - cbn. lia.
  - rewrite Pos.iter_succ. cbn [digits2_pos]. rewrite Pos2Z.inj_succ, IH. lia.
Qed.

Lemma iter_pos_iter {A : Type} (f : A -> A) (p : positive) :
  forall x, iter_pos f p x = Pos.iter f x p.
Proof.
  induction p as [p IH | p IH |]; intros x; cbn [iter_pos Pos.iter].
  - rewrite !IH. now rewrite <- !Pos.iter_swap.
  - now rewrite !IH.
  - reflexivity.
Qed.

Lemma shr_exact (d : positive) :
  forall m : positive,
    iter_pos shr_1 d
      {| shr_m := Zpos (Pos.iter xO m d); shr_r := false; shr_s := false |}
    = {| shr_m := Zpos m; shr_r := false; shr_s := false |}.
Proof.
  intros m. rewrite iter_pos_iter.
  induction d as [| d IH] using Pos.peano_ind.
  - reflexivity.
  - rewrite (Pos.iter_succ d positive xO), (Pos.iter_succ_r d shr_record shr_1).
    cbn [shr_1 orb]. exact IH.
Qed.

Lemma fexp_normal (z : Z) : -1021 <= z -> fexp prec emax z = z - 53.
Proof. unfold fexp, SpecFloat.emin, prec, emax. lia. Qed.

(** A mantissa of 53 digits followed by [d] zeros rounds to itself. *)
Lemma round_aux_exact (s : bool) (m : positive) (E : Z) (d : N) :
  digits m = 53 -> -1074 <= E <= 971 ->
  binary_round_aux prec emax s (Zpos (Pos.shiftl m d)) (E - Z.of_N d) loc_Exact
  = S754_finite s m E.
Proof.
  intros Hm HE. unfold binary_round_aux, shr_fexp.
  cbn [Zdigits2 shr_record_of_loc].
  fold (digits (Pos.shiftl m d)). rewrite digits_shiftl, Hm.
  rewrite fexp_normal by lia.
  replace (53 + Z.of_N d + (E - Z.of_N d) - 53 - (E - Z.of_N d)) with (Z.of_N d) by lia.
  destruct d as [| d]; cbn [Z.of_N shr Pos.shiftl].
  - rewrite Z.sub_0_r. cbn [shr_m loc_of_shr_record round_nearest_even Zdigits2
                              shr_record_of_loc].
    fold (digits m). rewrite Hm, fexp_normal by lia.
    replace (53 + E - 53 - E) with 0 by lia. cbn [shr shr_m].
    destruct (Z.leb_spec E (emax - prec)); [reflexivity |].
    unfold emax, prec in *. lia.
  - rewrite shr_exact.
    cbn [shr_m loc_of_shr_record round_nearest_even Zdigits2 shr_record_of_loc].
    fold (digits m). rewrite Hm.
    replace (E - Zpos d + Zpos d) with E by lia.
    rewrite fexp_normal by lia.
    replace (53 + E - 53 - E) with 0 by lia. cbn [shr shr_m].
    destruct (Z.leb_spec E (emax - prec)); [reflexivity |].
    unfold emax, prec in *. lia.
Qed.

Lemma shiftl_of_value (p m : positive) (k : Z) :
  0 <= k -> Zpos m = Zpos p * 2 ^ k -> m = Pos.shiftl p (Z.to_N k).
Proof.
  intros Hk H. apply Pos2Z.inj. rewrite shiftl_value, Z2N.id by assumption.
  exact H.
Qed.

(** A mantissa [p] at the exponent [e] that stands for [m * 2^E], [m] of 53
    digits, rounds to [m] at [E]. *)
Lemma binary_round_exact (s : bool) (p : positive) (e : Z) (m : positive) (E : Z) :
  digits m = 53 -> -1074 <= E <= 971 ->
  (E <= e /\ Zpos m = Zpos p * 2 ^ (e - E))
  \/ (e <= E /\ Zpos p = Zpos m * 2 ^ (E - e)) ->
  binary_round prec emax s p e = S754_finite s m E.
Proof.
  intros Hm HE Hv. unfold binary_round.
  assert (digits p + e = 53 + E) as Hd.
  { destruct Hv as [[Hle Hv] | [Hle Hv]].
    - apply shiftl_of_value in Hv; [| lia]. rewrite Hv, digits_shiftl in Hm.
      rewrite Z2N.id in Hm by lia. lia.
    - apply shiftl_of_value in Hv; [| lia]. rewrite Hv, digits_shiftl.
      rewrite Z2N.id by lia. lia. }
  fold (digits p). rewrite Hd, fexp_normal by lia.
  replace (53 + E - 53) with E by lia. unfold shl_align.
  destruct Hv as [[Hle Hv] | [Hle Hv]].
  - apply shiftl_of_value in Hv; [| lia].
    replace (e - E) with (- (E - e)) in Hv by lia.
    destruct (E - e) as [| d | d] eqn:Ed; [| lia |].
    + cbn in Hv. subst m. assert (e = E) as -> by lia.
      replace E with (E - Z.of_N 0) at 1 by (cbn; lia).
      apply (round_aux_exact s p E 0 Hm HE).
    + cbn in Hv. rewrite <- Hv.
      replace E with (E - Z.of_N 0) at 1 by (cbn; lia).
      apply (round_aux_exact s m E 0 Hm HE).
  - apply shiftl_of_value in Hv; [| lia].
    destruct (E - e) as [| d | d] eqn:Ed; [| | lia].
    + cbn in Hv. subst p. assert (e = E) as -> by lia.
      replace E with (E - Z.of_N 0) at 1 by (cbn; lia).
      apply (round_aux_exact s m E 0 Hm HE).
    + cbn [Z.to_N] in Hv. rewrite Hv.
      replace e with (E - Z.of_N (N.pos d)) at 1 by (cbn; lia).
      apply (round_aux_exact s m E _ Hm HE).
Qed.

Lemma digits_le_53 (p : positive) : Zpos p < 2 ^ 53 -> digits p <= 53.
Proof.
  intros H. pose proof (digits_bounds p) as [Hl _]. pose proof (digits_pos p).
  destruct (Z.le_gt_cases (digits p) 53) as [| Hgt]; [assumption |].
  assert (2 ^ 53 <= 2 ^ (digits p - 1)) by (apply Z.pow_le_mono_r; lia). lia.
Qed.

(** The mantissa of an integer below [2^53] has 53 digits. *)
Lemma integer_mantissa (p : positive) :
  Zpos p < 2 ^ 53 ->
  digits (Pos.shiftl p (Z.to_N (53 - digits p))) = 53
  /\ Zpos (Pos.shiftl p (Z.to_N (53 - digits p)))
     = Zpos p * 2 ^ (53 - digits p)
  /\ -52 <= digits p - 53 <= 0.
Proof.
  intros H. pose proof (digits_le_53 p H). pose proof (digits_pos p).
  rewrite digits_shiftl, shiftl_value, Z2N.id by lia. lia.
Qed.

(** An integer [n] below [2^53] in magnitude, given as [M * 2^e], is
    normalized to the number [n]. *)
Lemma normalize_exact (M e n : Z) :
  e <= 0 -> M = n * 2 ^ (- e) -> Z.abs n < 2 ^ 53 ->
  binary_normalize prec emax M e false = integer n.
Proof.
  intros He HM Hn.
  assert (0 < 2 ^ (- e)) as Hpow by (apply Z.pow_pos_nonneg; lia).
  assert (forall (s : bool) (q P : positive),
            Zpos q < 2 ^ 53 -> Zpos P = Zpos q * 2 ^ (- e) ->
            binary_round prec emax s P e
            = S754_finite s (Pos.shiftl q (Z.to_N (53 - digits q)))
                          (digits q - 53)) as Hround.
  { intros s q P Hq HP. destruct (integer_mantissa q Hq) as (Hd & Hv & HE).
    apply binary_round_exact; [assumption | lia |].
    destruct (Z.le_gt_cases (digits q - 53) e) as [Hle | Hgt].
    - left. split; [assumption |]. rewrite Hv, HP, <- Z.mul_assoc.
      rewrite <- Z.pow_add_r by lia. do 2 f_equal. lia.
    - right. split; [lia |]. rewrite Hv, HP, <- Z.mul_assoc.
      rewrite <- Z.pow_add_r by lia. do 2 f_equal. lia. }
  destruct n as [| q | q].
  - subst M. reflexivity.
  - destruct M as [| P | P]; try lia. cbn [binary_normalize integer].
    apply Hround; [lia | assumption].
  - destruct M as [| P | P]; try lia. cbn [binary_normalize integer].
    apply Hround; [lia | lia].
Qed.

Lemma mantissa_valid (s : bool) (q : positive) :
  Zpos q < 2 ^ 53 ->
  SpecFloat.valid_binary prec emax
    (S754_finite s (Pos.shiftl q (Z.to_N (53 - digits q))) (digits q - 53))
  = true.
Proof.
  intros Hq. destruct (integer_mantissa q Hq) as (Hd & _ & HE).
  cbn [SpecFloat.valid_binary]. unfold bounded, canonical_mantissa.
  fold (digits (Pos.shiftl q (Z.to_N (53 - digits q)))).
  rewrite Hd, fexp_normal by lia.
  apply andb_true_intro. split.
  - apply Z.eqb_eq. lia.
  - apply Z.leb_le. unfold emax, prec. lia.
Qed.

Lemma integer_valid (n : Z) :
  Z.abs n < 2 ^ 53 -> valid_binary (integer n) = true.
Proof.
  intros Hn. unfold valid_binary.
  destruct n as [| q | q]; [reflexivity | |]; cbn [integer];
    [apply (mantissa_valid false q) | apply (mantissa_valid true q)]; lia.
Qed.

Lemma Prim2SF_of_Z (n : Z) :
  Z.abs n < 2 ^ 53 -> Prim2SF (JS.of_Z n) = integer n.
Proof.
  intros Hn. unfold JS.of_Z, JS.round_binary.
  rewrite (normalize_exact n 0 n) by (cbn; lia).
  apply Prim2SF_SF2Prim. now apply integer_valid.
Qed.

(** The number of an integer that is not zero: its sign, its mantissa and
    its exponent. *)
Lemma integer_finite (n : Z) :
  n <> 0 -> Z.abs n < 2 ^ 53 ->
  exists (s : bool) (m : positive) (e : Z),
    integer n = S754_finite s m e
    /\ -52 <= e <= 0
    /\ cond_Zopp s (Zpos m) = n * 2 ^ (- e)
    /\ s = (n <? 0)
    /\ digits m = 53.
Proof.
  intros Hn0 Hn. destruct n as [| q | q]; [congruence | |];
    destruct (integer_mantissa q) as (Hd & Hv & HE); try lia.
  - exists false, (Pos.shiftl q (Z.to_N (53 - digits q))), (digits q - 53).
    split; [reflexivity |]. split; [lia |]. cbn [cond_Zopp].
    rewrite Hv. split; [f_equal; f_equal; lia |]. split; [reflexivity | assumption].
  - exists true, (Pos.shiftl q (Z.to_N (53 - digits q))), (digits q - 53).
    split; [reflexivity |]. split; [lia |]. cbn [cond_Zopp].
    rewrite Hv. split; [| split; [reflexivity | assumption]].
    replace (- (digits q - 53)) with (53 - digits q) by lia.
    change (Zneg q) with (- Zpos q). lia.
Qed.

Lemma shl_align_value (s : bool) (m : positive) (e ez : Z) :
  ez <= e ->
  cond_Zopp s (Zpos (fst (shl_align m e ez)))
  = cond_Zopp s (Zpos m) * 2 ^ (e - ez).
Proof.
  intros Hle. unfold shl_align.
  assert (Zpos (fst match ez - e with
                    | Zneg d => (Pos.iter xO m d, ez)
                    | _ => (m, e)
                    end) = Zpos m * 2 ^ (e - ez)) as ->.
  { destruct (ez - e) as [| d | d] eqn:Ed; [| lia |]; cbn [fst].
    - replace (e - ez) with 0 by lia. rewrite Z.pow_0_r. lia.
    - change (Pos.iter xO m d) with (Pos.shiftl m (N.pos d)).
      rewrite shiftl_value. do 2 f_equal. cbn. lia. }
  destruct s; cbn [cond_Zopp]; lia.
Qed.

(** Sums and differences of integers are exact as long as they stay below
    [2^53]. *)
Lemma SFadd_integer (a b : Z) :
  Z.abs a < 2 ^ 53 -> Z.abs b < 2 ^ 53 -> Z.abs (a + b) < 2 ^ 53 ->
  SF64add (integer a) (integer b) = integer (a + b).
Proof.
  intros Ha Hb Hab. unfold SF64add.
  destruct (Z.eq_dec a 0) as [-> | Ha0].
  - cbn [Z.add]. destruct b; reflexivity.
  - destruct (Z.eq_dec b 0) as [-> | Hb0].
    + rewrite Z.add_0_r. destruct a; reflexivity.
    + destruct (integer_finite a Ha0 Ha) as (sa & ma & ea & -> & Hea & Hva & _).
      destruct (integer_finite b Hb0 Hb) as (sb & mb & eb & -> & Heb & Hvb & _).
      cbn [SFadd]. cbv zeta.
      apply normalize_exact; [lia | | assumption].
      rewrite !shl_align_value by lia. rewrite Hva, Hvb.
      rewrite <- !Z.mul_assoc, <- !Z.pow_add_r by lia.
      replace (- ea + (ea - Z.min ea eb)) with (- Z.min ea eb) by lia.
      replace (- eb + (eb - Z.min ea eb)) with (- Z.min ea eb) by lia.
      lia.
Qed.

Lemma SFsub_integer (a b : Z) :
  Z.abs a < 2 ^ 53 -> Z.abs b < 2 ^ 53 -> Z.abs (a - b) < 2 ^ 53 ->
  SF64sub (integer a) (integer b) = integer (a - b).
Proof.
  intros Ha Hb Hab. unfold SF64sub.
  destruct (Z.eq_dec b 0) as [-> | Hb0].
  - rewrite Z.sub_0_r. destruct a; reflexivity.
  - destruct (Z.eq_dec a 0) as [-> | Ha0].
    + destruct b; [congruence | reflexivity | reflexivity].
    + destruct (integer_finite a Ha0 Ha) as (sa & ma & ea & -> & Hea & Hva & _).
      destruct (integer_finite b Hb0 Hb) as (sb & mb & eb & -> & Heb & Hvb & _).
      cbn [SFsub]. cbv zeta.
      apply normalize_exact; [lia | | assumption].
      rewrite !shl_align_value by lia. rewrite Hva, Hvb.
      rewrite <- !Z.mul_assoc, <- !Z.pow_add_r by lia.
      replace (- ea + (ea - Z.min ea eb)) with (- Z.min ea eb) by lia.
      replace (- eb + (eb - Z.min ea eb)) with (- Z.min ea eb) by lia.
      lia.
Qed.

Lemma add_exact (a b : Z) :
  Z.abs a < 2 ^ 53 -> Z.abs b < 2 ^ 53 -> Z.abs (a + b) < 2 ^ 53 ->
  (JS.of_Z a + JS.of_Z b)%float = JS.of_Z (a + b).
Proof.
  intros Ha Hb Hab. apply Prim2SF_inj.
  rewrite add_spec, !Prim2SF_of_Z by assumption. now apply SFadd_integer.
Qed.

Lemma sub_exact (a b : Z) :
  Z.abs a < 2 ^ 53 -> Z.abs b < 2 ^ 53 -> Z.abs (a - b) < 2 ^ 53 ->
  (JS.of_Z a - JS.of_Z b)%float = JS.of_Z (a - b).
Proof.
  intros Ha Hb Hab. apply Prim2SF_inj.
  rewrite sub_spec, !Prim2SF_of_Z by assumption. now apply SFsub_integer.
Qed.

(** The order of the numbers of two positive integers is the order of the
    integers. *)
Lemma compare_positive (p q : positive) :
  Zpos p < 2 ^ 53 -> Zpos q < 2 ^ 53 ->
  match digits p - 53 ?= digits q - 53 with
  | Lt => Lt
  | Gt => Gt
  | Eq => Pos.compare_cont Eq (Pos.shiftl p (Z.to_N (53 - digits p)))
                              (Pos.shiftl q (Z.to_N (53 - digits q)))
  end = (p ?= q)%positive.
Proof.
  intros Hp Hq.
  pose proof (digits_bounds p) as [Hp1 Hp2].
  pose proof (digits_bounds q) as [Hq1 Hq2].
  pose proof (digits_pos p). pose proof (digits_pos q).
  destruct (Z.compare_spec (digits p - 53) (digits q - 53)) as [E | E | E].
  - assert (digits p = digits q) as Ed by lia. rewrite Ed.
    change (Pos.compare_cont Eq ?x ?y) with (Zpos x ?= Zpos y).
    rewrite !shiftl_value. symmetry.
    apply (Zmult_compare_compat_r (Zpos p) (Zpos q)).
    apply Z.lt_gt, Z.pow_pos_nonneg; lia.
  - symmetry. apply Pos.compare_lt_iff.
    assert (2 ^ digits p <= 2 ^ (digits q - 1)) by (apply Z.pow_le_mono_r; lia).
    lia.
  - symmetry. apply Pos.compare_gt_iff.
    assert (2 ^ digits q <= 2 ^ (digits p - 1)) by (apply Z.pow_le_mono_r; lia).
    lia.
Qed.

Lemma SFcompare_integer (a b : Z) :
  Z.abs a < 2 ^ 53 -> Z.abs b < 2 ^ 53 ->
  SFcompare (integer a) (integer b) = Some (a ?= b).
Proof.
  intros Ha Hb.
  destruct a as [| p | p], b as [| q | q]; try reflexivity;
    cbn [integer SFcompare Z.compare]; f_equal.
  - apply compare_positive; lia.
  - rewrite <- (compare_positive p q) by lia.
    destruct (digits p - 53 ?= digits q - 53); reflexivity.
Qed.

Lemma ltb_exact (a b : Z) :
  Z.abs a < 2 ^ 53 -> Z.abs b < 2 ^ 53 ->
  (JS.of_Z a <? JS.of_Z b)%float = (a <? b).
Proof.
  intros Ha Hb. rewrite ltb_spec, !Prim2SF_of_Z by assumption.
  unfold SFltb, Z.ltb. rewrite SFcompare_integer by assumption.
  reflexivity.
Qed.

Lemma leb_exact (a b : Z) :
  Z.abs a < 2 ^ 53 -> Z.abs b < 2 ^ 53 ->
  (JS.of_Z a <=? JS.of_Z b)%float = (a <=? b).
Proof.
  intros Ha Hb. rewrite leb_spec, !Prim2SF_of_Z by assumption.
  unfold SFleb, Z.leb. rewrite SFcompare_integer by assumption.
  now destruct (a ?= b).
Qed.

Lemma of_Z_not_nan (a : Z) :
  Z.abs a < 2 ^ 53 -> (JS.of_Z a =? JS.of_Z a)%float = true.
Proof.
  intros Ha. rewrite eqb_spec, !Prim2SF_of_Z by assumption.
  unfold SFeqb. rewrite SFcompare_integer by assumption.
  now rewrite Z.compare_refl.
Qed.

Lemma digits_mul (p q : positive) :
  digits p + digits q - 1 <= digits (p * q).
Proof.
  pose proof (digits_bounds p) as [Hp1 _].
  pose proof (digits_bounds q) as [Hq1 _].
  pose proof (digits_bounds (p * q)) as [_ Hpq].
  pose proof (digits_pos p). pose proof (digits_pos q).
  pose proof (digits_pos (p * q)).
  destruct (Z.le_gt_cases (digits p + digits q - 1) (digits (p * q)))
    as [| Hgt]; [assumption | exfalso].
  assert (2 ^ digits (p * q) <= 2 ^ (digits p - 1 + (digits q - 1)))
    by (apply Z.pow_le_mono_r; lia).
  rewrite Z.pow_add_r in * by lia. rewrite Pos2Z.inj_mul in Hpq.
  assert (2 ^ (digits p - 1) * 2 ^ (digits q - 1) <= Zpos p * Zpos q)
    by (apply Z.mul_le_mono_nonneg; try apply Z.pow_nonneg; lia).
  lia.
Qed.

(** The product of two integers that are not negative is exact as long as
    it stays below [2^53]. *)
Lemma SFmul_integer (a b : Z) :
  0 <= a -> 0 <= b -> a * b < 2 ^ 53 ->
  SF64mul (integer a) (integer b) = integer (a * b).
Proof.
  intros Ha Hb Hab. unfold SF64mul.
  destruct a as [| p | p]; [now destruct b | | lia].
  destruct b as [| q | q]; [reflexivity | | lia].
  assert (Zpos p < 2 ^ 53 /\ Zpos q < 2 ^ 53) as [Hp Hq] by nia.
  change (Zpos p * Zpos q) with (Zpos (p * q)) in *.
  cbn [integer SFmul xorb].
  destruct (integer_mantissa p Hp) as (Hdp & Hvp & HEp).
  destruct (integer_mantissa q Hq) as (Hdq & Hvq & HEq).
  destruct (integer_mantissa (p * q) Hab) as (Hd & Hv & HE).
  pose proof (digits_mul p q) as Hdm.
  set (D := digits (p * q) + 53 - digits p - digits q).
  assert ((Pos.shiftl p (Z.to_N (53 - digits p))
           * Pos.shiftl q (Z.to_N (53 - digits q)))%positive
          = Pos.shiftl (Pos.shiftl (p * q) (Z.to_N (53 - digits (p * q))))
                       (Z.to_N D)) as ->.
  { apply shiftl_of_value; [unfold D; lia |].
    rewrite Pos2Z.inj_mul, Hvp, Hvq, Hv, Pos2Z.inj_mul.
    rewrite <- !Z.mul_assoc. f_equal.
    rewrite (Z.mul_comm (2 ^ (53 - digits p))), <- !Z.mul_assoc. f_equal.
    rewrite <- !Z.pow_add_r by (unfold D; lia). f_equal. unfold D. lia. }
  replace (digits p - 53 + (digits q - 53))
    with (digits (p * q) - 53 - Z.of_N (Z.to_N D))
    by (rewrite Z2N.id; unfold D; lia).
  apply round_aux_exact; [assumption | lia].
Qed.

Lemma mul_exact (a b : Z) :
  0 <= a < 2 ^ 53 -> 0 <= b < 2 ^ 53 -> a * b < 2 ^ 53 ->
  (JS.of_Z a * JS.of_Z b)%float = JS.of_Z (a * b).
Proof.
  intros Ha Hb Hab. apply Prim2SF_inj.
  assert (0 <= a * b) by (apply Z.mul_nonneg_nonneg; lia).
  rewrite mul_spec, !Prim2SF_of_Z by (rewrite Z.abs_eq; lia).
  apply SFmul_integer; lia.
Qed.

Lemma of_Z_not_zero_neg (a : Z) :
  Z.abs a < 2 ^ 53 -> is_neg_zero (JS.of_Z a) = false.
Proof.
  intros Ha. unfold is_neg_zero. rewrite Prim2SF_of_Z by assumption.
  now destruct a.
Qed.

Lemma Math_max_exact (a b : Z) :
  Z.abs a < 2 ^ 53 -> Z.abs b < 2 ^ 53 ->
  Math_max (JS.of_Z a) (JS.of_Z b) = JS.of_Z (Z.max a b).
Proof.
  intros Ha Hb. unfold Math_max, JS.isNaN.
  rewrite !of_Z_not_nan, ltb_exact, (of_Z_not_zero_neg a) by assumption.
  rewrite andb_false_r. cbn [negb orb].
  destruct (Z.ltb_spec a b); [now rewrite Z.max_r by lia |].
  now rewrite Z.max_l by lia.
Qed.

Lemma Math_min_exact (a b : Z) :
  Z.abs a < 2 ^ 53 -> Z.abs b < 2 ^ 53 ->
  Math_min (JS.of_Z a) (JS.of_Z b) = JS.of_Z (Z.min a b).
Proof.
  intros Ha Hb. unfold Math_min, JS.isNaN.
  rewrite !of_Z_not_nan, ltb_exact, (of_Z_not_zero_neg b) by assumption.
  cbn [negb orb andb].
  destruct (Z.ltb_spec b a); [now rewrite Z.min_r by lia |].
  now rewrite Z.min_l by lia.
Qed.

(** A finite number that is not an integer multiple of its last place has
    a negative exponent; one with an exponent that is not negative is at
    least [2^52] in magnitude. *)
Lemma large_exponent (x : float) (s : bool) (m : positive) (e : Z) :
  Prim2SF x = S754_finite s m e -> 0 <= e -> 2 ^ 52 <= Zpos m.
Proof.
  intros Hx He. pose proof (Prim2SF_valid x) as Hv. rewrite Hx in Hv.
  unfold valid_binary in Hv. cbn [SpecFloat.valid_binary] in Hv.
  unfold bounded, canonical_mantissa in Hv.
  apply andb_prop in Hv. destruct Hv as [Hc _]. apply Z.eqb_eq in Hc.
  unfold fexp, SpecFloat.emin, prec, emax in Hc.
  pose proof (digits_bounds m) as [Hl _]. unfold digits in Hl.
  assert (Zpos (digits2_pos m) = 53) as Hd by lia.
  rewrite Hd in Hl. exact Hl.
Qed.

Lemma small_floor (q : Q) : small q -> - 2 ^ 46 <= Qfloor q <= 2 ^ 46.
Proof.
  intros [Hl Hu]. apply Qlt_le_weak in Hl, Hu.
  apply Qfloor_resp_le in Hl, Hu. rewrite Qfloor_Z in Hl, Hu. lia.
Qed.

Lemma small_ceiling (q : Q) : small q -> - 2 ^ 46 <= Qceiling q <= 2 ^ 46.
Proof.
  intros [Hl Hu]. apply Qlt_le_weak in Hl, Hu.
  apply Qceiling_resp_le in Hl, Hu. rewrite Qceiling_Z in Hl, Hu. lia.
Qed.

(** The value of a number and its parts. *)
Lemma value_cases (x : float) (q : Q) :
  value x = Some q -> small q ->
  (exists s, Prim2SF x = S754_zero s /\ q = 0%Q)
  \/ (exists s m e,
        Prim2SF x = S754_finite s m e /\ e < 0
        /\ Qfloor q = cond_Zopp s (Zpos m) / 2 ^ (- e)
        /\ Qceiling q = - (- cond_Zopp s (Zpos m) / 2 ^ (- e))).
Proof.
  unfold value. intros Hv Hs.
  destruct (Prim2SF x) as [s | s | | s m e] eqn:Hx; try discriminate.
  - left. exists s. split; [reflexivity | congruence].
  - right. exists s, m, e. split; [reflexivity |].
    destruct (Z.ltb_spec e 0) as [He | He].
    + injection Hv as <-. split; [assumption |].
      unfold Qceiling. cbn [Qfloor Qopp Qnum Qden].
      rewrite shiftl_value, Z2N.id, Z.mul_1_l by lia. split; reflexivity.
    + exfalso. injection Hv as <-. destruct Hs as [Hl Hu].
      rewrite <- Zlt_Qlt in Hl, Hu.
      pose proof (large_exponent x s m e Hx He) as Hm.
      assert (1 <= 2 ^ e) by (apply Z.lt_pred_le, Z.pow_pos_nonneg; lia).
      assert (2 ^ 46 < 2 ^ 52) by reflexivity.
      destruct s; cbn [cond_Zopp] in Hl, Hu; nia.
Qed.

(** The floor of a small number, less a positive integer. *)
Lemma floor_minus (x : float) (q : Q) (k : Z) :
  value x = Some q -> small q -> 0 < k < 2 ^ 46 ->
  (Math_floor x - JS.of_Z k)%float = JS.of_Z (Qfloor q - k).
Proof.
  intros Hv Hs Hk. pose proof (small_floor q Hs) as Hf.
  assert (2 ^ 46 + 2 ^ 46 < 2 ^ 53) as Hp by reflexivity.
  destruct (value_cases x q Hv Hs) as [(s & Hx & ->) | (s & m & e & Hx & He & Hq & _)].
  - unfold Math_floor. rewrite Hx. apply Prim2SF_inj.
    change (Qfloor 0) with 0 in *.
    rewrite sub_spec, Hx, !Prim2SF_of_Z by lia.
    destruct k as [| k | k]; try lia. reflexivity.
  - unfold Math_floor. rewrite Hx.
    destruct (Z.ltb_spec e 0); [| lia]. rewrite <- Hq.
    apply sub_exact; lia.
Qed.

(** The ceiling of a small number, plus a positive integer. *)
Lemma ceil_plus (x : float) (q : Q) (k : Z) :
  value x = Some q -> small q -> 0 < k < 2 ^ 46 ->
  (Math_ceil x + JS.of_Z k)%float = JS.of_Z (Qceiling q + k).
Proof.
  intros Hv Hs Hk. pose proof (small_ceiling q Hs) as Hf.
  assert (2 ^ 46 + 2 ^ 46 < 2 ^ 53) as Hp by reflexivity.
  destruct (value_cases x q Hv Hs) as [(s & Hx & ->) | (s & m & e & Hx & He & _ & Hq)].
  - unfold Math_ceil. rewrite Hx. apply Prim2SF_inj.
    change (Qceiling 0) with 0 in *.
    rewrite add_spec, Hx, !Prim2SF_of_Z by lia.
    destruct k as [| k | k]; try lia. reflexivity.
  - unfold Math_ceil. rewrite Hx.
    destruct (Z.ltb_spec e 0); [| lia]. cbv zeta. rewrite <- Hq.
    destruct (Z.eqb_spec (Qceiling q) 0) as [E | E].
    + rewrite E. apply Prim2SF_inj.
      rewrite add_spec, !Prim2SF_of_Z by lia.
      change (Prim2SF neg_zero) with (S754_zero true).
      destruct k as [| k | k]; try lia. reflexivity.
    + apply add_exact; lia.
Qed.

Lemma window_numbers (totalRowCount : Z) (scrollOffset containerHeight : float)
    (q1 q2 : Q) :
  0 <= totalRowCount < 2 ^ 32 ->
  value (scrollOffset / JS.of_Z ROW_HEIGHT)%float = Some q1 -> small q1 ->
  value ((scrollOffset + containerHeight) / JS.of_Z ROW_HEIGHT)%float = Some q2 ->
  small q2 ->
  Viewport.startIndex scrollOffset = JS.of_Z (Z.max 0 (Qfloor q1 - BUFFER_COUNT))
  /\ Viewport.endIndex (JS.of_Z totalRowCount) scrollOffset containerHeight
     = JS.of_Z (Z.min totalRowCount (Qceiling q2 + BUFFER_COUNT))
  /\ Viewport.offsetTop scrollOffset
     = JS.of_Z (Z.max 0 (Qfloor q1 - BUFFER_COUNT) * ROW_HEIGHT)
  /\ Viewport.totalContentHeight (JS.of_Z totalRowCount)
     = JS.of_Z (totalRowCount * ROW_HEIGHT).
Proof.
  intros Ht Hv1 Hs1 Hv2 Hs2.
  pose proof (small_floor q1 Hs1) as Hf. pose proof (small_ceiling q2 Hs2) as Hc.
  assert (2 ^ 46 + 2 ^ 46 < 2 ^ 53) as Hp by reflexivity.
  assert (2 ^ 32 < 2 ^ 46) as Hp' by reflexivity.
  assert (2 ^ 46 * 65 < 2 ^ 53) as Hp'' by reflexivity.
  unfold BUFFER_COUNT, ROW_HEIGHT in *.
  assert (Viewport.startIndex scrollOffset = JS.of_Z (Z.max 0 (Qfloor q1 - 5)))
    as Hstart.
  { unfold Viewport.startIndex, BUFFER_COUNT, ROW_HEIGHT.
    rewrite (floor_minus _ q1 5 Hv1 Hs1) by (split; reflexivity).
    change PrimFloat.zero with (JS.of_Z 0). apply Math_max_exact; cbn; lia. }
  split; [exact Hstart |]. split; [| split].
  - unfold Viewport.endIndex, BUFFER_COUNT, ROW_HEIGHT.
    rewrite (ceil_plus _ q2 5 Hv2 Hs2) by (split; reflexivity).
    apply Math_min_exact; lia.
  - unfold Viewport.offsetTop. rewrite Hstart. unfold ROW_HEIGHT.
    apply mul_exact; lia.
  - unfold Viewport.totalContentHeight, ROW_HEIGHT. apply mul_exact; lia.
Qed.

End Integers.

Example floor_and_ceiling_of_numbers :
  Binary64.Math_floor 2.5%float = 2%float
  /\ Binary64.Math_floor (-2.5)%float = (-3)%float
  /\ Binary64.Math_ceil 2.5%float = 3%float
  /\ Binary64.Math_ceil (-2.5)%float = (-2)%float
  /\ Binary64.Math_ceil (-0.5)%float = (-0)%float
  /\ Binary64.Math_floor 20%float = 20%float
  /\ Binary64.Math_floor 1e20%float = 1e20%float
  /\ Binary64.Math_ceil JS.posInfinity = JS.posInfinity
  /\ JS.isNaN (Binary64.Math_floor JS.NaN) = true
  /\ Binary64.Math_max 0%float (-3)%float = 0%float
  /\ Binary64.Math_min 1000%float 35%float = 35%float
  /\ JS.isNaN (Binary64.Math_min 1000%float JS.NaN) = true.
Proof. repeat split; vm_compute; reflexivity. Qed.

(** C2, as amended.  For every row count, scroll offset and container
    height the window is computed on numbers: the start index is
    [max(0, floor(q1) - 5)] and the end index is
    [min(totalRowCount, ceil(q2) + 5)], where [q1] is the quotient of the
    scroll offset by 65 and [q2] the quotient by 65 of the sum of the scroll
    offset and the container height, the sum and the quotients rounded as
    numbers are; the offset is the start index times 65 and the total height
    the row count times 65.  This is stated for quotients below [2^46] in
    magnitude and fewer than [2^32] rows, where all the integers involved
    are exact. *)
Theorem window_formula :
  forall (totalRowCount : Z) (scrollOffset containerHeight : JS.number)
         (q1 q2 : Q),
    0 <= totalRowCount < 2 ^ 32 ->
    Binary64.value (scrollOffset / JS.of_Z ROW_HEIGHT)%float = Some q1 ->
    Binary64.value ((scrollOffset + containerHeight) / JS.of_Z ROW_HEIGHT)%float
    = Some q2 ->
    Binary64.small q1 -> Binary64.small q2 ->
    exists f c : Z,
      WindowSpec.is_floor q1 f
      /\ WindowSpec.is_ceil q2 c
      /\ Viewport.startIndex scrollOffset
         = JS.of_Z (Z.max 0 (f - BUFFER_COUNT))
      /\ Viewport.endIndex (JS.of_Z totalRowCount) scrollOffset containerHeight
         = JS.of_Z (Z.min totalRowCount (c + BUFFER_COUNT))
      /\ Viewport.offsetTop scrollOffset
         = JS.of_Z (Z.max 0 (f - BUFFER_COUNT) * ROW_HEIGHT)
      /\ Viewport.totalContentHeight (JS.of_Z totalRowCount)
         = JS.of_Z (totalRowCount * ROW_HEIGHT).
Proof.
  intros total s h q1 q2 Ht Hv1 Hv2 Hs1 Hs2.
  exists (Qfloor q1), (Qceiling q2).
  split; [apply (floor_is_floor q1) |]. split; [apply (ceil_is_ceil q2) |].
  now apply (window_numbers total s h q1 q2).
Qed.

(** The example of the specification: 1000 rows at the scroll offset 1300
    in a container of height 650. *)
Lemma window_formula_witness :
  Viewport.startIndex 1300%float = 15%float
  /\ Viewport.endIndex (JS.of_Z 1000) 1300%float 650%float = 35%float
  /\ Viewport.offsetTop 1300%float = 975%float
  /\ Viewport.totalContentHeight (JS.of_Z 1000) = 65000%float.
Proof.
  assert (0 <= 1000 < 2 ^ 32) as Ht by (split; [discriminate | reflexivity]).
  destruct (window_formula 1000 1300%float 650%float _ _ Ht eq_refl eq_refl)
    as (f & c & Hf & Hc & H1 & H2 & H3 & H4);
    [split; reflexivity | split; reflexivity |].
  apply is_floor_unique in Hf. apply is_ceil_unique in Hc. subst f c.
  rewrite H1, H2, H3, H4. repeat split; vm_compute; reflexivity.
Defined.

(** C2, as stated, fails: at the scroll offset 1300.4 in a container of
    height 649.6 (the numbers nearest to them) the sum is rounded to 1950, so the end index is 35, while
    the formula on the quantities themselves, whose sum is above 1950, gives
    36.  And beyond the integers that a number holds exactly the indices are
    rounded themselves: at the scroll offset 6.5e18 the start index is
    [10^17], not [10^17 - 5]. *)
Lemma window_formula_counterexample :
  let scrollOffset := 0x1.451999999999ap+10%float in
  let containerHeight := 0x1.44ccccccccccdp+9%float in
  let qs := (5719219683039642 # 4398046511104)%Q in
  let qh := (5713942027226317 # 8796093022208)%Q in
  Binary64.value scrollOffset = Some qs
  /\ Binary64.value containerHeight = Some qh
  /\ (scrollOffset + containerHeight)%float = 1950%float
  /\ (inject_Z 1950 < qs + qh)%Q
  /\ Viewport.startIndex scrollOffset = 15%float
  /\ Viewport.endIndex (JS.of_Z 1000) scrollOffset containerHeight = 35%float
  /\ Viewport.offsetTop scrollOffset = 975%float
  /\ Viewport.totalContentHeight (JS.of_Z 1000) = 65000%float
  /\ WindowSpec.computeWindow 1000 qs qh ROW_HEIGHT BUFFER_COUNT
       (WindowSpec.mk 15 36 975 65000)
  /\ ~ WindowSpec.computeWindow 1000 qs qh ROW_HEIGHT BUFFER_COUNT
         (WindowSpec.mk 15 35 975 65000)
  /\ Binary64.value 6.5e18%float = Some (inject_Z (65 * 10 ^ 17))
  /\ Binary64.value (Viewport.startIndex 6.5e18%float)
     = Some (inject_Z (10 ^ 17))
  /\ WindowSpec.computeWindow 1000 (inject_Z (65 * 10 ^ 17)) 0
       ROW_HEIGHT BUFFER_COUNT
       (WindowSpec.mk (10 ^ 17 - 5) 1000 ((10 ^ 17 - 5) * 65) 65000).
Proof.
  cbv zeta.
  split; [vm_compute; reflexivity |]. split; [vm_compute; reflexivity |].
  split; [vm_compute; reflexivity |]. split; [reflexivity |].
  split; [vm_compute; reflexivity |]. split; [vm_compute; reflexivity |].
  split; [vm_compute; reflexivity |]. split; [vm_compute; reflexivity |].
  split; [| split; [| split; [| split]]].
  - exists 20, 31. repeat split; vm_compute; congruence.
  - intros (f & c & _ & [Hc1 Hc2] & _ & He & _).
    cbn [WindowSpec.endIndex] in He.
    assert (c = 30) as -> by (unfold BUFFER_COUNT in He; lia).
    vm_compute in Hc2. apply Hc2. reflexivity.
  - vm_compute. reflexivity.
  - vm_compute. reflexivity.
  - exists (10 ^ 17), (10 ^ 17). repeat split; vm_compute; congruence.
Qed.




(** ** The sort control *)

(** C5.  A sort request on the column already configured moves the
    direction one step along none, ascending, descending, none (so three
    requests bring it back); a request on another column gives that column,
    ascending, whatever the previous configuration was. *)
Theorem sort_cycle :
  forall (key : string) (st : AppState),
    SortConfig.key (sortConfig (handleSort key st)) = key
    /\ (SortConfig.key (sortConfig st) = key ->
        SortConfig.direction (sortConfig (handleSort key st))
        = Spec.cycle (SortConfig.direction (sortConfig st))
        /\ sortConfig (handleSort key (handleSort key (handleSort key st)))
           = sortConfig st)
    /\ (SortConfig.key (sortConfig st) <> key ->
        sortConfig (handleSort key st) = SortConfig.mk key (Some asc)).
Proof.
  intros key st. unfold handleSort. simpl.
  destruct (sortConfig st) as [k d]. simpl. unfold nextSortConfig. simpl.
  destruct (String.eqb_spec k key) as [-> | Hne].
  - split; [destruct d as [[|] |]; reflexivity |]. split; [| congruence].
    intros _. destruct d as [[|] |]; simpl; rewrite ?String.eqb_refl; simpl;
      rewrite ?String.eqb_refl; auto.
  - split; [reflexivity |]. split; [congruence | reflexivity].
Qed.

(** A request on the sorted column [a] and a request on another column. *)
Lemma sort_cycle_witness :
  sortConfig (handleSort "a" Fixture.sortedByA) = SortConfig.mk "a" (Some desc)
  /\ sortConfig (handleSort "b" Fixture.sortedByA) = SortConfig.mk "b" (Some asc).
Proof.
  split.
  - destruct (sort_cycle "a" Fixture.sortedByA) as (Hk & Hsame & _).
    destruct (Hsame eq_refl) as [Hd _].
    destruct (sortConfig (handleSort "a" Fixture.sortedByA)) as [k d].
    simpl in Hk, Hd. rewrite Hk, Hd. reflexivity.
  - destruct (sort_cycle "b" Fixture.sortedByA) as (_ & _ & Hother).
    apply Hother. vm_compute. discriminate.
Defined.

(** ** The sort stage and clearing the filters *)

Section SortStage.

Variable localeCompare : string -> string -> JS.number.

Lemma sort_insert_perm {A : Type} (cmp : A -> A -> JS.number) (x : A) (l : list A) :
  Permutation (x :: l) (JS.sort_insert cmp x l).
Proof.
  induction l as [| y l IH]; simpl; [reflexivity |].
  destruct (PrimFloat.ltb _ _); [| reflexivity].
  rewrite perm_swap. now apply perm_skip.
Qed.

Lemma Array_sort_perm {A : Type} (cmp : A -> A -> JS.number) (l : list A) :
  Permutation l (JS.Array_sort cmp l).
Proof.
  induction l as [| x l IH]; simpl; [reflexivity |].
  rewrite <- sort_insert_perm. now apply perm_skip.
Qed.

Lemma sortStage_perm (cfg : SortConfig.t) (rows : list JS.object) :
  Permutation rows (sortStage localeCompare cfg rows).
Proof.
  unfold sortStage.
  destruct (String.eqb _ _), (SortConfig.direction cfg);
    try reflexivity. apply Array_sort_perm.
Qed.

Lemma sortStage_none (cfg : SortConfig.t) (rows : list JS.object) :
  SortConfig.direction cfg = None -> sortStage localeCompare cfg rows = rows.
Proof.
  unfold sortStage. intros ->. now destruct (String.eqb _ _).
Qed.

End SortStage.

(** C10.  Clearing all filters empties the filter collection and the search
    text in one step and leaves the sort configuration (and the Row Store) as
    it was; the pipeline then gives the Row Store as the sort stage alone
    orders it: a permutation of the store, the store itself when no
    direction is set. *)
Theorem clear_all_filters_keeps_sort :
  forall (localeCompare : string -> string -> JS.number) (st : AppState),
    activeFilters (clearAllFilters st) = []
    /\ searchQuery (clearAllFilters st) = ""
    /\ sortConfig (clearAllFilters st) = sortConfig st
    /\ rowStore (clearAllFilters st) = rowStore st
    /\ processedRows localeCompare (clearAllFilters st)
       = sortStage localeCompare (sortConfig st) (rowStore st)
    /\ Permutation (rowStore st) (processedRows localeCompare (clearAllFilters st))
    /\ (SortConfig.direction (sortConfig st) = None ->
        processedRows localeCompare (clearAllFilters st) = rowStore st).
Proof.
  intros lc st.
  assert (processedRows lc (clearAllFilters st)
          = sortStage lc (sortConfig st) (rowStore st)) as E.
  { unfold processedRows, rowStore, activeDataset. simpl.
    destruct (activeDatasetId st) as [i |]; simpl.
    - destruct (find _ (datasets st)); [reflexivity |].
      unfold sortStage.
      now destruct (String.eqb (SortConfig.key (sortConfig st)) ""),
                   (SortConfig.direction (sortConfig st)).
    - unfold sortStage.
      now destruct (String.eqb (SortConfig.key (sortConfig st)) ""),
                   (SortConfig.direction (sortConfig st)). }
  repeat split; try reflexivity; try exact E.
  - rewrite E. apply sortStage_perm.
  - intros H. rewrite E. now apply sortStage_none.
Qed.

(** ** Deduplication *)

Section Dedup.

Lemma dedupFilter_cons (seen : list string) (r : JS.object) (rows : list JS.object) :
  dedupFilter seen (r :: rows)
  = if text_seen seen r then dedupFilter seen rows
    else r :: dedupFilter (JS.JSON_stringify r :: seen) rows.
Proof. reflexivity. Qed.

Lemma text_seen_In (seen : list string) (r : JS.object) :
  text_seen seen r = true <-> In (JS.JSON_stringify r) seen.
Proof.
  unfold text_seen. rewrite existsb_exists. split.
  - intros [t [Hin Heq]]. apply String.eqb_eq in Heq. now subst.
  - intros Hin. exists (JS.JSON_stringify r). split; [assumption |].
    apply String.eqb_refl.
Qed.

Lemma existsb_text_same (earlier : list JS.object) (r : JS.object) :
  existsb (DedupSpec.text_same r) earlier = true
  <-> In (JS.JSON_stringify r) (map JS.JSON_stringify earlier).
Proof.
  rewrite existsb_exists, in_map_iff. unfold DedupSpec.text_same. split.
  - intros [x [Hin Heq]]. apply String.eqb_eq in Heq. eauto.
  - intros [x [Heq Hin]]. exists x. split; [assumption |].
    rewrite Heq. apply String.eqb_refl.
Qed.

(** The set of texts met so far stands for the rows before. *)
Lemma dedupFilter_keep_first (rows : list JS.object) :
  forall (seen : list string) (earlier : list JS.object),
    (forall t, In t seen <-> In t (map JS.JSON_stringify earlier)) ->
    dedupFilter seen rows = DedupSpec.keep_first DedupSpec.text_same earlier rows.
Proof.
  induction rows as [| r rows IH]; intros seen earlier Hsame;
    [reflexivity |].
  rewrite dedupFilter_cons. cbn [DedupSpec.keep_first].
  destruct (text_seen seen r) eqn:Es.
  - assert (existsb (DedupSpec.text_same r) earlier = true) as ->
      by (apply existsb_text_same, Hsame, text_seen_In, Es).
    apply IH. intros t. rewrite map_app, in_app_iff, <- Hsame.
    cbn [map In]. apply text_seen_In in Es. intuition (subst; assumption).
  - assert (existsb (DedupSpec.text_same r) earlier = false) as ->.
    { apply not_true_is_false. intros H.
      apply existsb_text_same, Hsame, text_seen_In in H. congruence. }
    f_equal. apply IH. intros t. rewrite map_app, in_app_iff, <- Hsame.
    cbn [map In]. intuition.
Qed.

(** What the filter keeps has texts that are new and pairwise distinct. *)
Lemma dedupFilter_texts (rows : list JS.object) :
  forall seen : list string,
    NoDup (map JS.JSON_stringify (dedupFilter seen rows))
    /\ (forall r, In r (dedupFilter seen rows) ->
                  In r rows /\ ~ In (JS.JSON_stringify r) seen)
    /\ (forall r, In r rows ->
                  In (JS.JSON_stringify r) seen
                  \/ In (JS.JSON_stringify r)
                        (map JS.JSON_stringify (dedupFilter seen rows))).
Proof.
  induction rows as [| r rows IH]; intros seen.
  - split; [constructor |]. split; intros r [].
  - rewrite dedupFilter_cons. destruct (text_seen seen r) eqn:Es.
    + destruct (IH seen) as (Hnd & Hin & Hcov). split; [assumption |]. split.
      * intros x Hx. destruct (Hin x Hx) as [Hr Hn].
        split; [now right | assumption].
      * intros x [<- | Hx]; [left; now apply text_seen_In | auto].
    + destruct (IH (JS.JSON_stringify r :: seen)) as (Hnd & Hin & Hcov).
      assert (~ In (JS.JSON_stringify r) seen) as Hnew
        by (intros H; apply text_seen_In in H; congruence).
      split; [| split].
      * cbn [map]. constructor; [| assumption].
        intros H. apply in_map_iff in H. destruct H as [x [Heq Hx]].
        destruct (Hin x Hx) as [_ Hn]. apply Hn. left. now symmetry.
      * intros x [<- | Hx]; [split; [now left | assumption] |].
        destruct (Hin x Hx) as [Hr Hn]. split; [now right |].
        intros H. apply Hn. now right.
      * intros x [<- | Hx]; [right; now left |].
        destruct (Hcov x Hx) as [[Heq | Hs] | Hk]; cbn [map In]; auto.
Qed.

(** Rows of new and pairwise distinct texts all pass the filter. *)
Lemma dedupFilter_fixed (rows : list JS.object) :
  forall seen : list string,
    NoDup (map JS.JSON_stringify rows) ->
    (forall r, In r rows -> ~ In (JS.JSON_stringify r) seen) ->
    dedupFilter seen rows = rows.
Proof.
  induction rows as [| r rows IH]; intros seen Hnd Hnew; [reflexivity |].
  rewrite dedupFilter_cons. destruct (text_seen seen r) eqn:Es.
  - apply text_seen_In in Es. exfalso. apply (Hnew r); [now left | assumption].
  - f_equal. cbn [map] in Hnd. inversion Hnd as [| t ts Hnotin Hnd' Heq]; subst.
    apply IH; [assumption |].
    intros x Hx [Heq | Hs].
    + apply Hnotin. rewrite Heq. now apply in_map.
    + apply (Hnew x); [now right | assumption].
Qed.

(** A row after the others stays exactly when its text is new. *)
Lemma dedupFilter_snoc (rows : list JS.object) (r : JS.object) :
  forall seen : list string,
    dedupFilter seen (rows ++ [r])
    = (dedupFilter seen rows
       ++ if text_seen (map JS.JSON_stringify rows ++ seen) r then [] else [r])%list.
Proof.
  induction rows as [| x rows IH]; intros seen.
  - cbn [app map]. rewrite dedupFilter_cons. now destruct (text_seen seen r).
  - cbn [app map]. rewrite !dedupFilter_cons.
    assert (forall seen',
              (forall t, In t seen' <-> t = JS.JSON_stringify x \/ In t seen) ->
              text_seen (map JS.JSON_stringify rows ++ seen') r
              = text_seen (JS.JSON_stringify x
                           :: (map JS.JSON_stringify rows ++ seen)%list) r)
      as Hsame.
    { intros seen' H. apply eq_true_iff_eq. rewrite !text_seen_In.
      cbn [In]. rewrite !in_app_iff, H. intuition. }
    destruct (text_seen seen x) eqn:Es.
    + rewrite IH, (Hsame seen); [reflexivity |]. intros t.
      apply text_seen_In in Es. intuition (subst; assumption).
    + rewrite IH, (Hsame (JS.JSON_stringify x :: seen)); [reflexivity |].
      intros t. cbn [In]. intuition.
Qed.

Lemma dedupFilter_Subseq (rows : list JS.object) :
  forall seen : list string, Subseq (dedupFilter seen rows) rows.
Proof.
  induction rows as [| r rows IH]; intros seen; [constructor |].
  rewrite dedupFilter_cons. destruct (text_seen seen r).
  - apply subseq_skip, IH.
  - apply subseq_keep, IH.
Qed.

End Dedup.

(** C7, as amended.  The deduplicate action compares rows by their JSON
    text and by nothing else: a row stays exactly when no row before it has
    its text, the rows that stay keep their order, so no two of them have
    the same text and every row has its text kept; and it is idempotent. *)
Theorem dedup_first_of_each_text :
  forall rows : list JS.object,
    dedup rows = DedupSpec.dedup_by_text rows
    /\ (forall (earlier : list JS.object) (r : JS.object),
          dedup (earlier ++ [r])
          = (dedup earlier
             ++ if existsb (DedupSpec.text_same r) earlier then [] else [r])%list)
    /\ Subseq (dedup rows) rows
    /\ NoDup (map JS.JSON_stringify (dedup rows))
    /\ NoDup (dedup rows)
    /\ (forall r, In r rows ->
          exists r', In r' (dedup rows)
                     /\ JS.JSON_stringify r' = JS.JSON_stringify r)
    /\ dedup (dedup rows) = dedup rows.
Proof.
  intros rows. unfold dedup.
  destruct (dedupFilter_texts rows []) as (Hnd & Hin & Hcov).
  split; [| split; [| split; [| split; [| split; [| split]]]]].
  - apply dedupFilter_keep_first. intros t. reflexivity.
  - intros earlier r. rewrite dedupFilter_snoc. f_equal.
    assert (text_seen (map JS.JSON_stringify earlier ++ []) r
            = existsb (DedupSpec.text_same r) earlier) as ->; [| reflexivity].
    rewrite app_nil_r. apply eq_true_iff_eq.
    rewrite text_seen_In, existsb_text_same. reflexivity.
  - apply dedupFilter_Subseq.
  - exact Hnd.
  - eapply NoDup_map_inv. exact Hnd.
  - intros r Hr. destruct (Hcov r Hr) as [[] | H].
    apply in_map_iff in H. destruct H as [r' [Heq Hr']]. eauto.
  - apply dedupFilter_fixed; [exact Hnd |]. intros r _ [].
Qed.

(** C7, as stated, fails both ways.  Of the two rows [{a: Infinity}] and
    [{a: -Infinity}], which are not the same, the second is dropped, both
    having the JSON text of [{a: null}]; and of the two rows [{a: 1, b: 2}]
    and [{b: 2, a: 1}], which are the same in every column, both stay, their
    texts listing the columns in different orders. *)
Lemma dedup_counterexample :
  DedupSpec.row_same [("a", JS.VNum JS.posInfinity)]
                     [("a", JS.VNum JS.negInfinity)] = false
  /\ dedup Fixture.infinities = [[("a", JS.VNum JS.posInfinity)]]
  /\ DedupSpec.dedup_structural Fixture.infinities = Fixture.infinities
  /\ dedup Fixture.infinities <> DedupSpec.dedup_structural Fixture.infinities
  /\ DedupSpec.row_same [("a", JS.VNum 1%float); ("b", JS.VNum 2%float)]
                        [("b", JS.VNum 2%float); ("a", JS.VNum 1%float)] = true
  /\ dedup Fixture.reordered = Fixture.reordered
  /\ DedupSpec.dedup_structural Fixture.reordered
     = [[("a", JS.VNum 1%float); ("b", JS.VNum 2%float)]]
  /\ dedup Fixture.reordered <> DedupSpec.dedup_structural Fixture.reordered.
Proof.
  repeat split; try (vm_compute; reflexivity); vm_compute; discriminate.
Qed.

(** ** The column layout *)

Section ColumnLayout.

Lemma indexOf_from_found (l : list string) (x : string) :
  forall i : Z,
    In x l ->
    i <= JS.indexOf_from String.eqb l x i < i + Z.of_nat (List.length l)
    /\ nth_error l (Z.to_nat (JS.indexOf_from String.eqb l x i - i)) = Some x.
Proof.
  induction l as [| y l IH]; intros i Hin; [destruct Hin |].
  cbn [JS.indexOf_from List.length].
  destruct (String.eqb_spec y x) as [-> | Hne].
  - rewrite Z.sub_diag. split; [lia | reflexivity].
  - destruct Hin as [Heq | Hin]; [congruence |].
    destruct (IH (i + 1) Hin) as [Hb Hn]. split; [lia |].
    replace (Z.to_nat (JS.indexOf_from String.eqb l x (i + 1) - i))
      with (S (Z.to_nat (JS.indexOf_from String.eqb l x (i + 1) - (i + 1))))
      by lia.
    exact Hn.
Qed.

Lemma indexOf_from_absent (l : list string) (x : string) :
  forall i : Z, ~ In x l -> JS.indexOf_from String.eqb l x i = -1.
Proof.
  induction l as [| y l IH]; intros i Hnot; [reflexivity |].
  cbn [JS.indexOf_from].
  destruct (String.eqb_spec y x) as [-> | Hne].
  - exfalso. apply Hnot. now left.
  - apply IH. intros H. apply Hnot. now right.
Qed.

Lemma skipn_nth_error {A : Type} (l : list A) (n : nat) (x : A) :
  nth_error l n = Some x -> skipn n l = x :: skipn (S n) l.
Proof.
  revert l. induction n as [| n IH]; intros l Hn.
  - destruct l; [discriminate |]. simpl in Hn. now injection Hn as ->.
  - destruct l; [discriminate |]. simpl in Hn. now apply IH.
Qed.

Lemma splice_remove {A : Type} (l : list A) (k : nat) :
  (k < List.length l)%nat ->
  JS.Array_splice l (Z.of_nat k) 1 [] = (firstn k l ++ skipn (S k) l)%list.
Proof.
  intros Hk. unfold JS.Array_splice, JS.relative.
  destruct (Z.ltb_spec (Z.of_nat k) 0); [lia |].
  rewrite Z.min_l by lia. rewrite Nat2Z.id. cbn [app].
  do 2 f_equal. lia.
Qed.

Lemma splice_insert {A : Type} (l : list A) (k : nat) (x : A) :
  (k <= List.length l)%nat ->
  JS.Array_splice l (Z.of_nat k) 0 [x] = (firstn k l ++ x :: skipn k l)%list.
Proof.
  intros Hk. unfold JS.Array_splice, JS.relative.
  destruct (Z.ltb_spec (Z.of_nat k) 0); [lia |].
  rewrite Z.min_l by lia. rewrite Nat2Z.id. cbn [app].
  do 3 f_equal. lia.
Qed.

(** Whatever the indices are, the second [splice] puts the source in. *)
Lemma splice_insert_In {A : Type} (l : list A) (k : Z) (x : A) :
  In x (JS.Array_splice l k 0 [x]).
Proof.
  unfold JS.Array_splice. rewrite !in_app_iff. right. left. now left.
Qed.

(** A drop without a source, or onto its own column, does nothing. *)
Lemma column_drop_noop (source target : string) (st : AppState) :
  source = "" \/ source = target -> handleColumnDrop source target st = st.
Proof.
  unfold handleColumnDrop. intros [-> | ->]; [reflexivity |].
  rewrite String.eqb_refl, orb_true_r. reflexivity.
Qed.

Lemma column_drop_order (source target : string) (st : AppState) :
  source <> "" -> source <> target ->
  columnOrder (handleColumnDrop source target st)
  = JS.Array_splice
      (JS.Array_splice (columnOrder st)
                       (JS.Array_indexOf String.eqb (columnOrder st) source) 1 [])
      (JS.Array_indexOf String.eqb (columnOrder st) target) 0 [source].
Proof.
  intros H1 H2. unfold handleColumnDrop.
  destruct (String.eqb_spec source ""); [congruence |].
  destruct (String.eqb_spec source target); [congruence |].
  reflexivity.
Qed.

(** A source and a target that are both in the order: the source leaves its
    place and enters at the index the target had; the order is permuted. *)
Lemma column_drop_reorders (source target : string) (st : AppState) :
  source <> "" -> source <> target ->
  In source (columnOrder st) -> In target (columnOrder st) ->
  Permutation (columnOrder st) (columnOrder (handleColumnDrop source target st))
  /\ JS.Array_get (columnOrder (handleColumnDrop source target st))
                  (JS.Array_indexOf String.eqb (columnOrder st) target)
     = Some source.
Proof.
  intros H1 H2 Hs Ht. rewrite column_drop_order by assumption.
  unfold JS.Array_indexOf.
  destruct (indexOf_from_found _ _ 0 Hs) as [Hsb Hsn].
  destruct (indexOf_from_found _ _ 0 Ht) as [Htb Htn].
  set (l := columnOrder st) in *.
  set (s := JS.indexOf_from String.eqb l source 0) in *.
  set (t := JS.indexOf_from String.eqb l target 0) in *.
  rewrite Z.sub_0_r in Hsn, Htn.
  assert (s <> t) as Hst.
  { intros E. rewrite E in Hsn. congruence. }
  rewrite <- (Z2Nat.id s), <- (Z2Nat.id t) by lia.
  set (sn := Z.to_nat s) in *. set (tn := Z.to_nat t) in *.
  assert (sn < List.length l)%nat as Hsl by lia.
  assert (tn < List.length l)%nat as Htl by lia.
  rewrite splice_remove by assumption.
  set (l1 := (firstn sn l ++ skipn (S sn) l)%list).
  assert (List.length l1 = (List.length l - 1)%nat) as Hl1.
  { unfold l1. rewrite length_app, length_firstn, length_skipn. lia. }
  rewrite splice_insert by lia.
  split.
  - transitivity (source :: l1).
    + unfold l1. rewrite <- (firstn_skipn sn l) at 1.
      rewrite (Permutation_middle (firstn sn l) (skipn (S sn) l) source).
      apply Permutation_app_head.
      now rewrite (skipn_nth_error l sn source Hsn).
    + rewrite <- (firstn_skipn tn l1) at 1. apply Permutation_middle.
  - unfold JS.Array_get.
    destruct (Z.ltb_spec (Z.of_nat tn) 0); [lia |].
    rewrite Nat2Z.id, nth_error_app2; rewrite length_firstn; [| lia].
    replace (tn - Nat.min tn (List.length l1))%nat with 0%nat by lia.
    reflexivity.
Qed.

(** A source that is not in the order still enters it. *)
Lemma column_drop_foreign_source (source target : string) (st : AppState) :
  source <> "" -> source <> target ->
  ~ In source (columnOrder st) ->
  columnOrder (handleColumnDrop source target st) <> columnOrder st.
Proof.
  intros H1 H2 Hnot E. apply Hnot. rewrite <- E.
  rewrite column_drop_order by assumption. apply splice_insert_In.
Qed.

End ColumnLayout.

(** C8: the failing input.  With the order a, b, c, a drop of a source
    column z, which is not in the order, on the column a removes the last
    column and puts z first. *)
Theorem column_drop_unknown_source :
  ~ In "z" (columnOrder Fixture.threeColumns)
  /\ columnOrder (handleColumnDrop "z" "a" Fixture.threeColumns)
     = ["z"; "a"; "b"]
  /\ columnOrder (handleColumnDrop "c" "a" Fixture.threeColumns)
     = ["c"; "a"; "b"]
  /\ handleColumnDrop "a" "a" Fixture.threeColumns = Fixture.threeColumns.
Proof.
  repeat split; try (vm_compute; reflexivity).
  vm_compute. intuition discriminate.
Qed.

(** ** Start-up *)

Section Startup.

Lemma getItemOr_missing (storage : Storage) (key fallback : string) :
  storage key = None \/ storage key = Some "" ->
  getItemOr storage key fallback = fallback.
Proof. unfold getItemOr. now intros [-> | ->]. Qed.

(** Nothing stored, or the empty text: the collections start empty. *)
Lemma load_missing (storage : Storage) :
  (storage "datasets" = None \/ storage "datasets" = Some "") ->
  (storage "sessions" = None \/ storage "sessions" = Some "") ->
  loadPersisted storage
  = JS.Normal (initTheme storage, JS.JArray [], JS.JArray []).
Proof.
  intros Hd Hs. unfold loadPersisted, initDatasets, initSessions.
  rewrite !getItemOr_missing by assumption. reflexivity.
Qed.

(** The theme initializer never throws and falls back to the light theme. *)
Lemma theme_defaults (storage : Storage) :
  storage "theme" <> Some "dark" -> initTheme storage = light.
Proof.
  unfold initTheme. destruct (storage "theme") as [saved |]; [| reflexivity].
  intros H. destruct (String.eqb_spec saved "dark"); [congruence |].
  now destruct (String.eqb saved "light").
Qed.

End Startup.

(** C9: the failing input.  A stored dataset list that is not JSON makes the
    initializer throw a SyntaxError, and with it the load; nothing stored
    gives empty collections, and a stored theme that is no theme gives the
    light one. *)
Theorem corrupt_store_throws :
  Fixture.corruptStorage "datasets" = Some "[{"
  /\ (forall fuel, JS.parse_value fuel (list_ascii_of_string "[{") = None)
  /\ initDatasets Fixture.corruptStorage = JS.Throw JS.SyntaxError
  /\ loadPersisted Fixture.corruptStorage = JS.Throw JS.SyntaxError
  /\ loadPersisted Fixture.emptyStorage
     = JS.Normal (light, JS.JArray [], JS.JArray [])
  /\ initTheme Fixture.oddThemeStorage = light.
Proof.
  split; [reflexivity |]. split; [exact cut_short_is_no_json |].
  repeat split; vm_compute; reflexivity.
Qed.

(** ** The window's tags and the cell edit *)

Section CellEdit.

Variable localeCompare : string -> string -> JS.number.

Lemma mapi_from_In {A B : Type} (f : A -> Z -> B) (l : list A) :
  forall (i : Z) (y : B),
    In y (JS.mapi_from f i l) ->
    exists (j : nat) (x : A),
      nth_error l j = Some x /\ y = f x (i + Z.of_nat j).
Proof.
  induction l as [| a l IH]; intros i y Hin; [destruct Hin |].
  destruct Hin as [<- | Hin].
  - exists 0%nat, a. split; [reflexivity |]. now rewrite Z.add_0_r.
  - destruct (IH _ _ Hin) as (j & x & Hj & ->).
    exists (S j), x. split; [assumption |]. f_equal. lia.
Qed.

Lemma nth_error_firstn_skipn {A : Type} (l : list A) (c k j : nat) (x : A) :
  nth_error (firstn c (skipn k l)) j = Some x ->
  nth_error l (k + j) = Some x.
Proof.
  intros H. destruct (Nat.lt_ge_cases j c) as [Hlt | Hge].
  - rewrite nth_error_firstn in H.
    destruct (Nat.ltb_spec j c); [| lia].
    now rewrite nth_error_skipn in H.
  - assert (nth_error (firstn c (skipn k l)) j = None) as E.
    { apply nth_error_None. rewrite length_firstn. lia. }
    congruence.
Qed.

(** The tag of a row of the window is its position in the pipeline's
    output. *)
Lemma visible_row_tag (st : AppState) (vr : VisibleRow) :
  In vr (visibleRows localeCompare st) ->
  JS.Array_get (processedRows localeCompare st) (originalIndex vr)
  = Some (data vr).
Proof.
  unfold visibleRows. intros Hin.
  apply mapi_from_In in Hin. destruct Hin as (j & row & Hj & ->).
  cbn [originalIndex data].
  unfold JS.Array_slice in Hj. apply nth_error_firstn_skipn in Hj.
  assert (0 <= startIndex st) as H0
    by (unfold startIndex, windowStart, JS.Math_max; lia).
  unfold JS.relative in Hj.
  destruct (Z.ltb_spec (startIndex st) 0) as [| _]; [lia |].
  assert (Z.to_nat (Z.min (startIndex st)
                          (Z.of_nat (List.length (processedRows localeCompare st))))
          + j < List.length (processedRows localeCompare st))%nat as Hlt
    by (apply nth_error_Some; congruence).
  unfold JS.Array_get. rewrite Z.add_0_l.
  destruct (Z.ltb_spec (startIndex st + Z.of_nat j) 0); [lia |].
  rewrite <- Hj. f_equal. lia.
Qed.

(** With no filter, no search text and no sort direction the pipeline gives
    the Row Store, and a tag is a position in it. *)
Lemma processedRows_identity (st : AppState) :
  activeFilters st = [] -> searchQuery st = "" ->
  SortConfig.direction (sortConfig st) = None ->
  processedRows localeCompare st = rowStore st.
Proof.
  intros Hf Hq Hd. unfold processedRows, rowStore, computeView.
  destruct (activeDataset st); [| reflexivity].
  rewrite Hf, Hq. cbn [filterStage List.length Nat.ltb Nat.leb searchStage String.eqb].
  now apply sortStage_none.
Qed.

Lemma Array_set_nth {A : Type} (l : list A) (i : nat) (x : A) :
  (i < List.length l)%nat ->
  nth_error (JS.Array_set l i x) i = Some x
  /\ forall j, j <> i -> nth_error (JS.Array_set l i x) j = nth_error l j.
Proof.
  revert i. induction l as [| y l IH]; intros i Hi; [simpl in Hi; lia |].
  destruct i as [| i].
  - split; [reflexivity |]. intros [| j] Hj; [congruence | reflexivity].
  - simpl in Hi. destruct (IH i ltac:(lia)) as [H1 H2].
    split; [exact H1 |]. intros [| j] Hj; [reflexivity |].
    simpl. apply H2. congruence.
Qed.

(** An edit replaces the row at the position it is given, whatever is
    shown there, and no other. *)
Lemma editRows_position (rows rows' : list JS.object) (i : Z) (col : string)
    (v : JS.value) :
  editRows rows i col v = JS.Normal rows' ->
  exists row : JS.object,
    JS.Array_get rows i = Some row
    /\ JS.Array_get rows' i
       = Some (JS.set_prop row col
                 (if JS.is_number (JS.get row col) then JS.VNum (JS.ToNumber v)
                  else v))
    /\ forall j, j <> i -> JS.Array_get rows' j = JS.Array_get rows j.
Proof.
  unfold editRows. destruct (JS.Array_get rows i) as [row |] eqn:E;
    [| discriminate].
  intros H. injection H as <-. exists row. split; [reflexivity |].
  unfold JS.Array_get in *.
  destruct (Z.ltb_spec i 0); [discriminate |].
  assert (Z.to_nat i < List.length rows)%nat as Hlt
    by (apply nth_error_Some; congruence).
  destruct (Array_set_nth rows (Z.to_nat i)
              (JS.set_prop row col
                 (if JS.is_number (JS.get row col) then JS.VNum (JS.ToNumber v)
                  else v)) Hlt) as [H1 H2].
  split; [exact H1 |].
  intros j Hj. destruct (Z.ltb_spec j 0); [reflexivity |].
  apply H2. lia.
Qed.

End CellEdit.

(** C1: the failing input.  Under the filter [a > 1] the one row shown, at
    window position 0, is the second row of the Row Store, and its tag is 0;
    committing the edit of its cell [a] to 5 rewrites the first row of the
    Row Store and leaves the row that was shown as it was.  With no filter
    the same edit rewrites the row that is shown. *)
Theorem cell_edit_hits_display_position :
  forall localeCompare : string -> string -> JS.number,
    rowStore Fixture.filtered
    = [[("a", JS.VNum 1%float)]; [("a", JS.VNum 2%float)]]
    /\ visibleRows localeCompare Fixture.filtered
       = [{| data := [("a", JS.VNum 2%float)]; originalIndex := 0 |}]
    /\ JS.bind (handleCellEdit 0 "a" (JS.VStr "5") Fixture.filtered)
               (fun st' => JS.Normal (rowStore st'))
       = JS.Normal [[("a", JS.VNum 5%float)]; [("a", JS.VNum 2%float)]]
    /\ visibleRows localeCompare Fixture.unfiltered
       = [{| data := [("a", JS.VNum 1%float)]; originalIndex := 0 |};
          {| data := [("a", JS.VNum 2%float)]; originalIndex := 1 |}]
    /\ JS.bind (handleCellEdit 0 "a" (JS.VStr "5") Fixture.unfiltered)
               (fun st' => JS.Normal (rowStore st'))
       = JS.Normal [[("a", JS.VNum 5%float)]; [("a", JS.VNum 2%float)]].
Proof. intros lc. repeat split; vm_compute; reflexivity. Qed.

(** ** Worked examples of the pipeline *)

Section Pipeline.

Example word_is_not_greater :
  filterStage [ActiveFilter.mk "f" "a" "gt" (JS.VStr "1") JS.VUndefined]
              [[("a", JS.VStr "abc")]; [("a", JS.VStr "2")]; [("b", JS.VNum 3%float)]]
  = [[("a", JS.VStr "2")]].
Proof. vm_compute. reflexivity. Qed.

Example between_is_inclusive :
  filterStage [ActiveFilter.mk "f" "a" "between" (JS.VStr "1") (JS.VStr "2")]
              [[("a", JS.VNum 1%float)]; [("a", JS.VNum 2%float)];
               [("a", JS.VNum 3%float)]; [("a", JS.VStr "x")]]
  = [[("a", JS.VNum 1%float)]; [("a", JS.VNum 2%float)]].
Proof. vm_compute. reflexivity. Qed.

Example between_without_end_keeps_nothing :
  filterStage [ActiveFilter.mk "f" "a" "between" (JS.VStr "1") JS.VUndefined]
              [[("a", JS.VNum 1%float)]; [("a", JS.VNum 2%float)]]
  = [].
Proof. vm_compute. reflexivity. Qed.

Example contains_ignores_case :
  filterStage [ActiveFilter.mk "f" "b" "contains" (JS.VStr "LIC") JS.VUndefined]
              [[("b", JS.VStr "Alice")]; [("b", JS.VStr "Bob")]]
  = [[("b", JS.VStr "Alice")]].
Proof. vm_compute. reflexivity. Qed.

Example unknown_operator_keeps :
  filterStage [ActiveFilter.mk "f" "a" "startsWith" (JS.VStr "x") JS.VUndefined]
              [[("a", JS.VNum 1%float)]]
  = [[("a", JS.VNum 1%float)]].
Proof. vm_compute. reflexivity. Qed.

(** The example of the specification: three rows, the filter [a equals 1],
    then the deduplication. *)
Example filter_then_dedup :
  let x := [("a", JS.VNum 1%float); ("b", JS.VStr "x")] in
  let y := [("a", JS.VNum 2%float); ("b", JS.VStr "y")] in
  filterStage [ActiveFilter.mk "f" "a" "equals" (JS.VNum 1%float) JS.VUndefined]
              [x; y; x] = [x; x]
  /\ dedup [x; x] = [x].
Proof. split; vm_compute; reflexivity. Qed.

(** The example of the specification: the rows 3, 1, 2 under one, two and
    three sort requests on their column. *)
Example sort_requests :
  let r (n : JS.number) := [("a", JS.VNum n)] in
  let st0 :=
    Fixture.explorer ["a"] [r 3%float; r 1%float; r 2%float] [] ""
                     Fixture.noSort 0 0 in
  let st1 := handleSort "a" st0 in
  let st2 := handleSort "a" st1 in
  let st3 := handleSort "a" st2 in
  processedRows Fixture.noCollation st1 = [r 1%float; r 2%float; r 3%float]
  /\ processedRows Fixture.noCollation st2 = [r 3%float; r 2%float; r 1%float]
  /\ processedRows Fixture.noCollation st3 = [r 3%float; r 1%float; r 2%float]
  /\ rowStore st3 = [r 3%float; r 1%float; r 2%float].
Proof. repeat split; vm_compute; reflexivity. Qed.

Example search_after_filter :
  computeView Fixture.noCollation
    [[("a", JS.VNum 1%float); ("b", JS.VStr "Alice")];
     [("a", JS.VNum 2%float); ("b", JS.VStr "Bob")];
     [("a", JS.VNum 3%float); ("b", JS.VStr "alice")]]
    [ActiveFilter.mk "f" "a" "gt" (JS.VStr "1") JS.VUndefined]
    "ALI" Fixture.noSort
  = [[("a", JS.VNum 3%float); ("b", JS.VStr "alice")]].
Proof. vm_compute. reflexivity. Qed.

End Pipeline.

(** * Further properties of the engine *)

(** ** The pipeline as a view of the Row Store *)

Section PipelineView.

Variable localeCompare : string -> string -> JS.number.

Lemma Subseq_refl {A : Type} (l : list A) : Subseq l l.
Proof. induction l; constructor; assumption. Qed.

Lemma Subseq_trans {A : Type} (l m n : list A) :
  Subseq l m -> Subseq m n -> Subseq l n.
Proof.
  intros H1 H2. revert l H1.
  induction H2 as [| x m n H IH | x m n H IH]; intros l H1.
  - assumption.
  - constructor. now apply IH.
  - inversion H1; subst; constructor; now apply IH.
Qed.

Lemma Subseq_In {A : Type} (l m : list A) (x : A) :
  Subseq l m -> In x l -> In x m.
Proof.
  induction 1 as [| y l m H IH | y l m H IH]; simpl; intuition.
Qed.

Lemma Subseq_length {A : Type} (l m : list A) :
  Subseq l m -> (List.length l <= List.length m)%nat.
Proof. induction 1; simpl; lia. Qed.

Lemma filter_Subseq {A : Type} (p : A -> bool) (l : list A) :
  Subseq (filter p l) l.
Proof.
  induction l as [| x l IH]; simpl; [constructor |].
  destruct (p x); constructor; assumption.
Qed.

Lemma filterStage_Subseq (filters : list ActiveFilter.t) (rows : list JS.object) :
  Subseq (filterStage filters rows) rows.
Proof. rewrite filterStage_filter. apply filter_Subseq. Qed.

Lemma searchStage_Subseq (query : string) (rows : list JS.object) :
  Subseq (searchStage query rows) rows.
Proof.
  unfold searchStage. destruct (String.eqb query "");
    [apply Subseq_refl | apply filter_Subseq].
Qed.

Lemma sortStage_unsorted (cfg : SortConfig.t) (rows : list JS.object) :
  SortConfig.direction cfg = None \/ SortConfig.key cfg = "" ->
  sortStage localeCompare cfg rows = rows.
Proof.
  unfold sortStage. intros [-> | ->]; [now destruct (String.eqb _ _) |].
  reflexivity.
Qed.

End PipelineView.

(** X1.  Whatever the filters, the search text and the sort are, the rows
    the pipeline gives are rows of the Row Store: a selection of them that
    keeps their order, then permuted by the sort; with no sort direction or
    no sort column the selection itself.  So the pipeline never shows more
    rows than the store has. *)
Theorem pipeline_selects_store_rows :
  forall (localeCompare : string -> string -> JS.number) (st : AppState),
    (exists kept : list JS.object,
        Subseq kept (rowStore st)
        /\ Permutation kept (processedRows localeCompare st)
        /\ (SortConfig.direction (sortConfig st) = None
            \/ SortConfig.key (sortConfig st) = "" ->
            processedRows localeCompare st = kept))
    /\ (forall row, In row (processedRows localeCompare st) -> In row (rowStore st))
    /\ (List.length (processedRows localeCompare st)
        <= List.length (rowStore st))%nat.
Proof.
  intros lc st.
  assert (exists kept : list JS.object,
             Subseq kept (rowStore st)
             /\ Permutation kept (processedRows lc st)
             /\ (SortConfig.direction (sortConfig st) = None
                 \/ SortConfig.key (sortConfig st) = "" ->
                 processedRows lc st = kept)) as Hk.
  { unfold processedRows, rowStore. destruct (activeDataset st) as [d |].
    - exists (searchStage (searchQuery st)
                          (filterStage (activeFilters st) (Dataset.rows d))).
      split; [| split].
      + eapply Subseq_trans; [apply searchStage_Subseq | apply filterStage_Subseq].
      + apply sortStage_perm.
      + intros H. now apply sortStage_unsorted.
    - exists []. split; [constructor |]. split; [constructor | reflexivity]. }
  split; [exact Hk |].
  destruct Hk as (kept & Hsub & Hperm & _). split.
  - intros row Hin. apply (Subseq_In kept); [assumption |].
    apply (Permutation_in row (Permutation_sym Hperm)). assumption.
  - rewrite <- (Permutation_length Hperm). now apply Subseq_length.
Qed.

(** ** The search stage *)

Section SearchStage.

Lemma toLowerCase_empty (s : string) : JS.toLowerCase s = "" <-> s = "".
Proof. destruct s; simpl; split; congruence. Qed.

Lemma search_hit_decided (query : string) (row : JS.object) :
  existsb (fun val => JS.includes (JS.toLowerCase (JS.ToString val))
                                  (JS.toLowerCase query))
          (JS.Object_values row) = true
  <-> SearchHit query row.
Proof.
  rewrite existsb_exists. unfold SearchHit.
  split; intros [val [Hin H]]; exists val; (split; [assumption |]);
    now apply includes_substring.
Qed.

Lemma searchStage_In (query : string) (rows : list JS.object) (row : JS.object) :
  In row (searchStage query rows)
  <-> In row rows /\ (query = "" \/ SearchHit query row).
Proof.
  unfold searchStage.
  destruct (String.eqb_spec query "") as [-> | Hne].
  - intuition.
  - rewrite filter_In, search_hit_decided. intuition.
Qed.

End SearchStage.

(** X2.  The search stage keeps a row exactly when the search text is empty
    or occurs, letter case aside, in the string form of one of the row's
    cells. *)
Theorem search_keeps_rows_with_a_hit :
  forall (query : string) (rows : list JS.object) (row : JS.object),
    In row (searchStage query rows)
    <-> In row rows /\ (query = "" \/ SearchHit query row).
Proof. exact searchStage_In. Qed.

(** X3.  Two search texts that differ only in letter case select the same
    rows. *)
Theorem search_ignores_query_case :
  forall (q1 q2 : string) (rows : list JS.object),
    JS.toLowerCase q1 = JS.toLowerCase q2 ->
    searchStage q1 rows = searchStage q2 rows.
Proof.
  intros q1 q2 rows H. unfold searchStage.
  destruct (String.eqb_spec q1 "") as [-> | H1].
  - symmetry in H. change (JS.toLowerCase "") with "" in H.
    apply (proj1 (toLowerCase_empty q2)) in H. rewrite H. reflexivity.
  - destruct (String.eqb_spec q2 "") as [-> | H2].
    + change (JS.toLowerCase "") with "" in H.
      apply (proj1 (toLowerCase_empty q1)) in H. congruence.
    + now rewrite H.
Qed.

(** The texts [ALI] and [ali] select the same rows. *)
Lemma search_ignores_query_case_witness :
  JS.toLowerCase "ALI" = JS.toLowerCase "ali"
  /\ searchStage "ALI" [[("b", JS.VStr "Alice")]; [("b", JS.VStr "Bob")]]
     = searchStage "ali" [[("b", JS.VStr "Alice")]; [("b", JS.VStr "Bob")]].
Proof.
  split; [reflexivity |].
  apply (search_ignores_query_case "ALI" "ali"). reflexivity.
Defined.

(** ** Several filters *)

Section FilterLists.

Lemma forallb_perm {A : Type} (p : A -> bool) (l m : list A) :
  Permutation l m -> forallb p l = forallb p m.
Proof.
  induction 1 as [| x l m H IH | x y l | l m n H1 IH1 H2 IH2]; simpl.
  - reflexivity.
  - now rewrite IH.
  - now rewrite !andb_assoc, (andb_comm (p y)).
  - congruence.
Qed.

Lemma filter_filter {A : Type} (p q : A -> bool) (l : list A) :
  filter q (filter p l) = filter (fun x => p x && q x) l.
Proof.
  induction l as [| x l IH]; simpl; [reflexivity |].
  destruct (p x) eqn:Ep; simpl; [| assumption].
  destruct (q x); simpl; now rewrite IH.
Qed.

End FilterLists.

(** X4.  The order in which the active filters are listed does not matter:
    two lists holding the same filters select the same rows. *)
Theorem filters_in_any_order :
  forall (fs gs : list ActiveFilter.t) (rows : list JS.object),
    Permutation fs gs -> filterStage fs rows = filterStage gs rows.
Proof.
  intros fs gs rows H. rewrite !filterStage_filter.
  apply filter_ext. intros row. now apply forallb_perm.
Qed.

(** Two filters listed one way and the other. *)
Lemma filters_in_any_order_witness :
  let A := ActiveFilter.mk "f1" "a" "gt" (JS.VStr "1") JS.VUndefined in
  let B := ActiveFilter.mk "f2" "b" "contains" (JS.VStr "x") JS.VUndefined in
  Permutation [A; B] [B; A]
  /\ filterStage [A; B] [[("a", JS.VNum 2%float); ("b", JS.VStr "xy")]]
     = filterStage [B; A] [[("a", JS.VNum 2%float); ("b", JS.VStr "xy")]].
Proof.
  split; [apply perm_swap |].
  apply filters_in_any_order. apply perm_swap.
Defined.

(** X5.  Filtering by a list of filters followed by more filters is
    filtering by the first list and then, on what is left, by the others:
    every further filter only narrows the view. *)
Theorem filters_compose :
  forall (fs gs : list ActiveFilter.t) (rows : list JS.object),
    filterStage (fs ++ gs) rows = filterStage gs (filterStage fs rows)
    /\ Subseq (filterStage (fs ++ gs) rows) (filterStage fs rows).
Proof.
  intros fs gs rows.
  assert (filterStage (fs ++ gs) rows = filterStage gs (filterStage fs rows)) as E.
  { rewrite !filterStage_filter, filter_filter.
    apply filter_ext. intros row. apply forallb_app. }
  split; [exact E |]. rewrite E. apply filterStage_Subseq.
Qed.


(** ** Drill-down and the removal of a filter *)

Section FilterControls.

Variable localeCompare : string -> string -> JS.number.

(** The rows of the pipeline, by membership. *)
Lemma processedRows_In (st : AppState) (row : JS.object) :
  In row (processedRows localeCompare st)
  <-> In row (rowStore st)
      /\ forallb (filterPredicate row) (activeFilters st) = true
      /\ (searchQuery st = "" \/ SearchHit (searchQuery st) row).
Proof.
  unfold processedRows, rowStore. destruct (activeDataset st) as [d |].
  - unfold computeView. split.
    + intros H.
      apply (Permutation_in row (Permutation_sym (sortStage_perm localeCompare _ _))) in H.
      apply searchStage_In in H. destruct H as [H Hs].
      rewrite filterStage_filter in H. apply filter_In in H. tauto.
    + intros (Hin & Hf & Hs).
      apply (Permutation_in row (sortStage_perm localeCompare _ _)).
      apply searchStage_In. split; [| assumption].
      rewrite filterStage_filter. apply filter_In. tauto.
  - simpl. tauto.
Qed.

Lemma filter_negb_id_keeps {A : Type} (p : A -> bool) (l : list A) :
  (forall x, In x l -> p x = true) -> filter p l = l.
Proof.
  intros H. apply forallb_filter_id. now apply forallb_forall.
Qed.

End FilterControls.

(** X6.  A drill-down into a column that is no name of [Object.prototype]
    adds one [equals] filter after the filters that are active, which all
    stay, and shows the Data Explorer; the rows shown afterwards are the rows
    shown before whose cell in the column has the string form of the value
    drilled into. *)
Theorem drill_down_narrows_the_view :
  forall (localeCompare : string -> string -> JS.number)
         (fresh col : string) (val : JS.value) (st : AppState),
    inherited col = false ->
    activeFilters (onDrillDown fresh col val st)
    = (activeFilters st
       ++ [ActiveFilter.mk fresh col "equals" val JS.VUndefined])%list
    /\ view (onDrillDown fresh col val st) = View.data
    /\ rowStore (onDrillDown fresh col val st) = rowStore st
    /\ forall row,
         In row (processedRows localeCompare (onDrillDown fresh col val st))
         <-> In row (processedRows localeCompare st)
             /\ JS.ToString (JS.get row col) = JS.ToString val.
Proof.
  intros lc fresh col val st _.
  split; [reflexivity |]. split; [reflexivity |]. split; [reflexivity |].
  intros row. rewrite !processedRows_In.
  change (rowStore (onDrillDown fresh col val st)) with (rowStore st).
  change (searchQuery (onDrillDown fresh col val st)) with (searchQuery st).
  change (activeFilters (onDrillDown fresh col val st))
    with (activeFilters st
          ++ [ActiveFilter.mk fresh col "equals" val JS.VUndefined])%list.
  rewrite forallb_app. cbn [forallb]. rewrite andb_true_r, andb_true_iff.
  change (filterPredicate row
            (ActiveFilter.mk fresh col "equals" val JS.VUndefined))
    with (String.eqb (JS.ToString (JS.get row col)) (JS.ToString val)).
  rewrite String.eqb_eq. tauto.
Qed.

(** A drill-down into the value 2 of the column [a] of the unfiltered
    fixture. *)
Lemma drill_down_narrows_the_view_witness :
  processedRows Fixture.noCollation
    (onDrillDown "f9" "a" (JS.VNum 2%float) Fixture.unfiltered)
  = [[("a", JS.VNum 2%float)]]
  /\ view (onDrillDown "f9" "a" (JS.VNum 2%float) Fixture.unfiltered)
     = View.data.
Proof.
  split; [vm_compute; reflexivity |].
  apply (proj1 (proj2 (drill_down_narrows_the_view Fixture.noCollation
                         "f9" "a" (JS.VNum 2%float) Fixture.unfiltered
                         eq_refl))).
Defined.

(** X7.  Removing a filter by its identifier removes every active filter of
    that identifier and no other, keeps the others in their order, and
    only widens the view: each row shown before is still shown. *)
Theorem remove_filter_widens_the_view :
  forall (localeCompare : string -> string -> JS.number) (i : string)
         (st : AppState),
    (forall f, In f (activeFilters (removeFilter i st))
               <-> In f (activeFilters st) /\ ActiveFilter.id f <> i)
    /\ Subseq (activeFilters (removeFilter i st)) (activeFilters st)
    /\ forall row, In row (processedRows localeCompare st) ->
                   In row (processedRows localeCompare (removeFilter i st)).
Proof.
  intros lc i st.
  change (activeFilters (removeFilter i st))
    with (filter (fun f => negb (String.eqb (ActiveFilter.id f) i))
                 (activeFilters st)).
  split; [| split].
  - intros f. rewrite filter_In, negb_true_iff.
    destruct (String.eqb_spec (ActiveFilter.id f) i); intuition congruence.
  - apply filter_Subseq.
  - intros row. rewrite !processedRows_In.
    change (rowStore (removeFilter i st)) with (rowStore st).
    change (searchQuery (removeFilter i st)) with (searchQuery st).
    change (activeFilters (removeFilter i st))
      with (filter (fun f => negb (String.eqb (ActiveFilter.id f) i))
                   (activeFilters st)).
    intros (Hin & Hf & Hs). split; [assumption |]. split; [| assumption].
    rewrite forallb_forall in Hf. apply forallb_forall.
    intros f Hfin. apply filter_In in Hfin. apply Hf. tauto.
Qed.

(** X8.  A drill-down followed by the removal of the filter it added gives
    back the filters that were active, when the identifier drawn for the new
    filter is the identifier of no active filter. *)
Theorem drill_down_then_remove :
  forall (fresh col : string) (val : JS.value) (st : AppState),
    (forall f, In f (activeFilters st) -> ActiveFilter.id f <> fresh) ->
    activeFilters (removeFilter fresh (onDrillDown fresh col val st))
    = activeFilters st.
Proof.
  intros fresh col val st Hfresh.
  change (activeFilters (removeFilter fresh (onDrillDown fresh col val st)))
    with (filter (fun f => negb (String.eqb (ActiveFilter.id f) fresh))
                 (activeFilters st
                  ++ [ActiveFilter.mk fresh col "equals" val JS.VUndefined])).
  rewrite filter_app. cbn [filter ActiveFilter.id].
  rewrite String.eqb_refl. cbn [negb]. rewrite app_nil_r.
  apply filter_negb_id_keeps. intros f Hin. apply negb_true_iff.
  apply String.eqb_neq. now apply Hfresh.
Qed.

(** A drill-down on the filtered view, undone. *)
Lemma drill_down_then_remove_witness :
  (forall f, In f (activeFilters Fixture.filtered) -> ActiveFilter.id f <> "f2")
  /\ activeFilters
       (removeFilter "f2" (onDrillDown "f2" "a" (JS.VNum 2%float) Fixture.filtered))
     = activeFilters Fixture.filtered.
Proof.
  assert (forall f, In f (activeFilters Fixture.filtered) ->
                    ActiveFilter.id f <> "f2") as H.
  { intros f [<- | []]. simpl. discriminate. }
  split; [exact H |].
  apply (drill_down_then_remove "f2" "a" (JS.VNum 2%float) Fixture.filtered H).
Defined.

(** ** A filter on a column the row does not have *)

(** X9.  On a row without the filter's column, the column being no name of
    [Object.prototype], the cell reads [undefined]: [gt], [lt] and [between]
    exclude the row, while [equals] keeps it exactly when the string form of
    the bound is [undefined] and [contains] exactly when the lower-cased
    bound occurs in [undefined]. *)
Theorem filter_on_a_missing_column :
  forall (row : JS.object) (f : ActiveFilter.t),
    inherited (ActiveFilter.column f) = false ->
    JS.has row (ActiveFilter.column f) = false ->
    (In (ActiveFilter.operator f) ["gt"; "lt"; "between"] ->
     filterPredicate row f = false)
    /\ (ActiveFilter.operator f = "equals" ->
        filterPredicate row f
        = String.eqb "undefined" (JS.ToString (ActiveFilter.value f)))
    /\ (ActiveFilter.operator f = "contains" ->
        filterPredicate row f
        = JS.includes "undefined"
                      (JS.toLowerCase (JS.ToString (ActiveFilter.value f)))).
Proof.
  intros row f _ Hmiss.
  assert (JS.get row (ActiveFilter.column f) = JS.VUndefined) as Hget.
  { induction row as [| [k v] row IH]; [reflexivity |].
    simpl in Hmiss |- *. apply orb_false_iff in Hmiss. destruct Hmiss as [-> H].
    now apply IH. }
  split; [| split].
  - intros Hop. apply NaN_operand_excluded; [assumption |].
    left. rewrite Hget. reflexivity.
  - intros Hop. unfold filterPredicate. rewrite Hop, Hget. reflexivity.
  - intros Hop. unfold filterPredicate. rewrite Hop, Hget. reflexivity.
Qed.

(** A row with the column [b] only, under filters on the column [a]. *)
Lemma filter_on_a_missing_column_witness :
  JS.has [("b", JS.VNum 3%float)] "a" = false
  /\ filterPredicate [("b", JS.VNum 3%float)]
       (ActiveFilter.mk "f" "a" "gt" (JS.VStr "1") JS.VUndefined) = false
  /\ filterPredicate [("b", JS.VNum 3%float)]
       (ActiveFilter.mk "f" "a" "contains" (JS.VStr "DEF") JS.VUndefined) = true.
Proof.
  split; [reflexivity |]. split.
  - apply (proj1 (filter_on_a_missing_column [("b", JS.VNum 3%float)]
             (ActiveFilter.mk "f" "a" "gt" (JS.VStr "1") JS.VUndefined)
             eq_refl eq_refl)).
    left. reflexivity.
  - rewrite (proj2 (proj2 (filter_on_a_missing_column [("b", JS.VNum 3%float)]
             (ActiveFilter.mk "f" "a" "contains" (JS.VStr "DEF") JS.VUndefined)
             eq_refl eq_refl)) eq_refl).
    reflexivity.
Defined.


(** ** The window over the pipeline's rows *)

Section WindowRows.

Variable localeCompare : string -> string -> JS.number.


Lemma mapi_from_nth {A B : Type} (f : A -> Z -> B) (l : list A) :
  forall (i : Z) (j : nat),
    nth_error (JS.mapi_from f i l) j
    = option_map (fun x => f x (i + Z.of_nat j)) (nth_error l j).
Proof.
  induction l as [| a l IH]; intros i j.
  - destruct j; reflexivity.
  - destruct j as [| j]; simpl.
    + now rewrite Z.add_0_r.
    + rewrite IH. destruct (nth_error l j); simpl; [| reflexivity].
      do 2 f_equal. lia.
Qed.









End WindowRows.





(** X12.  The rows of the window are consecutive rows of the pipeline's
    output: the row at place [k] of the window is tagged [startIndex + k] and
    is the row at that position of the output. *)
Theorem window_rows_are_consecutive :
  forall (localeCompare : string -> string -> JS.number) (st : AppState)
         (k : nat) (vr : VisibleRow),
    nth_error (visibleRows localeCompare st) k = Some vr ->
    originalIndex vr = startIndex st + Z.of_nat k
    /\ JS.Array_get (processedRows localeCompare st) (originalIndex vr)
       = Some (data vr).
Proof.
  intros lc st k vr H. split.
  - unfold visibleRows in H. rewrite mapi_from_nth in H.
    destruct (nth_error _ k); [| discriminate].
    simpl in H. injection H as <-. simpl. lia.
  - apply visible_row_tag. eapply nth_error_In. eassumption.
Qed.

(** The first row of the window over a thousand rows scrolled to 1300. *)
Lemma window_rows_are_consecutive_witness :
  nth_error (visibleRows Fixture.noCollation Fixture.thousand) 0
  = Some {| data := [("a", JS.VNum 15%float)]; originalIndex := 15 |}
  /\ JS.Array_get (processedRows Fixture.noCollation Fixture.thousand) 15
     = Some [("a", JS.VNum 15%float)].
Proof.
  assert (nth_error (visibleRows Fixture.noCollation Fixture.thousand) 0
          = Some {| data := [("a", JS.VNum 15%float)]; originalIndex := 15 |})
    as H by (vm_compute; reflexivity).
  split; [exact H |].
  exact (proj2 (window_rows_are_consecutive Fixture.noCollation
                  Fixture.thousand 0 _ H)).
Defined.


(** ** The column layout: reorder and resize *)

(** X13.  A column dragged and dropped on another column, both in the
    order and the dragged one not the empty name, permutes the order, puts
    the dragged column at the index the target had and clears the drag mark;
    dropped on itself it leaves the order and the drag mark stays set. *)
Theorem column_drag_and_drop :
  forall (source target : string) (st : AppState),
    source <> "" -> source <> target ->
    In source (columnOrder st) -> In target (columnOrder st) ->
    Permutation
      (columnOrder st)
      (columnOrder (handleColumnDrop source target
                      (handleColumnDragStart source st)))
    /\ JS.Array_get
         (columnOrder (handleColumnDrop source target
                         (handleColumnDragStart source st)))
         (JS.Array_indexOf String.eqb (columnOrder st) target)
       = Some source
    /\ draggedColumn (handleColumnDrop source target
                        (handleColumnDragStart source st)) = None
    /\ columnOrder (handleColumnDrop source source
                      (handleColumnDragStart source st)) = columnOrder st
    /\ draggedColumn (handleColumnDrop source source
                        (handleColumnDragStart source st)) = Some source.
Proof.
  intros source target st H1 H2 Hs Ht.
  destruct (column_drop_reorders source target
              (handleColumnDragStart source st) H1 H2 Hs Ht) as [Hp Hg].
  split; [exact Hp |]. split; [exact Hg |]. split.
  - unfold handleColumnDrop.
    destruct (String.eqb_spec source ""); [congruence |].
    destruct (String.eqb_spec source target); [congruence |].
    reflexivity.
  - rewrite column_drop_noop by now right. split; reflexivity.
Qed.

(** The column c dragged onto the column a of the order a, b, c. *)
Lemma column_drag_and_drop_witness :
  Permutation ["a"; "b"; "c"]
              (columnOrder (handleColumnDrop "c" "a"
                              (handleColumnDragStart "c" Fixture.threeColumns)))
  /\ JS.Array_get
       (columnOrder (handleColumnDrop "c" "a"
                       (handleColumnDragStart "c" Fixture.threeColumns))) 0
     = Some "c".
Proof.
  assert ("c" <> "") as H1 by discriminate.
  assert ("c" <> "a") as H2 by discriminate.
  assert (In "c" (columnOrder Fixture.threeColumns)) as H3
    by (simpl; tauto).
  assert (In "a" (columnOrder Fixture.threeColumns)) as H4
    by (simpl; tauto).
  destruct (column_drag_and_drop "c" "a" Fixture.threeColumns H1 H2 H3 H4)
    as (Hp & Hg & _).
  split; [exact Hp | exact Hg].
Defined.

Section ResizeGesture.

Import Resize.

Lemma lookup_setWidth_same (widths : list (string * Q)) (c : string) (w : Q) :
  lookup (setWidth widths c w) c = Some w.
Proof.
  induction widths as [| [k w'] widths IH]; simpl.
  - now rewrite String.eqb_refl.
  - destruct (String.eqb_spec k c) as [-> | Hne]; simpl.
    + now rewrite String.eqb_refl.
    + destruct (String.eqb_spec k c); [congruence | assumption].
Qed.

Lemma lookup_setWidth_other (widths : list (string * Q)) (c c' : string) (w : Q) :
  c' <> c -> lookup (setWidth widths c w) c' = lookup widths c'.
Proof.
  intros Hne. induction widths as [| [k w'] widths IH]; simpl.
  - destruct (String.eqb_spec c c'); [congruence | reflexivity].
  - destruct (String.eqb_spec k c) as [-> | Hk]; simpl.
    + destruct (String.eqb_spec c c'); [congruence | reflexivity].
    + destruct (String.eqb_spec k c'); [reflexivity | assumption].
Qed.

Lemma Math_max_ge (a b : Q) : (a <= Math_max a b)%Q /\ (b <= Math_max a b)%Q.
Proof.
  unfold Math_max. destruct (Qle_bool a b) eqn:E.
  - apply Qle_bool_iff in E. split; [assumption | apply Qle_refl].
  - split; [apply Qle_refl |].
    destruct (Qlt_le_dec a b) as [Hlt | Hle]; [| assumption].
    apply Qlt_le_weak, Qle_bool_iff in Hlt. congruence.
Qed.

Lemma at_least_80_not_0 (w : Q) : (80 <= w)%Q -> Qeq_bool w 0 = false.
Proof.
  intros H. apply not_true_is_false. intros E. apply Qeq_bool_iff in E.
  rewrite E in H. apply H. reflexivity.
Qed.

Lemma widthOf_setWidth_same (widths : list (string * Q)) (c : string) (w : Q) :
  (80 <= w)%Q -> widthOf (setWidth widths c w) c = w.
Proof.
  intros H. unfold widthOf. rewrite lookup_setWidth_same.
  now rewrite at_least_80_not_0.
Qed.

Lemma widthOf_setWidth_other (widths : list (string * Q)) (c c' : string) (w : Q) :
  c' <> c -> widthOf (setWidth widths c w) c' = widthOf widths c'.
Proof. intros H. unfold widthOf. now rewrite lookup_setWidth_other. Qed.

Lemma run_cons (ev : Event) (evs : list Event) (st : State) :
  run (ev :: evs) st = run evs (handle st ev).
Proof. reflexivity. Qed.

(** Moves during a session keep the session and write its column only. *)
Lemma moves_in_session (xs : list Q) :
  forall (st : State) (r : Session),
    resizeRef st = Some r ->
    resizeRef (run (map mousemove xs) st) = Some r
    /\ (forall c', c' <> col r ->
          widthOf (columnWidths (run (map mousemove xs) st)) c'
          = widthOf (columnWidths st) c').
Proof.
  induction xs as [| x xs IH]; intros st r Hr; [split; [assumption | reflexivity] |].
  cbn [map]. rewrite run_cons. cbn [handle].
  assert (resizeRef (handleResizeMove x st) = Some r) as Hr'
    by (unfold handleResizeMove; rewrite Hr; reflexivity).
  destruct (IH _ r Hr') as [H1 H2]. split; [exact H1 |].
  intros c' Hc. rewrite (H2 c' Hc). unfold handleResizeMove. rewrite Hr.
  cbn [columnWidths]. now apply widthOf_setWidth_other.
Qed.

Lemma run_app (evs evs' : list Event) (st : State) :
  run (evs ++ evs') st = run evs' (run evs st).
Proof. apply fold_left_app. Qed.

Lemma handle_keeps_minimum (st : State) (ev : Event) :
  (forall c, 80 <= widthOf (columnWidths st) c)%Q ->
  forall c, (80 <= widthOf (columnWidths (handle st ev)) c)%Q.
Proof.
  intros H c. destruct ev as [x c0 | x |]; cbn [handle];
    [apply H | | apply H].
  unfold handleResizeMove. destruct (resizeRef st) as [r |]; [| apply H].
  cbn [columnWidths].
  destruct (String.eqb_spec c (col r)) as [-> | Hne].
  - rewrite widthOf_setWidth_same; apply Math_max_ge.
  - rewrite widthOf_setWidth_other by assumption. apply H.
Qed.

End ResizeGesture.

(** X14.  During a resize gesture on a column that is no name of
    [Object.prototype], the width of the column depends on the last pointer
    position only: after a press at [x0] on the column and any moves ending
    at [x], its width is [max(80, startWidth + (x - x0))], where
    [startWidth] is its width at the press; no other column's width
    changes. *)
Theorem resize_follows_the_pointer :
  forall (st : Resize.State) (c : string) (x0 x : Q) (xs : list Q),
    inherited c = false ->
    let st' :=
      Resize.run (Resize.mousedown x0 c
                  :: map Resize.mousemove xs ++ [Resize.mousemove x]) st in
    Resize.widthOf (Resize.columnWidths st') c
    = Resize.Math_max 80 (Resize.widthOf (Resize.columnWidths st) c + (x - x0))%Q
    /\ forall c', c' <> c ->
         Resize.widthOf (Resize.columnWidths st') c'
         = Resize.widthOf (Resize.columnWidths st) c'.
Proof.
  intros st c x0 x xs _. cbn zeta.
  change (Resize.run (Resize.mousedown x0 c
                      :: map Resize.mousemove xs ++ [Resize.mousemove x]) st)
    with (Resize.run (map Resize.mousemove xs ++ [Resize.mousemove x])
                     (Resize.handleResizeStart x0 c st)).
  rewrite run_app.
  set (r := {| Resize.col := c; Resize.startX := x0;
               Resize.startWidth := Resize.widthOf (Resize.columnWidths st) c |}).
  destruct (moves_in_session xs (Resize.handleResizeStart x0 c st) r eq_refl)
    as [Hr Hw].
  rewrite run_cons. cbn [Resize.run fold_left Resize.handle].
  unfold Resize.handleResizeMove. rewrite Hr. cbn [Resize.columnWidths Resize.col Resize.startX
                   Resize.startWidth r]. split.
  - apply widthOf_setWidth_same. apply Math_max_ge.
  - intros c' Hc. rewrite widthOf_setWidth_other by assumption.
    now apply Hw.
Qed.

(** A press at 300 on the column [a], of the default width, and two moves,
    the last one to 340. *)
Lemma resize_follows_the_pointer_witness :
  inherited "a" = false
  /\ Resize.widthOf
       (Resize.columnWidths
          (Resize.run [Resize.mousedown 300 "a"; Resize.mousemove 310;
                       Resize.mousemove 340]
                      Resize.initial)) "a"
     = Resize.Math_max 80 (150 + (340 - 300))%Q.
Proof.
  split; [reflexivity |].
  exact (proj1 (resize_follows_the_pointer Resize.initial "a" 300 340 [310%Q]
                  eq_refl)).
Defined.

(** X15.  No gesture makes a column narrower than 80: if every column is at
    least 80 wide, so it is after any sequence of presses, moves and
    releases; a move outside a gesture changes nothing. *)
Theorem resize_keeps_the_minimum_width :
  forall (evs : list Resize.Event) (st : Resize.State),
    (forall c, 80 <= Resize.widthOf (Resize.columnWidths st) c)%Q ->
    (forall c, 80 <= Resize.widthOf (Resize.columnWidths (Resize.run evs st)) c)%Q
    /\ forall x, Resize.handleResizeMove x (Resize.handleResizeEnd st)
                 = Resize.handleResizeEnd st.
Proof.
  intros evs st H. split; [| reflexivity].
  revert st H. induction evs as [| ev evs IH]; intros st H; [exact H |].
  rewrite run_cons. apply IH. now apply handle_keeps_minimum.
Qed.

(** From the layout before any gesture: a drag far to the left. *)
Lemma resize_keeps_the_minimum_width_witness :
  (forall c, 80 <= Resize.widthOf (Resize.columnWidths Resize.initial) c)%Q
  /\ (80 <= Resize.widthOf
              (Resize.columnWidths
                 (Resize.run [Resize.mousedown 300 "a"; Resize.mousemove 10;
                              Resize.mouseup]
                             Resize.initial)) "a")%Q.
Proof.
  assert (forall c, 80 <= Resize.widthOf (Resize.columnWidths Resize.initial) c)%Q
    as H by (intros c; vm_compute; discriminate).
  split; [exact H |].
  exact (proj1 (resize_keeps_the_minimum_width
                  [Resize.mousedown 300 "a"; Resize.mousemove 10; Resize.mouseup]
                  Resize.initial H) "a").
Defined.


(** ** The cell edit *)

Section ObjectFacts.

Lemma get_absent (o : JS.object) (k : string) :
  JS.has o k = false -> JS.get o k = JS.VUndefined.
Proof.
  induction o as [| [k' v'] o IH]; [reflexivity |].
  simpl. intros H. apply orb_false_iff in H. destruct H as [-> H]. now apply IH.
Qed.

Lemma get_add_prop_same (o : JS.object) (k : string) (v : JS.value) :
  JS.has o k = false -> JS.get (JS.add_prop o k v) k = v.
Proof.
  induction o as [| [k' v'] o IH]; intros H; simpl.
  - now rewrite String.eqb_refl.
  - simpl in H. apply orb_false_iff in H. destruct H as [Hk H].
    destruct (JS.array_index k) as [i |]; [destruct (JS.array_index k') as [j |] |].
    + destruct (i <? j); simpl; [now rewrite String.eqb_refl |].
      rewrite Hk. now apply IH.
    + simpl. now rewrite String.eqb_refl.
    + simpl. rewrite Hk. now apply IH.
Qed.

Lemma get_add_prop_other (o : JS.object) (k k' : string) (v : JS.value) :
  k' <> k -> JS.get (JS.add_prop o k v) k' = JS.get o k'.
Proof.
  intros Hne. assert (String.eqb k k' = false) as E
    by (apply String.eqb_neq; congruence).
  induction o as [| [k0 v0] o IH]; simpl.
  - now rewrite E.
  - destruct (JS.array_index k) as [i |]; [destruct (JS.array_index k0) as [j |] |].
    + destruct (i <? j); simpl; [now rewrite E |]. now rewrite IH.
    + simpl. now rewrite E.
    + simpl. now rewrite IH.
Qed.

Lemma get_replace_prop_same (o : JS.object) (k : string) (v : JS.value) :
  JS.has o k = true -> JS.get (JS.replace_prop o k v) k = v.
Proof.
  induction o as [| [k' v'] o IH]; intros H; [discriminate |].
  simpl in *. destruct (String.eqb k' k) eqn:E; simpl; rewrite E;
    [reflexivity | now apply IH].
Qed.

Lemma get_replace_prop_other (o : JS.object) (k k' : string) (v : JS.value) :
  k' <> k -> JS.get (JS.replace_prop o k v) k' = JS.get o k'.
Proof.
  intros Hne. induction o as [| [k0 v0] o IH]; [reflexivity |].
  simpl. destruct (String.eqb_spec k0 k) as [-> | Hk]; simpl.
  - destruct (String.eqb_spec k k'); [congruence | reflexivity].
  - now rewrite IH.
Qed.

(** The spread with one property set: that property reads as set, every
    other as before. *)
Lemma get_set_prop_same (o : JS.object) (k : string) (v : JS.value) :
  JS.get (JS.set_prop o k v) k = v.
Proof.
  unfold JS.set_prop. destruct (JS.has o k) eqn:E;
    [now apply get_replace_prop_same | now apply get_add_prop_same].
Qed.

Lemma get_set_prop_other (o : JS.object) (k k' : string) (v : JS.value) :
  k' <> k -> JS.get (JS.set_prop o k v) k' = JS.get o k'.
Proof.
  intros H. unfold JS.set_prop. destruct (JS.has o k);
    [now apply get_replace_prop_other | now apply get_add_prop_other].
Qed.

Lemma has_add_prop (o : JS.object) (k : string) (v : JS.value) :
  JS.has (JS.add_prop o k v) k = true.
Proof.
  induction o as [| [k' v'] o IH]; simpl.
  - now rewrite String.eqb_refl.
  - destruct (JS.array_index k) as [i |]; [destruct (JS.array_index k') as [j |] |].
    + destruct (i <? j); simpl; [now rewrite String.eqb_refl |].
      rewrite IH. apply orb_true_r.
    + simpl. now rewrite String.eqb_refl.
    + simpl. rewrite IH. apply orb_true_r.
Qed.

Lemma has_replace_prop (o : JS.object) (k k' : string) (v : JS.value) :
  JS.has (JS.replace_prop o k v) k' = JS.has o k'.
Proof.
  induction o as [| [k0 v0] o IH]; [reflexivity |].
  simpl. destruct (String.eqb k0 k); simpl; [reflexivity | now rewrite IH].
Qed.

Lemma replace_prop_fixed (o : JS.object) (k : string) :
  JS.replace_prop o k (JS.get o k) = o.
Proof.
  induction o as [| [k' v'] o IH]; [reflexivity |].
  simpl. destruct (String.eqb k' k); [reflexivity | now rewrite IH].
Qed.

(** Setting a property to the value it has changes nothing. *)
Lemma set_prop_again (o : JS.object) (k : string) (v : JS.value) :
  JS.set_prop (JS.set_prop o k v) k v = JS.set_prop o k v.
Proof.
  assert (JS.has (JS.set_prop o k v) k = true) as H.
  { unfold JS.set_prop. destruct (JS.has o k) eqn:E;
      [now rewrite has_replace_prop | apply has_add_prop]. }
  unfold JS.set_prop at 1. rewrite H.
  rewrite <- (get_set_prop_same o k v) at 2. apply replace_prop_fixed.
Qed.

End ObjectFacts.

Section EditFacts.

Lemma Array_set_length {A : Type} (l : list A) (i : nat) (x : A) :
  List.length (JS.Array_set l i x) = List.length l.
Proof.
  revert i. induction l as [| y l IH]; intros i; [reflexivity |].
  destruct i; simpl; [reflexivity | now rewrite IH].
Qed.

Lemma Array_set_again {A : Type} (l : list A) (i : nat) (x : A) :
  JS.Array_set (JS.Array_set l i x) i x = JS.Array_set l i x.
Proof.
  revert i. induction l as [| y l IH]; intros i; [reflexivity |].
  destruct i; simpl; [reflexivity | now rewrite IH].
Qed.

Lemma Array_get_None {A : Type} (l : list A) (i : Z) :
  JS.Array_get l i = None <-> i < 0 \/ Z.of_nat (List.length l) <= i.
Proof.
  unfold JS.Array_get. destruct (Z.ltb_spec i 0).
  - split; [intros _; now left | reflexivity].
  - rewrite nth_error_None. lia.
Qed.

Lemma typedValue_again (original value : JS.value) :
  typedValue (typedValue original value) value = typedValue original value.
Proof.
  unfold typedValue. destruct original; simpl; try reflexivity;
    destruct value; reflexivity.
Qed.

Lemma editRows_Normal (rows : list JS.object) (i : Z) (col : string)
    (v : JS.value) (row : JS.object) :
  JS.Array_get rows i = Some row ->
  editRows rows i col v
  = JS.Normal (JS.Array_set rows (Z.to_nat i)
                 (JS.set_prop row col (typedValue (JS.get row col) v))).
Proof. unfold editRows. now intros ->. Qed.

(** The datasets after an edit, one by one. *)
Lemma edit_datasets (a : string) (i : Z) (col : string) (v : JS.value)
    (ds : list Dataset.t) :
  forall ds' : list Dataset.t,
    mapM (fun d =>
            if negb (String.eqb (Dataset.id d) a) then JS.Normal d
            else JS.bind (editRows (Dataset.rows d) i col v)
                         (fun rows => JS.Normal (withRows d rows)))
         ds = JS.Normal ds' ->
    map Dataset.id ds' = map Dataset.id ds
    /\ (forall k d, nth_error ds k = Some d -> Dataset.id d <> a ->
                    nth_error ds' k = Some d)
    /\ (forall d, find (fun d => String.eqb (Dataset.id d) a) ds = Some d ->
          exists rows',
            editRows (Dataset.rows d) i col v = JS.Normal rows'
            /\ find (fun d => String.eqb (Dataset.id d) a) ds'
               = Some (withRows d rows')).
Proof.
  induction ds as [| d0 ds IH]; intros ds' H.
  - injection H as <-. split; [reflexivity |]. split.
    + intros [| k] d Hk; discriminate.
    + intros d Hd. discriminate.
  - cbn [mapM] in H.
    destruct (String.eqb_spec (Dataset.id d0) a) as [Ea | Ea]; cbn [negb] in H.
    + destruct (editRows (Dataset.rows d0) i col v) as [rows0 |] eqn:E0;
        [| discriminate].
      cbn [JS.bind] in H.
      destruct (mapM _ ds) as [ds1 |] eqn:E1; [| discriminate].
      cbn [JS.bind] in H. injection H as <-.
      destruct (IH ds1 eq_refl) as (Hid & Hother & _).
      split; [simpl; now rewrite Hid |]. split.
      * intros [| k] d Hk Hd; simpl in Hk |- *; [congruence | now apply Hother].
      * intros d Hd. simpl in Hd. rewrite Ea, String.eqb_refl in Hd.
        injection Hd as <-. exists rows0. split; [assumption |].
        cbn [find withRows Dataset.id]. rewrite Ea, String.eqb_refl.
        reflexivity.
    + cbn [JS.bind] in H.
      destruct (mapM _ ds) as [ds1 |] eqn:E1; [| discriminate].
      cbn [JS.bind] in H. injection H as <-.
      destruct (IH ds1 eq_refl) as (Hid & Hother & Hfind).
      split; [simpl; now rewrite Hid |]. split.
      * intros [| k] d Hk Hd; simpl in Hk |- *; [assumption | now apply Hother].
      * intros d Hd. simpl in Hd |- *.
        destruct (String.eqb_spec (Dataset.id d0) a); [congruence |].
        now apply Hfind.
Qed.

(** The datasets before the active one do not stop the edit. *)
Lemma edit_datasets_throws (a : string) (i : Z) (col : string) (v : JS.value)
    (ds : list Dataset.t) (d : Dataset.t) :
  find (fun d => String.eqb (Dataset.id d) a) ds = Some d ->
  editRows (Dataset.rows d) i col v = JS.Throw JS.TypeError ->
  mapM (fun d =>
          if negb (String.eqb (Dataset.id d) a) then JS.Normal d
          else JS.bind (editRows (Dataset.rows d) i col v)
                       (fun rows => JS.Normal (withRows d rows)))
       ds = JS.Throw JS.TypeError.
Proof.
  intros Hfind Hthrow. induction ds as [| d0 ds IH]; [discriminate |].
  cbn [mapM]. simpl in Hfind.
  destruct (String.eqb_spec (Dataset.id d0) a) as [Ea | Ea]; cbn [negb].
  - injection Hfind as ->. now rewrite Hthrow.
  - cbn [JS.bind]. now rewrite IH.
Qed.

End EditFacts.

(** X16.  A committed edit changes one cell: the number of rows stays, the
    cell at the given row and column becomes a number (the numeric form of
    the input) where it held a number and the raw input otherwise, and every
    other cell of the store reads as before. *)
Theorem cell_edit_changes_one_cell :
  forall (rows rows' : list JS.object) (i : Z) (col : string) (v : JS.value),
    editRows rows i col v = JS.Normal rows' ->
    List.length rows' = List.length rows
    /\ (exists old, cellAt rows i col = Some old
                    /\ cellAt rows' i col = Some (typedValue old v))
    /\ forall (j : Z) (c : string),
         j <> i \/ c <> col -> cellAt rows' j c = cellAt rows j c.
Proof.
  intros rows rows' i col v H.
  destruct (editRows_position rows rows' i col v H) as (row & Hrow & Hnew & Hrest).
  rewrite (editRows_Normal rows i col v row Hrow) in H. injection H as <-.
  split; [apply Array_set_length |]. split.
  - exists (JS.get row col). unfold cellAt. rewrite Hrow, Hnew. simpl.
    split; [reflexivity |]. now rewrite get_set_prop_same.
  - intros j c [Hj | Hc]; unfold cellAt.
    + now rewrite (Hrest j Hj).
    + destruct (Z.eq_dec j i) as [-> | Hj]; [| now rewrite (Hrest j Hj)].
      rewrite Hrow, Hnew. simpl. now rewrite get_set_prop_other.
Qed.

(** The first row of two, edited. *)
Lemma cell_edit_changes_one_cell_witness :
  editRows (rowStore Fixture.unfiltered) 0 "a" (JS.VStr "5")
  = JS.Normal [[("a", JS.VNum 5%float)]; [("a", JS.VNum 2%float)]]
  /\ cellAt [[("a", JS.VNum 5%float)]; [("a", JS.VNum 2%float)]] 1 "a"
     = cellAt (rowStore Fixture.unfiltered) 1 "a".
Proof.
  assert (editRows (rowStore Fixture.unfiltered) 0 "a" (JS.VStr "5")
          = JS.Normal [[("a", JS.VNum 5%float)]; [("a", JS.VNum 2%float)]]) as H
    by (vm_compute; reflexivity).
  split; [exact H |].
  apply (cell_edit_changes_one_cell _ _ 0 "a" (JS.VStr "5") H). left. lia.
Defined.

(** X17.  Committing the same input twice to the same cell gives the Row
    Store that committing it once gives. *)
Theorem cell_edit_is_idempotent :
  forall (rows rows' : list JS.object) (i : Z) (col : string) (v : JS.value),
    editRows rows i col v = JS.Normal rows' ->
    editRows rows' i col v = JS.Normal rows'.
Proof.
  intros rows rows' i col v H.
  destruct (editRows_position rows rows' i col v H) as (row & Hrow & Hnew & _).
  rewrite (editRows_Normal rows i col v row Hrow) in H. injection H as <-.
  rewrite (editRows_Normal _ i col v _ Hnew). f_equal.
  rewrite get_set_prop_same.
  change (if JS.is_number (JS.get row col) then JS.VNum (JS.ToNumber v) else v)
    with (typedValue (JS.get row col) v).
  rewrite typedValue_again, set_prop_again. apply Array_set_again.
Qed.

(** A word committed twice to a numeric cell: NaN both times. *)
Lemma cell_edit_is_idempotent_witness :
  editRows (rowStore Fixture.unfiltered) 1 "a" (JS.VStr "abc")
  = JS.Normal [[("a", JS.VNum 1%float)]; [("a", JS.VNum JS.NaN)]]
  /\ editRows [[("a", JS.VNum 1%float)]; [("a", JS.VNum JS.NaN)]] 1 "a"
              (JS.VStr "abc")
     = JS.Normal [[("a", JS.VNum 1%float)]; [("a", JS.VNum JS.NaN)]].
Proof.
  assert (editRows (rowStore Fixture.unfiltered) 1 "a" (JS.VStr "abc")
          = JS.Normal [[("a", JS.VNum 1%float)]; [("a", JS.VNum JS.NaN)]]) as H
    by (vm_compute; reflexivity).
  split; [exact H |].
  exact (cell_edit_is_idempotent _ _ 1 "a" (JS.VStr "abc") H).
Defined.

(** X18.  An edit at a position that is no position of the Row Store is not
    ignored: it throws a TypeError, and only such an edit throws. *)
Theorem cell_edit_out_of_range_throws :
  forall (rows : list JS.object) (i : Z) (col : string) (v : JS.value),
    (editRows rows i col v = JS.Throw JS.TypeError
     <-> i < 0 \/ Z.of_nat (List.length rows) <= i)
    /\ forall st d a,
         activeDatasetId st = Some a -> a <> "" -> activeDataset st = Some d ->
         Dataset.rows d = rows ->
         i < 0 \/ Z.of_nat (List.length rows) <= i ->
         handleCellEdit i col v st = JS.Throw JS.TypeError.
Proof.
  intros rows i col v.
  assert (editRows rows i col v = JS.Throw JS.TypeError
          <-> i < 0 \/ Z.of_nat (List.length rows) <= i) as Hiff.
  { rewrite <- Array_get_None. unfold editRows.
    destruct (JS.Array_get rows i); split; congruence. }
  split; [exact Hiff |].
  intros st d a Ha Hne Hd Hrows Hout. unfold handleCellEdit. rewrite Ha.
  destruct (String.eqb_spec a ""); [congruence |].
  unfold activeDataset in Hd. rewrite Ha in Hd.
  rewrite (edit_datasets_throws a i col v (datasets st) d Hd); [reflexivity |].
  rewrite Hrows. now apply Hiff.
Qed.

(** X19.  A committed edit on the active dataset stores the edited rows in
    it and closes the editing cell; the datasets keep their identifiers, the
    datasets of another identifier stay as they are, and the filters, the
    search text, the sort and the column order are untouched. *)
Theorem cell_edit_commits_to_the_store :
  forall (i : Z) (col : string) (v : JS.value) (st st' : AppState)
         (a : string) (d : Dataset.t),
    activeDatasetId st = Some a -> a <> "" -> activeDataset st = Some d ->
    handleCellEdit i col v st = JS.Normal st' ->
    editRows (rowStore st) i col v = JS.Normal (rowStore st')
    /\ editingCell st' = None
    /\ map Dataset.id (datasets st') = map Dataset.id (datasets st)
    /\ (forall k d', nth_error (datasets st) k = Some d' -> Dataset.id d' <> a ->
                     nth_error (datasets st') k = Some d')
    /\ activeFilters st' = activeFilters st
    /\ searchQuery st' = searchQuery st
    /\ sortConfig st' = sortConfig st
    /\ columnOrder st' = columnOrder st.
Proof.
  intros i col v st st' a d Ha Hne Hd H.
  unfold handleCellEdit in H. rewrite Ha in H.
  destruct (String.eqb_spec a ""); [congruence |].
  destruct (mapM _ (datasets st)) as [ds |] eqn:E; [| discriminate].
  cbn [JS.bind] in H. injection H as <-.
  destruct (edit_datasets a i col v (datasets st) ds E) as (Hid & Hother & Hfind).
  unfold activeDataset in Hd. rewrite Ha in Hd.
  destruct (Hfind d Hd) as (rows' & Hrows & Hfind').
  split; [| repeat split; assumption].
  unfold rowStore, activeDataset. cbn [activeDatasetId datasets setEditingCell
                                        setDatasets].
  rewrite Ha, Hd, Hfind'. exact Hrows.
Qed.

(** The edit of the first row of two, on the state. *)
Lemma cell_edit_commits_to_the_store_witness :
  JS.bind (handleCellEdit 0 "a" (JS.VStr "5") Fixture.unfiltered)
          (fun st' => JS.Normal (rowStore st', editingCell st'))
  = JS.Normal ([[("a", JS.VNum 5%float)]; [("a", JS.VNum 2%float)]], None).
Proof.
  destruct (handleCellEdit 0 "a" (JS.VStr "5") Fixture.unfiltered)
    as [st' |] eqn:E; [| vm_compute in E; discriminate].
  assert (activeDataset Fixture.unfiltered
          = Some (Dataset.mk "d1" "d1.csv" ["a"]
                    [[("a", JS.VNum 1%float)]; [("a", JS.VNum 2%float)]]
                    "Dataset" None)) as Hd by reflexivity.
  destruct (cell_edit_commits_to_the_store 0 "a" (JS.VStr "5")
              Fixture.unfiltered st' "d1" _ eq_refl ltac:(discriminate) Hd E)
    as (Hrows & Hcell & _).
  cbn [JS.bind]. rewrite Hcell.
  assert (editRows (rowStore Fixture.unfiltered) 0 "a" (JS.VStr "5")
          = JS.Normal [[("a", JS.VNum 5%float)]; [("a", JS.VNum 2%float)]]) as H
    by (vm_compute; reflexivity).
  rewrite H in Hrows. injection Hrows as <-. reflexivity.
Defined.


(** ** The bulk cleaning actions *)

Section Cleaning.

Lemma strict_eq_null (v : JS.value) : JS.strict_eq v JS.VNull = true <-> v = JS.VNull.
Proof. destruct v; simpl; split; congruence. Qed.

Lemma strict_eq_undefined (v : JS.value) :
  JS.strict_eq v JS.VUndefined = true <-> v = JS.VUndefined.
Proof. destruct v; simpl; split; congruence. Qed.

Lemma strict_eq_empty (v : JS.value) :
  JS.strict_eq v (JS.VStr "") = true <-> v = JS.VStr "".
Proof.
  destruct v as [| | x | s]; simpl; try (split; congruence).
  rewrite String.eqb_eq. split; congruence.
Qed.

Lemma filter_twice {A : Type} (p : A -> bool) (l : list A) :
  filter p (filter p l) = filter p l.
Proof.
  induction l as [| x l IH]; simpl; [reflexivity |].
  destruct (p x) eqn:E; simpl; [rewrite E; now f_equal | assumption].
Qed.

Lemma convertedValue_again (val : JS.value) :
  convertedValue (convertedValue val) = convertedValue val.
Proof.
  destruct (negb (JS.isNaN (JS.ToNumber val))
            && negb (JS.strict_eq val (JS.VStr ""))) eqn:E.
  - replace (convertedValue val) with (JS.VNum (JS.ToNumber val))
      by (unfold convertedValue; now rewrite E).
    apply andb_true_iff in E. destruct E as [E _].
    unfold convertedValue. cbn [JS.ToNumber JS.strict_eq].
    rewrite E. reflexivity.
  - replace (convertedValue val) with val
      by (unfold convertedValue; now rewrite E).
    unfold convertedValue. now rewrite E.
Qed.

(** A converted cell is a number, or [undefined], or a string that is empty
    or is no number. *)
Lemma convertedValue_cases (val : JS.value) :
  JS.is_number (convertedValue val) = true
  \/ convertedValue val = JS.VUndefined
  \/ convertedValue val = JS.VStr ""
  \/ exists s, convertedValue val = JS.VStr s
               /\ JS.isNaN (JS.StringToNumber s) = true.
Proof.
  unfold convertedValue. destruct val as [| | x | s]; cbn [JS.ToNumber JS.strict_eq].
  - right. left. reflexivity.
  - left. reflexivity.
  - left. destruct (negb (JS.isNaN x) && negb false); reflexivity.
  - destruct (JS.isNaN (JS.StringToNumber s)) eqn:En; cbn [negb andb].
    + right. right. right. exists s. split; [reflexivity | assumption].
    + destruct (String.eqb_spec s "") as [-> | Hs]; cbn [negb].
      * right. right. left. reflexivity.
      * left. reflexivity.
Qed.

(** *** [trim] *)

Lemma trim_start_length (l : list ascii) :
  (List.length (JS.trim_start l) <= List.length l)%nat.
Proof.
  induction l as [| c l IH]; simpl; [lia |].
  destruct (JS.is_space c); simpl; lia.
Qed.

Lemma trim_start_fixed (c : ascii) (l : list ascii) :
  JS.trim_start (c :: l) = c :: l <-> JS.is_space c = false.
Proof.
  simpl. destruct (JS.is_space c); split; intros H;
    try reflexivity; try discriminate.
  pose proof (trim_start_length l) as L. rewrite H in L.
  simpl in L. lia.
Qed.

Lemma trim_start_again (l : list ascii) :
  JS.trim_start (JS.trim_start l) = JS.trim_start l.
Proof.
  induction l as [| c l IH]; [reflexivity |].
  simpl. destruct (JS.is_space c) eqn:E; [assumption |].
  simpl. now rewrite E.
Qed.

(** What [trim_start] removes is a prefix. *)
Lemma trim_start_suffix (l : list ascii) :
  exists p, l = (p ++ JS.trim_start l)%list.
Proof.
  induction l as [| c l [p IH]]; [exists []; reflexivity |].
  simpl. destruct (JS.is_space c).
  - exists (c :: p). simpl. now f_equal.
  - exists []. reflexivity.
Qed.

Lemma trim_list_again (l : list ascii) :
  JS.trim_list (JS.trim_list l) = JS.trim_list l.
Proof.
  unfold JS.trim_list.
  set (l1 := JS.trim_start l).
  set (m := JS.trim_start (rev l1)).
  assert (JS.trim_start (rev m) = rev m) as Hhead.
  { destruct (trim_start_suffix (rev l1)) as [p Hp]. fold m in Hp.
    assert (l1 = (rev m ++ rev p)%list) as Hl1
      by (rewrite <- rev_app_distr, <- Hp; symmetry; apply rev_involutive).
    destruct (rev m) as [| c t] eqn:Em; [reflexivity |].
    apply trim_start_fixed.
    assert (JS.trim_start l1 = l1) as Hfix by apply trim_start_again.
    rewrite Hl1 in Hfix. simpl in Hfix.
    destruct (JS.is_space c) eqn:Ec; [| reflexivity].
    pose proof (trim_start_length (t ++ rev p)) as L. rewrite Hfix in L.
    simpl in L. lia. }
  rewrite Hhead, rev_involutive. unfold m. now rewrite trim_start_again.
Qed.

Lemma trim_again (s : string) : JS.trim (JS.trim s) = JS.trim s.
Proof.
  unfold JS.trim. rewrite list_ascii_of_string_of_list_ascii.
  now rewrite trim_list_again.
Qed.

Lemma normalizedValue_again (val : JS.value) :
  normalizedValue (normalizedValue val) = normalizedValue val.
Proof. destruct val; simpl; try reflexivity. now rewrite trim_again. Qed.

(** A pass that sets one property from its own value, run twice. *)
Lemma set_from_own_value_twice (g : JS.value -> JS.value) (col : string)
    (rows : list JS.object) :
  (forall v, g (g v) = g v) ->
  map (fun r => JS.set_prop r col (g (JS.get r col)))
      (map (fun r => JS.set_prop r col (g (JS.get r col))) rows)
  = map (fun r => JS.set_prop r col (g (JS.get r col))) rows.
Proof.
  intros Hg. rewrite map_map. apply map_ext. intros r.
  now rewrite get_set_prop_same, Hg, set_prop_again.
Qed.

Lemma normalizeRows_map (col : string) (rows : list JS.object) :
  normalizeRows col rows
  = map (fun r => JS.set_prop r col (normalizedValue (JS.get r col))) rows.
Proof.
  unfold normalizeRows. apply map_ext. intros r. f_equal.
  now destruct (JS.get r col).
Qed.

Lemma cleanRows_nil (s : CleaningSuggestion.t) : cleanRows s [] = [].
Proof.
  unfold cleanRows. destruct (CleaningSuggestion.actionType s) as [[| | |] |];
    reflexivity.
Qed.

End Cleaning.

(** X20.  Removing the nulls of a column that is no name of
    [Object.prototype] keeps, in their order, exactly the rows whose cell in
    the column is none of [null], [undefined] and the empty string (a zero,
    a NaN or a blank string stays), and a second pass removes nothing
    more. *)
Theorem remove_nulls_keeps_filled_rows :
  forall (col : string) (rows : list JS.object),
    inherited col = false ->
    Subseq (removeNulls col rows) rows
    /\ (forall row,
          In row (removeNulls col rows)
          <-> In row rows
              /\ JS.get row col <> JS.VNull
              /\ JS.get row col <> JS.VUndefined
              /\ JS.get row col <> JS.VStr "")
    /\ removeNulls col (removeNulls col rows) = removeNulls col rows.
Proof.
  intros col rows _. unfold removeNulls. split; [apply filter_Subseq |]. split.
  - intros row. rewrite filter_In, !andb_true_iff, !negb_true_iff.
    rewrite <- !not_true_iff_false.
    rewrite strict_eq_null, strict_eq_undefined, strict_eq_empty. tauto.
  - apply filter_twice.
Qed.

(** Five rows, of which the zero and the blank string stay. *)
Lemma remove_nulls_keeps_filled_rows_witness :
  removeNulls "a" [[("a", JS.VNull)]; [("a", JS.VNum 0%float)];
                   [("b", JS.VStr "x")]; [("a", JS.VStr " ")];
                   [("a", JS.VStr EmptyString)]]
  = [[("a", JS.VNum 0%float)]; [("a", JS.VStr " ")]]
  /\ removeNulls "a" [[("a", JS.VNum 0%float)]; [("a", JS.VStr " ")]]
     = [[("a", JS.VNum 0%float)]; [("a", JS.VStr " ")]].
Proof.
  split; [reflexivity |].
  exact (proj2 (proj2 (remove_nulls_keeps_filled_rows "a"
                  [[("a", JS.VNull)]; [("a", JS.VNum 0%float)];
                   [("b", JS.VStr "x")]; [("a", JS.VStr " ")];
                   [("a", JS.VStr EmptyString)]] eq_refl))).
Defined.

(** X21.  The type conversion of a column that is no name of
    [Object.prototype] keeps the number of rows and the cells of the other
    columns; in the column it leaves only numbers, [undefined], and strings
    that are empty or are no number (a [null] becomes the number 0); a
    second pass changes nothing. *)
Theorem convert_types_is_a_one_pass_conversion :
  forall (col : string) (rows : list JS.object),
    inherited col = false ->
    List.length (convertTypes col rows) = List.length rows
    /\ (forall (i : Z) (c : string),
          cellAt (convertTypes col rows) i c
          = if String.eqb c col
            then option_map convertedValue (cellAt rows i c)
            else cellAt rows i c)
    /\ (forall row, In row (convertTypes col rows) ->
          JS.is_number (JS.get row col) = true
          \/ JS.get row col = JS.VUndefined
          \/ JS.get row col = JS.VStr ""
          \/ exists s, JS.get row col = JS.VStr s
                       /\ JS.isNaN (JS.StringToNumber s) = true)
    /\ convertedValue JS.VNull = JS.VNum 0%float
    /\ convertTypes col (convertTypes col rows) = convertTypes col rows.
Proof.
  intros col rows _.
  change (convertTypes col rows)
    with (map (fun r => JS.set_prop r col (convertedValue (JS.get r col))) rows).
  split; [apply length_map |]. split; [| split; [| split]].
  - intros i c. unfold cellAt, JS.Array_get.
    destruct (i <? 0); [now destruct (String.eqb c col) |].
    rewrite nth_error_map. destruct (nth_error rows (Z.to_nat i)) as [r |];
      [| now destruct (String.eqb c col)].
    simpl. destruct (String.eqb_spec c col) as [-> | Hc].
    + now rewrite get_set_prop_same.
    + now rewrite get_set_prop_other.
  - intros row Hin. apply in_map_iff in Hin. destruct Hin as [r [<- _]].
    rewrite get_set_prop_same. apply convertedValue_cases.
  - reflexivity.
  - exact (set_from_own_value_twice convertedValue col rows convertedValue_again).
Qed.

(** A numeric text, a text that is no number, a [null] and a row without
    the column. *)
Lemma convert_types_is_a_one_pass_conversion_witness :
  convertTypes "a" [[("a", JS.VStr "12")]; [("a", JS.VStr "x")];
                    [("a", JS.VNull)]; [("b", JS.VStr "1")]]
  = [[("a", JS.VNum 12%float)]; [("a", JS.VStr "x")];
     [("a", JS.VNum 0%float)]; [("b", JS.VStr "1"); ("a", JS.VUndefined)]]
  /\ List.length
       (convertTypes "a" [[("a", JS.VStr "12")]; [("a", JS.VStr "x")];
                          [("a", JS.VNull)]; [("b", JS.VStr "1")]])
     = 4%nat.
Proof.
  split; [vm_compute; reflexivity |].
  exact (proj1 (convert_types_is_a_one_pass_conversion "a"
                  [[("a", JS.VStr "12")]; [("a", JS.VStr "x")];
                   [("a", JS.VNull)]; [("b", JS.VStr "1")]] eq_refl)).
Defined.

(** X22.  The normalization of a column that is no name of
    [Object.prototype] keeps the number of rows and the cells of the other
    columns, trims the strings of the column and leaves its other values
    alone; a second pass changes nothing. *)
Theorem normalize_trims_once_and_for_all :
  forall (col : string) (rows : list JS.object),
    inherited col = false ->
    List.length (normalizeRows col rows) = List.length rows
    /\ (forall (i : Z) (c : string),
          cellAt (normalizeRows col rows) i c
          = if String.eqb c col
            then option_map normalizedValue (cellAt rows i c)
            else cellAt rows i c)
    /\ (forall s, JS.trim (JS.trim s) = JS.trim s)
    /\ normalizeRows col (normalizeRows col rows) = normalizeRows col rows.
Proof.
  intros col rows _.
  rewrite !normalizeRows_map.
  split; [apply length_map |]. split; [| split].
  - intros i c. unfold cellAt, JS.Array_get.
    destruct (i <? 0); [now destruct (String.eqb c col) |].
    rewrite nth_error_map. destruct (nth_error rows (Z.to_nat i)) as [r |];
      [| now destruct (String.eqb c col)].
    simpl. destruct (String.eqb_spec c col) as [-> | Hc].
    + now rewrite get_set_prop_same.
    + now rewrite get_set_prop_other.
  - apply trim_again.
  - apply set_from_own_value_twice. apply normalizedValue_again.
Qed.

(** A padded text and a number. *)
Lemma normalize_trims_once_and_for_all_witness :
  normalizeRows "a" [[("a", JS.VStr "  x y ")]; [("a", JS.VNum 1%float)]]
  = [[("a", JS.VStr "x y")]; [("a", JS.VNum 1%float)]]
  /\ normalizeRows "a"
       (normalizeRows "a" [[("a", JS.VStr "  x y ")]; [("a", JS.VNum 1%float)]])
     = normalizeRows "a" [[("a", JS.VStr "  x y ")]; [("a", JS.VNum 1%float)]].
Proof.
  split; [vm_compute; reflexivity |].
  exact (proj2 (proj2 (proj2 (normalize_trims_once_and_for_all "a"
                  [[("a", JS.VStr "  x y ")]; [("a", JS.VNum 1%float)]]
                  eq_refl)))).
Defined.

(** X23.  Applying a cleaning suggestion, with an active dataset
    identifier that is not empty, puts the cleaned rows in the Row Store and
    touches nothing else of the view: the filters, the search text, the
    sort, the column order and the scroll position stay, the datasets keep
    their identifiers, and no suggestion of the applied identifier is
    left. *)
Theorem cleaning_replaces_the_store_only :
  forall (s : CleaningSuggestion.t) (st : AppState) (a : string),
    activeDatasetId st = Some a -> a <> "" ->
    rowStore (applyCleaningSuggestion s st) = cleanRows s (rowStore st)
    /\ map Dataset.id (datasets (applyCleaningSuggestion s st))
       = map Dataset.id (datasets st)
    /\ (forall k d, nth_error (datasets st) k = Some d -> Dataset.id d <> a ->
                    nth_error (datasets (applyCleaningSuggestion s st)) k = Some d)
    /\ activeFilters (applyCleaningSuggestion s st) = activeFilters st
    /\ searchQuery (applyCleaningSuggestion s st) = searchQuery st
    /\ sortConfig (applyCleaningSuggestion s st) = sortConfig st
    /\ columnOrder (applyCleaningSuggestion s st) = columnOrder st
    /\ scrollTop (applyCleaningSuggestion s st) = scrollTop st
    /\ (forall x, In x (cleaningSuggestions (applyCleaningSuggestion s st)) ->
                  CleaningSuggestion.id x <> CleaningSuggestion.id s).
Proof.
  intros s st a Ha Hne. unfold applyCleaningSuggestion. rewrite Ha.
  destruct (String.eqb_spec a ""); [congruence |].
  set (clean := fun d : Dataset.t =>
                  if negb (String.eqb (Dataset.id d) a) then d
                  else withRows d (cleanRows s (Dataset.rows d))).
  assert (forall d, Dataset.id (clean d) = Dataset.id d) as Hid
    by (intros d; unfold clean; now destruct (negb _)).
  split; [| split; [| split; [| repeat split]]].
  - unfold rowStore, activeDataset.
    cbn [activeDatasetId datasets showToast setNotification
         setCleaningSuggestions setDatasets].
    rewrite Ha. fold clean.
    induction (datasets st) as [| d ds IH]; [now rewrite cleanRows_nil |].
    cbn [map find]. rewrite Hid.
    destruct (String.eqb_spec (Dataset.id d) a) as [Ed | Ed]; [| exact IH].
    unfold clean. rewrite Ed, String.eqb_refl. reflexivity.
  - cbn [datasets showToast setNotification setCleaningSuggestions setDatasets].
    fold clean. rewrite map_map. apply map_ext. exact Hid.
  - intros k d Hk Hd.
    cbn [datasets showToast setNotification setCleaningSuggestions setDatasets].
    fold clean. rewrite nth_error_map, Hk. simpl. f_equal.
    unfold clean. destruct (String.eqb_spec (Dataset.id d) a); [congruence |].
    reflexivity.
  - intros x Hx.
    cbn [cleaningSuggestions showToast setNotification setCleaningSuggestions]
      in Hx.
    apply filter_In in Hx. destruct Hx as [_ Hx].
    apply negb_true_iff, String.eqb_neq in Hx. exact Hx.
Qed.

(** The deduplication applied to the filtered fixture. *)
Lemma cleaning_replaces_the_store_only_witness :
  rowStore (applyCleaningSuggestion
              (CleaningSuggestion.mk "s1" "a" "duplicates" "Deduplicate" low
                                     (Some deduplicate))
              Fixture.filtered)
  = dedup (rowStore Fixture.filtered).
Proof.
  assert ("d1" <> "") as H by discriminate.
  exact (proj1 (cleaning_replaces_the_store_only
                  (CleaningSuggestion.mk "s1" "a" "duplicates" "Deduplicate" low
                                         (Some deduplicate))
                  Fixture.filtered "d1" eq_refl H)).
Defined.


(** ** The sort stage: order and stability *)

Section StableSort.

Context {A : Type}.
Variable compare : A -> A -> JS.number.
Variable all : list A.
Hypothesis consistent : consistentOn compare all = true.

Lemma consistent_asym (x y : A) :
  In x all -> In y all ->
  goesAfter compare x y = true -> goesAfter compare y x = false.
Proof.
  intros Hx Hy H. unfold consistentOn in consistent.
  rewrite forallb_forall in consistent. specialize (consistent x Hx).
  rewrite forallb_forall in consistent. specialize (consistent y Hy).
  apply andb_true_iff in consistent. destruct consistent as [Ha _].
  rewrite H in Ha. simpl in Ha. now apply negb_true_iff.
Qed.

Lemma consistent_trans (x y z : A) :
  In x all -> In y all -> In z all ->
  goesAfter compare x y = false -> goesAfter compare y z = false ->
  goesAfter compare x z = false.
Proof.
  intros Hx Hy Hz Hxy Hyz. unfold consistentOn in consistent.
  rewrite forallb_forall in consistent. specialize (consistent x Hx).
  rewrite forallb_forall in consistent. specialize (consistent y Hy).
  apply andb_true_iff in consistent. destruct consistent as [_ Ht].
  rewrite forallb_forall in Ht. specialize (Ht z Hz).
  rewrite Hxy, Hyz in Ht. simpl in Ht. now apply negb_true_iff.
Qed.

Lemma sort_insert_In (x y : A) (l : list A) :
  In y (JS.sort_insert compare x l) <-> y = x \/ In y l.
Proof.
  split; intros H.
  - apply (Permutation_in y (Permutation_sym (sort_insert_perm compare x l))) in H.
    simpl in H. intuition.
  - apply (Permutation_in y (sort_insert_perm compare x l)). simpl. intuition.
Qed.

Lemma sort_insert_sorted (x : A) (l : list A) :
  In x all -> incl l all ->
  StronglySorted (fun a b => goesAfter compare a b = false) l ->
  StronglySorted (fun a b => goesAfter compare a b = false)
                 (JS.sort_insert compare x l).
Proof.
  intros Hx Hl Hs. induction l as [| y l IH]; simpl.
  - constructor; constructor.
  - fold (goesAfter compare x y).
    assert (In y all) as Hy by (apply Hl; now left).
    assert (incl l all) as Hl' by (intros z Hz; apply Hl; now right).
    inversion Hs as [| y' l' Hs' Hall]; subst.
    destruct (goesAfter compare x y) eqn:E.
    + constructor; [now apply IH |].
      apply Forall_forall. intros z Hz. apply sort_insert_In in Hz.
      destruct Hz as [-> | Hz]; [now apply consistent_asym |].
      rewrite Forall_forall in Hall. now apply Hall.
    + constructor; [assumption |]. constructor; [assumption |].
      apply Forall_forall. intros z Hz. rewrite Forall_forall in Hall.
      apply (consistent_trans x y z); auto.
Qed.

Lemma Array_sort_sorted (l : list A) :
  incl l all ->
  StronglySorted (fun a b => goesAfter compare a b = false)
                 (JS.Array_sort compare l).
Proof.
  induction l as [| x l IH]; intros Hl; simpl; [constructor |].
  apply sort_insert_sorted.
  - apply Hl. now left.
  - intros z Hz. apply Hl. right.
    apply (Permutation_in z (Permutation_sym (Array_sort_perm compare l))).
    assumption.
  - apply IH. intros z Hz. apply Hl. now right.
Qed.

Lemma sort_insert_ties (z x : A) (l : list A) :
  In z all -> In x all -> incl l all ->
  filter (tied compare z) (JS.sort_insert compare x l)
  = filter (tied compare z) (x :: l).
Proof.
  intros Hz Hx Hl. induction l as [| y l IH]; [reflexivity |].
  assert (In y all) as Hy by (apply Hl; now left).
  assert (incl l all) as Hl' by (intros w Hw; apply Hl; now right).
  cbn [JS.sort_insert]. fold (goesAfter compare x y).
  destruct (goesAfter compare x y) eqn:E; [| reflexivity].
  cbn [filter]. rewrite (IH Hl'). cbn [filter].
  destruct (tied compare z x) eqn:Tx, (tied compare z y) eqn:Ty;
    try reflexivity.
  exfalso. unfold tied in Tx, Ty.
  apply andb_true_iff in Tx, Ty. destruct Tx as [_ Tx], Ty as [Ty _].
  apply negb_true_iff in Tx, Ty.
  rewrite (consistent_trans x z y Hx Hz Hy Tx Ty) in E. discriminate.
Qed.

Lemma Array_sort_ties (z : A) (l : list A) :
  In z all -> incl l all ->
  filter (tied compare z) (JS.Array_sort compare l) = filter (tied compare z) l.
Proof.
  intros Hz. induction l as [| x l IH]; intros Hl; [reflexivity |].
  cbn [JS.Array_sort]. rewrite sort_insert_ties.
  - cbn [filter]. rewrite IH; [reflexivity |].
    intros w Hw. apply Hl. now right.
  - assumption.
  - apply Hl. now left.
  - intros w Hw. apply Hl. right.
    apply (Permutation_in w (Permutation_sym (Array_sort_perm compare l))).
    assumption.
Qed.

End StableSort.

(** X24.  With a sort column and a direction set, and a comparator that is
    consistent on the rows, the sort stage gives the rows in order (no row
    comes before a row that the comparator puts before it) and is stable:
    the rows tied with any one row keep the order they had. *)
Theorem sort_stage_orders_and_is_stable :
  forall (localeCompare : string -> string -> JS.number) (cfg : SortConfig.t)
         (rows : list JS.object),
    SortConfig.key cfg <> "" ->
    SortConfig.direction cfg <> None ->
    consistentOn (sortComparator localeCompare cfg) rows = true ->
    StronglySorted
      (fun a b => goesAfter (sortComparator localeCompare cfg) a b = false)
      (sortStage localeCompare cfg rows)
    /\ forall z, In z rows ->
         filter (tied (sortComparator localeCompare cfg) z)
                (sortStage localeCompare cfg rows)
         = filter (tied (sortComparator localeCompare cfg) z) rows.
Proof.
  intros lc cfg rows Hk Hd Hc.
  assert (sortStage lc cfg rows = JS.Array_sort (sortComparator lc cfg) rows) as ->.
  { unfold sortStage. destruct (String.eqb_spec (SortConfig.key cfg) "");
      [congruence |].
    destruct (SortConfig.direction cfg); [reflexivity | congruence]. }
  split.
  - apply (Array_sort_sorted _ rows Hc). apply incl_refl.
  - intros z Hz. apply (Array_sort_ties _ rows Hc); [assumption | apply incl_refl].
Qed.

(** Four rows sorted by the numbers of [a], descending; two rows are tied
    and keep their order. *)
Lemma sort_stage_orders_and_is_stable_witness :
  let cfg := SortConfig.mk "a" (Some desc) in
  let rows := [[("a", JS.VNum 2%float); ("b", JS.VStr "x")];
               [("a", JS.VNum 3%float); ("b", JS.VStr "y")];
               [("a", JS.VNum 2%float); ("b", JS.VStr "z")];
               [("a", JS.VNum 1%float); ("b", JS.VStr "w")]] in
  sortStage byteCompare cfg rows
  = [[("a", JS.VNum 3%float); ("b", JS.VStr "y")];
     [("a", JS.VNum 2%float); ("b", JS.VStr "x")];
     [("a", JS.VNum 2%float); ("b", JS.VStr "z")];
     [("a", JS.VNum 1%float); ("b", JS.VStr "w")]]
  /\ StronglySorted
       (fun a b => goesAfter (sortComparator byteCompare cfg) a b = false)
       (sortStage byteCompare cfg rows).
Proof.
  cbn zeta. split; [vm_compute; reflexivity |].
  apply (sort_stage_orders_and_is_stable byteCompare
           (SortConfig.mk "a" (Some desc))).
  - discriminate.
  - discriminate.
  - vm_compute. reflexivity.
Defined.


(** ** Start-up and the persisted theme *)

(** X25.  With nothing, or the empty text, stored under [datasets] and
    under [sessions], the load does not throw and both collections start
    empty, whatever else is stored. *)
Theorem missing_collections_load_empty :
  forall storage : Storage,
    (storage "datasets" = None \/ storage "datasets" = Some "") ->
    (storage "sessions" = None \/ storage "sessions" = Some "") ->
    loadPersisted storage
    = JS.Normal (initTheme storage, JS.JArray [], JS.JArray []).
Proof. exact load_missing. Qed.

(** A store that holds a theme only. *)
Lemma missing_collections_load_empty_witness :
  loadPersisted Fixture.oddThemeStorage
  = JS.Normal (light, JS.JArray [], JS.JArray []).
Proof.
  apply (missing_collections_load_empty Fixture.oddThemeStorage);
    left; reflexivity.
Defined.

(** X26.  The stored theme is validated and survives a reload: the initial
    theme is dark exactly when the text stored is [dark], light in every
    other case, and a theme that was persisted is the theme read back, also
    after a toggle. *)
Theorem theme_is_validated_and_round_trips :
  forall (storage : Storage) (t : Theme),
    (initTheme storage = dark <-> storage "theme" = Some "dark")
    /\ (initTheme storage = light <-> storage "theme" <> Some "dark")
    /\ initTheme (persistTheme t storage) = t
    /\ initTheme (persistTheme (toggleTheme t) (persistTheme t storage))
       = toggleTheme t
    /\ toggleTheme (toggleTheme t) = t.
Proof.
  intros storage t.
  assert (initTheme storage = dark <-> storage "theme" = Some "dark") as Hd.
  { unfold initTheme. destruct (storage "theme") as [saved |].
    - destruct (String.eqb_spec saved "dark") as [-> | Hne].
      + split; reflexivity.
      + split; [| congruence].
        destruct (String.eqb saved "light"); discriminate.
    - split; discriminate. }
  split; [exact Hd |]. split; [| split; [| split]].
  - rewrite <- Hd. destruct (initTheme storage); split; congruence.
  - destruct t; reflexivity.
  - destruct t; reflexivity.
  - destruct t; reflexivity.
Qed.


(** ** The column statistics *)

Section StatsFacts.

Import Stats.

Lemma lookup_add_same (o : table) (k : string) (v : ColumnStats.t) :
  lookup o k = None -> lookup (add o k v) k = Some v.
Proof.
  induction o as [| [k' v'] o IH]; intros H; simpl.
  - now rewrite String.eqb_refl.
  - simpl in H. destruct (String.eqb k' k) eqn:Ek; [discriminate |].
    destruct (JS.array_index k) as [i |]; [destruct (JS.array_index k') as [j |] |].
    + destruct (i <? j); simpl; [now rewrite String.eqb_refl |].
      rewrite Ek. now apply IH.
    + simpl. now rewrite String.eqb_refl.
    + simpl. rewrite Ek. now apply IH.
Qed.

Lemma lookup_add_other (o : table) (k k' : string) (v : ColumnStats.t) :
  k' <> k -> lookup (add o k v) k' = lookup o k'.
Proof.
  intros Hne. assert (String.eqb k k' = false) as E
    by (apply String.eqb_neq; congruence).
  induction o as [| [k0 v0] o IH]; simpl.
  - now rewrite E.
  - destruct (JS.array_index k) as [i |]; [destruct (JS.array_index k0) as [j |] |].
    + destruct (i <? j); simpl; [now rewrite E |]. now rewrite IH.
    + simpl. now rewrite E.
    + simpl. now rewrite IH.
Qed.

Lemma lookup_replace_same (o : table) (k : string) (v : ColumnStats.t) :
  lookup o k <> None -> lookup (replace o k v) k = Some v.
Proof.
  induction o as [| [k' v'] o IH]; intros H; [now elim H |].
  simpl in *. destruct (String.eqb k' k) eqn:E; simpl; rewrite E;
    [reflexivity | now apply IH].
Qed.

Lemma lookup_replace_other (o : table) (k k' : string) (v : ColumnStats.t) :
  k' <> k -> lookup (replace o k v) k' = lookup o k'.
Proof.
  intros Hne. induction o as [| [k0 v0] o IH]; [reflexivity |].
  simpl. destruct (String.eqb_spec k0 k) as [-> | Hk]; simpl.
  - destruct (String.eqb_spec k k'); [congruence | reflexivity].
  - now rewrite IH.
Qed.

Lemma own_assign_same (r : results) (k : string) (v : ColumnStats.t) :
  k <> "__proto__" -> lookup (own (assign r k v)) k = Some v.
Proof.
  intros Hk. unfold assign.
  destruct (String.eqb_spec k "__proto__"); [congruence |].
  cbn [own]. destruct (lookup (own r) k) eqn:E.
  - apply lookup_replace_same. congruence.
  - now apply lookup_add_same.
Qed.

Lemma own_assign_other (r : results) (k k' : string) (v : ColumnStats.t) :
  k' <> k -> lookup (own (assign r k v)) k' = lookup (own r) k'.
Proof.
  intros H. unfold assign. destruct (String.eqb k "__proto__"); [reflexivity |].
  cbn [own]. destruct (lookup (own r) k);
    [now apply lookup_replace_other | now apply lookup_add_other].
Qed.

Lemma own_assign_proto (r : results) (v : ColumnStats.t) (c : string) :
  lookup (own (assign r "__proto__" v)) c = lookup (own r) c.
Proof. reflexivity. Qed.

Lemma proto_assign_other (r : results) (k : string) (v : ColumnStats.t) :
  k <> "__proto__" -> proto (assign r k v) = proto r.
Proof.
  intros Hk. unfold assign.
  destruct (String.eqb_spec k "__proto__"); [congruence | reflexivity].
Qed.

(** An own entry of the table after the columns were visited. *)
Lemma lookup_visited (rows : list JS.object) (cols : list string) (c : string) :
  forall r : results,
    lookup (own (fold_left (visit rows) cols r)) c
    = if negb (String.eqb c "__proto__")
         && existsb (String.eqb c) cols
         && negb (Nat.eqb (List.length (numbersOf c rows)) 0)
      then Some (ofValues (numbersOf c rows))
      else lookup (own r) c.
Proof.
  induction cols as [| col cols IH]; intros r.
  - cbn [fold_left existsb]. now rewrite andb_false_r.
  - cbn [fold_left existsb]. rewrite IH.
    destruct (String.eqb_spec c "__proto__") as [Hp | Hp].
    + cbn [negb andb]. unfold visit.
      destruct (numbersOf col rows); [reflexivity |].
      destruct (String.eqb_spec c col) as [<- | Hne];
        [rewrite Hp; apply own_assign_proto | now apply own_assign_other].
    + cbn [negb andb].
      destruct (numbersOf c rows) as [| x xs] eqn:En.
      * cbn [List.length Nat.eqb negb]. rewrite !andb_false_r.
        unfold visit. destruct (String.eqb_spec c col) as [<- | Hne].
        -- now rewrite En.
        -- destruct (numbersOf col rows); [reflexivity |].
           now apply own_assign_other.
      * cbn [List.length Nat.eqb negb]. rewrite !andb_true_r.
        destruct (existsb (String.eqb c) cols); [now rewrite orb_true_r |].
        rewrite orb_false_r. unfold visit.
        destruct (String.eqb_spec c col) as [<- | Hne].
        -- rewrite En. now apply own_assign_same.
        -- destruct (numbersOf col rows); [reflexivity |].
           now apply own_assign_other.
Qed.

(** The prototype stays when no column is named [__proto__]. *)
Lemma proto_visited (rows : list JS.object) (cols : list string) :
  ~ In "__proto__" cols ->
  forall r : results, proto (fold_left (visit rows) cols r) = proto r.
Proof.
  induction cols as [| col cols IH]; intros Hn r; [reflexivity |].
  cbn [fold_left]. rewrite IH by (intros H; apply Hn; now right).
  unfold visit. destruct (numbersOf col rows); [reflexivity |].
  apply proto_assign_other. intros ->. apply Hn. now left.
Qed.

Lemma numbersOf_nonempty (col : string) (rows : list JS.object) :
  numbersOf col rows <> []
  <-> exists row, In row rows /\ JS.is_number (JS.get row col) = true.
Proof.
  induction rows as [| r rows IH]; simpl.
  - split; [congruence | intros [row [[] _]]].
  - destruct (JS.get r col) eqn:E; try (rewrite IH; split;
      [intros [row [Hin Hn]]; exists row; auto
      | intros [row [[<- | Hin] Hn]];
        [rewrite E in Hn; discriminate | exists row; auto]]).
    split; [| discriminate]. intros _. exists r. rewrite E. auto.
Qed.

Lemma numbersOf_length (col : string) (rows : list JS.object) :
  List.length (numbersOf col rows)
  = List.length (filter (fun r => JS.is_number (JS.get r col)) rows).
Proof.
  induction rows as [| r rows IH]; [reflexivity |].
  simpl. destruct (JS.get r col); simpl; now rewrite IH.
Qed.

End StatsFacts.

(** X27.  The table of statistics owns an entry for a column exactly when
    the column is a column of the active dataset, is not named [__proto__],
    and some row holds a number in it (a NaN counts); the entry then is the
    statistics of those numbers, its count the number of such rows.  The
    filter builder takes a column named like a property of
    [Object.prototype] for numeric whatever it holds; any other column, in
    a dataset without a column [__proto__], exactly when the table owns an
    entry for it. *)
Theorem stats_exist_for_columns_with_numbers :
  forall (st : AppState) (d : Dataset.t) (c : string),
    activeDataset st = Some d ->
    (Stats.lookup (Stats.own (Stats.stats st)) c <> None
     <-> c <> "__proto__"
         /\ In c (Dataset.columns d)
         /\ exists row, In row (Dataset.rows d)
                        /\ JS.is_number (JS.get row c) = true)
    /\ (forall s, Stats.lookup (Stats.own (Stats.stats st)) c = Some s ->
          s = Stats.ofValues (Stats.numbersOf c (Dataset.rows d))
          /\ ColumnStats.count s
             = JS.of_Z (Z.of_nat
                 (List.length
                    (filter (fun r => JS.is_number (JS.get r c)) (Dataset.rows d)))))
    /\ (inherited c = true -> Stats.colType st c = numeric)
    /\ (inherited c = false -> ~ In "__proto__" (Dataset.columns d) ->
        (Stats.colType st c = numeric
         <-> Stats.lookup (Stats.own (Stats.stats st)) c <> None)).
Proof.
  intros st d c Hd.
  assert (existsb (String.eqb c) (Dataset.columns d) = true
          <-> In c (Dataset.columns d)) as Hin.
  { rewrite existsb_exists. split.
    - intros [x [Hx E]]. apply String.eqb_eq in E. now subst.
    - intros H. exists c. split; [assumption | apply String.eqb_refl]. }
  pose proof (numbersOf_nonempty c (Dataset.rows d)) as Hne.
  assert (Stats.stats st
          = fold_left (Stats.visit (Dataset.rows d)) (Dataset.columns d)
                      Stats.empty) as Hs
    by (unfold Stats.stats; now rewrite Hd).
  assert (Stats.lookup (Stats.own (Stats.stats st)) c
          = if negb (String.eqb c "__proto__")
               && existsb (String.eqb c) (Dataset.columns d)
               && negb (Nat.eqb (List.length
                                   (Stats.numbersOf c (Dataset.rows d))) 0)
            then Some (Stats.ofValues (Stats.numbersOf c (Dataset.rows d)))
            else None) as Hl
    by (rewrite Hs; apply lookup_visited).
  split; [| split; [| split]].
  - rewrite Hl.
    destruct (String.eqb_spec c "__proto__") as [Hp | Hp]; cbn [negb andb].
    + split; [congruence | tauto].
    + destruct (existsb (String.eqb c) (Dataset.columns d)) eqn:Ex;
        cbn [andb].
      * destruct (Stats.numbersOf c (Dataset.rows d)) as [| x xs] eqn:En;
          cbn [List.length Nat.eqb negb].
        -- split; [congruence |]. intros (_ & _ & H). apply Hne in H.
           congruence.
        -- split; [| discriminate]. intros _. split; [assumption |].
           split; [now apply Hin |]. apply Hne. discriminate.
      * split; [congruence |]. intros (_ & H & _). apply Hin in H.
        discriminate.
  - intros s. rewrite Hl.
    destruct (negb (String.eqb c "__proto__")
              && existsb (String.eqb c) (Dataset.columns d)
              && negb (Nat.eqb (List.length
                                  (Stats.numbersOf c (Dataset.rows d))) 0));
      [| discriminate].
    intros H. injection H as <-. split; [reflexivity |].
    cbn [Stats.ofValues ColumnStats.count]. now rewrite <- numbersOf_length.
  - intros Hi. unfold Stats.colType, Stats.holds.
    destruct (Stats.lookup (Stats.own (Stats.stats st)) c); [reflexivity |].
    destruct (Stats.proto (Stats.stats st)) as [s |]; [| now rewrite Hi].
    assert (Stats.field s c = None) as ->; [| now rewrite Hi].
    unfold Stats.field.
    destruct (String.eqb_spec c "min") as [-> | _]; [discriminate Hi |].
    destruct (String.eqb_spec c "max") as [-> | _]; [discriminate Hi |].
    destruct (String.eqb_spec c "avg") as [-> | _]; [discriminate Hi |].
    destruct (String.eqb_spec c "sum") as [-> | _]; [discriminate Hi |].
    destruct (String.eqb_spec c "count") as [-> | _]; [discriminate Hi |].
    reflexivity.
  - intros Hi Hn.
    assert (Stats.proto (Stats.stats st) = None) as Hp
      by (rewrite Hs; now rewrite proto_visited).
    unfold Stats.colType, Stats.holds. rewrite Hp, Hi.
    destruct (Stats.lookup (Stats.own (Stats.stats st)) c);
      split; congruence.
Qed.

(** The numeric column of the unfiltered fixture. *)
Lemma stats_exist_for_columns_with_numbers_witness :
  Stats.lookup (Stats.own (Stats.stats Fixture.unfiltered)) "a"
  = Some (ColumnStats.mk 1%float 2%float 1.5%float 3%float 2%float)
  /\ Stats.colType Fixture.unfiltered "a" = numeric
  /\ Stats.colType Fixture.unfiltered "constructor" = numeric
  /\ Stats.colType Fixture.unfiltered "b" = categorical.
Proof.
  assert (activeDataset Fixture.unfiltered
          = Some (Dataset.mk "d1" "d1.csv" ["a"]
                    [[("a", JS.VNum 1%float)]; [("a", JS.VNum 2%float)]]
                    "Dataset" None)) as Hd by reflexivity.
  split; [vm_compute; reflexivity |]. split; [| split].
  - destruct (stats_exist_for_columns_with_numbers Fixture.unfiltered _ "a" Hd)
      as (_ & _ & _ & Hc).
    apply Hc; [reflexivity | | vm_compute; discriminate].
    simpl. intros [H | []]. discriminate H.
  - destruct (stats_exist_for_columns_with_numbers Fixture.unfiltered _
                "constructor" Hd) as (_ & _ & Hc & _).
    apply Hc. reflexivity.
  - vm_compute. reflexivity.
Defined.


(** ** Dashboard tiles and the chat *)

Section Sessions.

Import Workspace.

Lemma withTiles_same (s : AnalysisSession.t) :
  withTiles s (AnalysisSession.dashboardTiles s) = s.
Proof. now destruct s. Qed.

Lemma map_unchanged {A : Type} (f : A -> A) (l : list A) :
  (forall x, In x l -> f x = x) -> map f l = l.
Proof.
  intros H. induction l as [| x l IH]; [reflexivity |].
  simpl. rewrite H by now left. f_equal. apply IH.
  intros y Hy. apply H. now right.
Qed.

Lemma filter_all {A : Type} (p : A -> bool) (l : list A) :
  (forall x, In x l -> p x = true) -> filter p l = l.
Proof.
  intros H. apply forallb_filter_id. now apply forallb_forall.
Qed.

(** The slice from the start is a prefix. *)
Lemma Array_slice_prefix {A : Type} (l : list A) (n : Z) :
  0 <= n -> JS.Array_slice l 0 n = firstn (Z.to_nat n) l.
Proof.
  intros Hn. unfold JS.Array_slice, JS.relative.
  destruct (Z.ltb_spec 0 0); [lia |]. destruct (Z.ltb_spec n 0); [lia |].
  rewrite (Z.min_l 0) by lia. cbn [Z.to_nat skipn]. rewrite Z.sub_0_r.
  destruct (Z.le_ge_cases n (Z.of_nat (List.length l))).
  - rewrite Z.min_l, Z.max_l by lia. reflexivity.
  - rewrite Z.min_r, Z.max_l by lia. rewrite Nat2Z.id, firstn_all.
    symmetry. apply firstn_all2. lia.
Qed.

Lemma kpiTiles_length (fresh : nat -> string) (k : nat) (ms : list KPIMetric.t) :
  List.length (kpiTiles fresh k ms) = List.length ms.
Proof.
  revert k. induction ms as [| m ms IH]; intros k; [reflexivity |].
  simpl. now rewrite IH.
Qed.

Lemma kpiTiles_are_kpi (fresh : nat -> string) (ms : list KPIMetric.t) :
  forall (k : nat) (t : DashboardTile.t),
    In t (kpiTiles fresh k ms) ->
    DashboardTile.type t = kpi /\ DashboardTile.w t = 1%float
    /\ exists m, In m ms /\ DashboardTile.kpi t = Some m.
Proof.
  induction ms as [| m ms IH]; intros k t Hin; [destruct Hin |].
  destruct Hin as [<- | Hin].
  - simpl. repeat split. exists m. split; [now left | reflexivity].
  - destruct (IH _ _ Hin) as (H1 & H2 & m' & Hm & Hk).
    repeat split; try assumption. exists m'. split; [now right | assumption].
Qed.

Lemma kpiTiles_metrics (fresh : nat -> string) (ms : list KPIMetric.t) :
  forall k : nat,
    map DashboardTile.kpi (kpiTiles fresh k ms) = map Some ms
    /\ map DashboardTile.id (kpiTiles fresh k ms)
       = map fresh (seq k (List.length ms)).
Proof.
  induction ms as [| m ms IH]; intros k; [split; reflexivity |].
  destruct (IH (S k)) as [H1 H2]. cbn [kpiTiles map List.length seq].
  cbn [DashboardTile.kpi DashboardTile.id]. now rewrite H1, H2.
Qed.

End Sessions.

(** X28.  Pinning a chart and then removing the tile of the identifier that
    was drawn for it gives back the sessions as they were, when no tile of
    the active session had that identifier; sessions that are not active
    are never touched by either. *)
Theorem pin_then_remove_restores_the_tiles :
  forall (fresh : string) (config : ChartConfig.t) (ws : Workspace.t),
    (forall s t, In s (Workspace.sessions ws) ->
                 Workspace.isActive ws s = true ->
                 In t (AnalysisSession.dashboardTiles s) ->
                 DashboardTile.id t <> fresh) ->
    Workspace.sessions
      (Workspace.removeTile fresh (Workspace.pinToDashboard fresh config ws))
    = Workspace.sessions ws
    /\ forall k s, nth_error (Workspace.sessions ws) k = Some s ->
                   Workspace.isActive ws s = false ->
                   nth_error (Workspace.sessions
                                (Workspace.pinToDashboard fresh config ws)) k
                   = Some s
                   /\ nth_error (Workspace.sessions
                                   (Workspace.removeTile fresh ws)) k
                      = Some s.
Proof.
  intros fresh config ws Hfresh. split.
  - unfold Workspace.pinToDashboard.
    destruct (Workspace.noActiveSession ws) eqn:En.
    + unfold Workspace.removeTile. cbn [Workspace.sessions Workspace.setSessions].
      apply map_unchanged. intros s Hs.
      destruct (Workspace.isActive ws s) eqn:Ea; [| reflexivity].
      rewrite filter_all; [apply withTiles_same |].
      intros t Ht. apply negb_true_iff, String.eqb_neq. now apply (Hfresh s t).
    + unfold Workspace.removeTile.
      cbn [Workspace.sessions Workspace.setSessions Workspace.withGrid].
      rewrite map_map. apply map_unchanged. intros s Hs.
      change (Workspace.isActive
                (Workspace.withGrid _ (Workspace.setSessions _ ws)))
        with (Workspace.isActive ws).
      destruct (Workspace.isActive ws s) eqn:Ea.
      * change (Workspace.isActive ws (Workspace.withTiles s _))
          with (Workspace.isActive ws s).
        rewrite Ea. cbn [Workspace.withTiles AnalysisSession.dashboardTiles].
        rewrite filter_app. cbn [filter DashboardTile.id].
        rewrite String.eqb_refl. cbn [negb]. rewrite app_nil_r.
        rewrite filter_all; [now destruct s |].
        intros t Ht. apply negb_true_iff, String.eqb_neq. now apply (Hfresh s t).
      * now rewrite Ea.
  - intros k s Hk Ha. split.
    + unfold Workspace.pinToDashboard.
      destruct (Workspace.noActiveSession ws); [assumption |].
      cbn [Workspace.sessions Workspace.setSessions Workspace.withGrid].
      rewrite nth_error_map, Hk. simpl. now rewrite Ha.
    + unfold Workspace.removeTile.
      cbn [Workspace.sessions Workspace.setSessions].
      rewrite nth_error_map, Hk. simpl. now rewrite Ha.
Qed.

(** A chart pinned to the first session and removed again. *)
Lemma pin_then_remove_restores_the_tiles_witness :
  Workspace.sessions
    (Workspace.removeTile "t9"
       (Workspace.pinToDashboard "t9" Fixture2.chartOfA Fixture2.workspace))
  = Workspace.sessions Fixture2.workspace.
Proof.
  apply (pin_then_remove_restores_the_tiles "t9" Fixture2.chartOfA
           Fixture2.workspace).
  intros s t Hs Ha Ht. simpl in Hs.
  destruct Hs as [<- | [<- | []]]; [| discriminate Ha].
  simpl in Ht. destruct Ht as [<- | [<- | [<- | []]]]; discriminate.
Defined.

(** X29.  When the service resolves, the reply goes to the session the
    message was sent from, whichever session is active by then, and to no
    other: every other session stays as it is.  That session gets the
    assistant's message after its messages, and, only if it has fewer than
    four tiles, one tile for each metric of the reply, in their order, after
    its tiles: the check is made once, so a session can end with more than
    four tiles.  The status becomes SUCCESS. *)
Theorem reply_adds_all_metrics_or_none :
  forall (origin : Workspace.t) (fresh : nat -> string) (now now' : JS.number)
         (result : AnalysisResult.t) (ws : Workspace.t),
    Workspace.status (Workspace.resolved origin fresh now now' result ws)
    = SUCCESS
    /\ Workspace.grid (Workspace.resolved origin fresh now now' result ws)
       = Workspace.grid ws
    /\ Workspace.activeSessionId
         (Workspace.resolved origin fresh now now' result ws)
       = Workspace.activeSessionId ws
    /\ forall (k : nat) (s : AnalysisSession.t),
         nth_error (Workspace.sessions ws) k = Some s ->
         (Workspace.isActive origin s = false ->
          nth_error
            (Workspace.sessions
               (Workspace.resolved origin fresh now now' result ws)) k
          = Some s)
         /\ (Workspace.isActive origin s = true ->
             exists (s' : AnalysisSession.t) (added : list DashboardTile.t),
               nth_error
                 (Workspace.sessions
                    (Workspace.resolved origin fresh now now' result ws)) k
               = Some s'
               /\ AnalysisSession.id s' = AnalysisSession.id s
               /\ AnalysisSession.messages s'
                  = (AnalysisSession.messages s
                     ++ [ChatMessage.mk (JS.NumberToString now) assistant
                           (AnalysisResult.textResponse result)
                           (AnalysisResult.suggestedChart result) now'
                           (AnalysisResult.insights result)
                           (AnalysisResult.metrics result) None])%list
               /\ AnalysisSession.dashboardTiles s'
                  = (AnalysisSession.dashboardTiles s ++ added)%list
               /\ map DashboardTile.kpi added
                  = match AnalysisResult.metrics result with
                    | Some ms =>
                        if (List.length (AnalysisSession.dashboardTiles s) <? 4)%nat
                        then map Some ms else []
                    | None => []
                    end
               /\ map DashboardTile.id added
                  = map fresh (seq 0 (List.length added))
               /\ (forall t, In t added ->
                     DashboardTile.type t = kpi
                     /\ DashboardTile.w t = 1%float
                     /\ DashboardTile.config t = None)).
Proof.
  intros origin fresh now now' result ws.
  split; [reflexivity |]. split; [reflexivity |]. split; [reflexivity |].
  intros k s Hk. unfold Workspace.resolved.
  cbn [Workspace.sessions Workspace.setStatus Workspace.setSessions].
  rewrite nth_error_map, Hk. cbn [option_map]. split; intros Ha; rewrite Ha.
  - reflexivity.
  - set (msg := ChatMessage.mk _ _ _ _ _ _ _ _).
    assert (forall ms k0 t, In t (Workspace.kpiTiles fresh k0 ms) ->
              DashboardTile.type t = kpi /\ DashboardTile.w t = 1%float
              /\ DashboardTile.config t = None) as Hkpi.
    { induction ms as [| m ms IH]; intros k0 t [].
      - subst t. repeat split.
      - eapply IH. eassumption. }
    unfold Workspace.receive.
    destruct (AnalysisResult.metrics result) as [ms |].
    + destruct (List.length (AnalysisSession.dashboardTiles s) <? 4)%nat.
      * eexists. exists (Workspace.kpiTiles fresh 0 ms).
        split; [reflexivity |]. split; [reflexivity |].
        split; [reflexivity |]. split; [reflexivity |].
        destruct (kpiTiles_metrics fresh ms 0) as [H1 H2].
        split; [exact H1 |]. split; [| apply Hkpi].
        rewrite H2. now rewrite kpiTiles_length.
      * eexists. exists []. rewrite app_nil_r.
        split; [reflexivity |]. split; [reflexivity |].
        split; [reflexivity |]. split; [reflexivity |].
        split; [reflexivity |]. split; [reflexivity | intros t []].
    + eexists. exists []. rewrite app_nil_r.
      split; [reflexivity |]. split; [reflexivity |].
      split; [reflexivity |]. split; [reflexivity |].
      split; [reflexivity |]. split; [reflexivity | intros t []].
Qed.

(** X30.  A message is sent only with a text that is not blank, an active
    dataset and an active session; then the input is cleared, the status is
    LOADING, the sessions keep their number, and the request carries the
    text as typed and the first rows of the Row Store, at most 15. *)
Theorem send_message_starts_a_request :
  forall (now now' : JS.number) (ws : Workspace.t),
    (Workspace.handleSendMessage now now' ws = None
     <-> JS.trim (Workspace.input ws) = ""
         \/ activeDataset (Workspace.grid ws) = None
         \/ Workspace.noActiveSession ws = true)
    /\ forall ws' req,
         Workspace.handleSendMessage now now' ws = Some (ws', req) ->
         Workspace.input ws' = ""
         /\ Workspace.status ws' = LOADING
         /\ Workspace.grid ws' = Workspace.grid ws
         /\ List.length (Workspace.sessions ws')
            = List.length (Workspace.sessions ws)
         /\ Workspace.question req = Workspace.input ws
         /\ Workspace.sample req = firstn 15 (rowStore (Workspace.grid ws))
         /\ (List.length (Workspace.sample req) <= 15)%nat.
Proof.
  intros now now' ws. unfold Workspace.handleSendMessage, rowStore.
  destruct (activeDataset (Workspace.grid ws)) as [d |].
  - destruct (String.eqb_spec (JS.trim (Workspace.input ws)) "") as [Et | Et];
      cbn [orb].
    + split; [split; [auto | reflexivity] | discriminate].
    + destruct (Workspace.noActiveSession ws) eqn:En.
      * split; [split; [auto | reflexivity] | discriminate].
      * split.
        -- split; [discriminate |]. intros [H | [H | H]]; congruence.
        -- intros ws' req H. injection H as <- <-.
           cbn [Workspace.input Workspace.status Workspace.grid
                Workspace.sessions Workspace.setStatus Workspace.setInput
                Workspace.setSessions Workspace.question Workspace.sample].
           assert (JS.Array_slice (Dataset.rows d) 0 15
                   = firstn 15 (Dataset.rows d)) as Hs.
           { apply (Array_slice_prefix (Dataset.rows d) 15). lia. }
           rewrite Hs. repeat split; try reflexivity.
           ++ apply length_map.
           ++ rewrite length_firstn. lia.
  - split; [split; [auto | reflexivity] | discriminate].
Qed.
